(** * seller-apis: stock and price synchronisation for Ozon and Yandex.Market

    A shallow embedding of [seller.py] and [market.py].

    - Python values read from the feed are [pyval]s; strings are byte
      strings (the UTF-8 encoding of the Python [str]).
    - Exceptions are values of [exn]; a computation that may raise returns a
      [result].
    - The list of offer ids is a mutable Python list that [create_stocks]
      changes in place and that the drivers pass on to [create_prices]; it
      lives in a store addressed by references, so that aliasing is visible.
    - The network, the clock, the environment and the console are the
      outside world: every call is logged and answered by a handler. *)

From Stdlib Require Import ZArith Ascii String Decimal DecimalString DecimalZ DecimalN DecimalPos.
From stdpp Require Import base decidable option list strings gmap.

(** ** Python values, exceptions *)

Inductive exn : Set :=
  | ReadTimeout      (* requests.exceptions.ReadTimeout *)
  | ConnectionError  (* requests.exceptions.ConnectionError *)
  | HTTPError        (* requests.exceptions.HTTPError, from raise_for_status *)
  | BadZipFile       (* zipfile.BadZipFile *)
  | EnvError         (* environs: a required variable is not set *)
  | ValueError
  | TypeError
  | AttributeError
  | IndexError.

Global Instance exn_eq_dec : EqDecision exn.
Proof. solve_decision. Defined.

Inductive result (A : Type) : Type :=
  | Ok (a : A)
  | Raise (e : exn).
Arguments Ok {A} a.
Arguments Raise {A} e.

(** The cells of the spreadsheet as pandas hands them over: text, an integer,
    or nothing ([dict.get] of a missing key gives [None]).  Floating-point
    cells are outside the model. *)
Inductive pyval : Set :=
  | PyNone
  | PyStr (s : string)
  | PyInt (z : Z).

(** [str(int)]: the decimal numeral, with a minus sign for negatives. *)
Definition str_of_int (z : Z) : string := NilZero.string_of_int (Z.to_int z).

(** [str(v)] *)
Definition py_str (v : pyval) : string :=
  match v with
  | PyNone => "None"
  | PyStr s => s
  | PyInt z => str_of_int z
  end.

(** ** [int(str)]

    CPython reads a [str] in two steps (PyLong_FromUnicodeObject).  The text
    is first brought to ASCII: every Unicode blank becomes a space, every
    decimal digit of another script becomes its ASCII digit, and any other
    character above 127 makes the conversion fail
    (_PyUnicode_TransformDecimalAndSpaceToASCII).  The ASCII text is then
    read by PyLong_FromString: blanks around the numeral are skipped, one
    sign may precede the digits, and single underscores may separate digits.
    The blanks and digits are those of Unicode 14.0, the tables of
    CPython 3.11; a byte string that is not UTF-8 stands for no [str] and is
    refused.  The configurable limit on the number of digits is not
    modelled. *)

Definition is_digit (c : ascii) : bool :=
  ((48 <=? N_of_ascii c) && (N_of_ascii c <=? 57))%N.

Definition digit_value (c : ascii) : Z := (Z.of_N (N_of_ascii c) - 48)%Z.

(* Py_ISSPACE: \t \n \v \f \r and the blank *)
Definition is_space (c : ascii) : bool :=
  ((9 <=? N_of_ascii c) && (N_of_ascii c <=? 13) || (N_of_ascii c =? 32))%N.

Fixpoint lstrip (l : list ascii) : list ascii :=
  match l with
  | c :: l' => if is_space c then lstrip l' else l
  | [] => []
  end.

Definition strip (l : list ascii) : list ascii :=
  reverse (lstrip (reverse (lstrip l))).

(** [scan_digits acc l]: [l] is what follows a digit; [acc] is the value read
    so far. *)
Fixpoint scan_digits (acc : Z) (l : list ascii) : option Z :=
  match l with
  | [] => Some acc
  | c :: l' =>
      if is_digit c then scan_digits (10 * acc + digit_value c)%Z l'
      else if Ascii.eqb c "_" then
        match l' with
        | d :: l'' =>
            if is_digit d then scan_digits (10 * acc + digit_value d)%Z l''
            else None
        | [] => None
        end
      else None
  end.

Definition parse_unsigned (l : list ascii) : option Z :=
  match l with
  | d :: l' => if is_digit d then scan_digits (digit_value d) l' else None
  | [] => None
  end.

(** PyLong_FromString in base 10, on ASCII text. *)
Definition parse_int (s : string) : option Z :=
  match strip (list_ascii_of_string s) with
  | c :: l' =>
      if Ascii.eqb c "+" then parse_unsigned l'
      else if Ascii.eqb c "-" then Z.opp <$> parse_unsigned l'
      else parse_unsigned (c :: l')
  | [] => None
  end.

(** Py_UNICODE_ISSPACE above 127: NEL, the no-break spaces, the spaces of
    the General Punctuation block, the line and paragraph separators and
    the ideographic space. *)
Definition unicode_space (cp : N) : bool :=
  ((cp =? 0x85) || (cp =? 0xA0) || (cp =? 0x1680) ||
   ((0x2000 <=? cp) && (cp <=? 0x200A)) ||
   (cp =? 0x2028) || (cp =? 0x2029) || (cp =? 0x202F) || (cp =? 0x205F) ||
   (cp =? 0x3000))%N.

(** The digit zero of every script with decimal digits (general category
    Nd); the ten digits of a script follow each other. *)
Definition decimal_zeros : list N :=
  [0x660; 0x6F0; 0x7C0; 0x966; 0x9E6; 0xA66; 0xAE6; 0xB66; 0xBE6; 0xC66;
   0xCE6; 0xD66; 0xDE6; 0xE50; 0xED0; 0xF20; 0x1040; 0x1090; 0x17E0; 0x1810;
   0x1946; 0x19D0; 0x1A80; 0x1A90; 0x1B50; 0x1BB0; 0x1C40; 0x1C50; 0xA620;
   0xA8D0; 0xA900; 0xA9D0; 0xA9F0; 0xAA50; 0xABF0; 0xFF10; 0x104A0; 0x10D30;
   0x11066; 0x110F0; 0x11136; 0x111D0; 0x112F0; 0x11450; 0x114D0; 0x11650;
   0x116C0; 0x11730; 0x118E0; 0x11950; 0x11C50; 0x11D50; 0x11DA0; 0x16A60;
   0x16AC0; 0x16B50; 0x1D7CE; 0x1D7D8; 0x1D7E2; 0x1D7EC; 0x1D7F6; 0x1E140;
   0x1E2F0; 0x1E950; 0x1FBF0]%N.

(** Py_UNICODE_TODECIMAL above 127 *)
Definition unicode_decimal (cp : N) : option N :=
  match List.find (fun z => (z <=? cp) && (cp <? z + 10))%N decimal_zeros with
  | Some z => Some (cp - z)%N
  | None => None
  end.

(** What a character above 127 becomes. *)
Definition ascii_of_code_point (cp : N) : option ascii :=
  if unicode_space cp then Some " "%char
  else match unicode_decimal cp with
       | Some d => Some (ascii_of_N (48 + d))
       | None => None
       end.

(** The six low bits of a continuation byte of UTF-8. *)
Definition continuation (c : ascii) : option N :=
  let n := N_of_ascii c in
  if ((128 <=? n) && (n <? 192))%N then Some (n - 128)%N else None.

(** A character above 127 before the rest of the text; [least] is the first
    code point that needs as many bytes as it was decoded from. *)
Definition transform_code_point (least cp : N) (rest : option (list ascii))
  : option (list ascii) :=
  if (least <=? cp)%N then
    match ascii_of_code_point cp with
    | Some c => (c ::.) <$> rest
    | None => None
    end
  else None.

(** _PyUnicode_TransformDecimalAndSpaceToASCII, on the UTF-8 bytes of the
    text; [None] when a character is neither ASCII, a blank nor a decimal
    digit ([int] then fails on the question mark put in its place). *)
Fixpoint transform_decimal_and_space (l : list ascii) : option (list ascii) :=
  match l with
  | [] => Some []
  | b0 :: l1 =>
      let n0 := N_of_ascii b0 in
      if (n0 <? 128)%N then (b0 ::.) <$> transform_decimal_and_space l1
      else if (n0 <? 192)%N then None
      else if (n0 <? 224)%N then
        match l1 with
        | b1 :: l2 =>
            match continuation b1 with
            | Some n1 =>
                transform_code_point 0x80 ((n0 - 192) * 64 + n1)
                  (transform_decimal_and_space l2)
            | None => None
            end
        | _ => None
        end
      else if (n0 <? 240)%N then
        match l1 with
        | b1 :: b2 :: l3 =>
            match continuation b1, continuation b2 with
            | Some n1, Some n2 =>
                transform_code_point 0x800 (((n0 - 224) * 64 + n1) * 64 + n2)
                  (transform_decimal_and_space l3)
            | _, _ => None
            end
        | _ => None
        end
      else if (n0 <? 248)%N then
        match l1 with
        | b1 :: b2 :: b3 :: l4 =>
            match continuation b1, continuation b2, continuation b3 with
            | Some n1, Some n2, Some n3 =>
                transform_code_point 0x10000
                  ((((n0 - 240) * 64 + n1) * 64 + n2) * 64 + n3)
                  (transform_decimal_and_space l4)
            | _, _, _ => None
            end
        | _ => None
        end
      else None
  end.

(** [int(v)] *)
Definition py_int (v : pyval) : result Z :=
  match v with
  | PyNone => Raise TypeError
  | PyInt z => Ok z
  | PyStr s =>
      match transform_decimal_and_space (list_ascii_of_string s) with
      | Some text =>
          match parse_int (string_of_list_ascii text) with
          | Some z => Ok z
          | None => Raise ValueError
          end
      | None => Raise ValueError
      end
  end.

(** ** The quantity rule of [create_stocks]

    The [if count == ">10" ... elif count == "1" ... else ...] block, which is
    the same text in [seller.create_stocks] and [market.create_stocks];
    [q] is [watch.get("Количество")]. *)
Definition stock_of_count (q : pyval) : result Z :=
  let count := py_str q in
  if String.eqb count ">10" then Ok 100%Z
  else if String.eqb count "1" then Ok 0%Z
  else py_int q.

(** ** [price_conversion] *)

(** [s.split(sep)] for a separator of one character *)
Fixpoint py_split (sep : ascii) (s : string) : list string :=
  match s with
  | EmptyString => [EmptyString]
  | String c s' =>
      if Ascii.eqb c sep then EmptyString :: py_split sep s'
      else match py_split sep s' with
           | p :: ps => String c p :: ps
           | [] => [String c EmptyString]
           end
  end.

(** [re.sub("[^0-9]", "", s)] *)
Fixpoint re_sub_non_digit (s : string) : string :=
  match s with
  | EmptyString => EmptyString
  | String c s' =>
      if is_digit c then String c (re_sub_non_digit s') else re_sub_non_digit s'
  end.

(** [price_conversion(price)]; [price.split] exists on strings only. *)
Definition price_conversion (price : pyval) : result string :=
  match price with
  | PyStr s =>
      match py_split "." s !! 0%nat with
      | Some p => Ok (re_sub_non_digit p)
      | None => Raise IndexError
      end
  | _ => Raise AttributeError
  end.

(** The price rule in the words of the specification: the prefix before the
    first decimal point, with every non-digit removed. *)
Fixpoint prefix_before_point (s : string) : string :=
  match s with
  | EmptyString => EmptyString
  | String c s' =>
      if Ascii.eqb c "." then EmptyString else String c (prefix_before_point s')
  end.

Fixpoint keep_digits (l : list ascii) : list ascii :=
  match l with
  | [] => []
  | c :: l' => if is_digit c then c :: keep_digits l' else keep_digits l'
  end.

Definition spec_normalize_price (s : string) : string :=
  string_of_list_ascii (keep_digits (list_ascii_of_string (prefix_before_point s))).

(** ** [divide] *)

(** [range(start, stop, step)], a zero step raises. *)
Fixpoint range_up (fuel : nat) (i stop step : Z) : list Z :=
  match fuel with
  | O => []
  | S fuel' =>
      if (i <? stop)%Z then i :: range_up fuel' (i + step) stop step else []
  end.

Fixpoint range_down (fuel : nat) (i stop step : Z) : list Z :=
  match fuel with
  | O => []
  | S fuel' =>
      if (stop <? i)%Z then i :: range_down fuel' (i + step) stop step else []
  end.

Definition py_range (start stop step : Z) : result (list Z) :=
  if (step =? 0)%Z then Raise ValueError
  else if (0 <? step)%Z then Ok (range_up (Z.to_nat (stop - start)) start stop step)
  else Ok (range_down (Z.to_nat (start - stop)) start stop step).

(** [lst[lo:hi]]: negative bounds count from the end, all bounds are clipped. *)
Definition slice_bound (len : nat) (i : Z) : nat :=
  if (i <? 0)%Z then Z.to_nat (Z.max 0 (Z.of_nat len + i))
  else Z.to_nat (Z.min i (Z.of_nat len)).

Definition py_slice {A} (lst : list A) (lo hi : Z) : list A :=
  let a := slice_bound (length lst) lo in
  let b := slice_bound (length lst) hi in
  take (b - a) (drop a lst).

(** [list(divide(lst, n))] *)
Definition divide {A} (lst : list A) (n : Z) : result (list (list A)) :=
  match py_range 0 (Z.of_nat (length lst)) n with
  | Ok starts => Ok (map (fun i => py_slice lst i (i + n)) starts)
  | Raise e => Raise e
  end.

(** ** The store, the outside world and the monad of the drivers *)

(** A reference to a Python list of offer ids. *)
Definition ref := positive.

(** A feed record: the columns of a spreadsheet row that the code reads
    (Kod = "Код", Kolichestvo = "Количество", Tsena = "Цена"). *)
Record watch : Set := Watch {
  Kod : pyval;
  Kolichestvo : pyval;
  Tsena : pyval;
}.

(** Ozon payloads and pages *)
Record ozon_stock : Set := OzonStock {
  stock_offer_id : string;
  stock : Z;
}.

Record ozon_price : Set := OzonPrice {
  auto_action_enabled : string;
  currency_code : string;
  price_offer_id : string;
  old_price : string;
  price : string;
}.

Record ozon_product : Set := OzonProduct { product_offer_id : string }.

Record ozon_page : Set := OzonPage {
  page_items : list ozon_product;
  page_total : Z;
  page_last_id : string;
}.

(** Yandex.Market payloads and pages *)
Record market_item : Set := MarketItem {
  count : Z;
  type : string;
  updatedAt : string;
}.

Record market_stock : Set := MarketStock {
  sku : string;
  warehouseId : string;
  stock_items : list market_item;
}.

Record market_price_value : Set := MarketPriceValue {
  value : Z;
  currencyId : string;
}.

Record market_price : Set := MarketPrice {
  id : string;
  price_value : market_price_value;
}.

Record market_entry : Set := MarketEntry { shopSku : string }.

Record market_page : Set := MarketPage {
  offerMappingEntries : list market_entry;
  nextPageToken : option string;
}.

(** What a run does to the outside world, in order. *)
Inductive event : Set :=
  | EvDownloadStock
  | EvOzonProductList (last_id client_id : string)
  | EvOzonUpdateStocks (stocks : list ozon_stock) (client_id : string)
  | EvOzonUpdatePrice (prices : list ozon_price) (client_id : string)
  | EvMarketProductList (page campaign_id : string)
  | EvMarketUpdateStocks (stocks : list market_stock) (campaign_id : string)
  | EvMarketUpdatePrice (prices : list market_price) (campaign_id : string)
  | EvPrint (error : option exn) (text : string).

(** The collaborators: the environment, the clock, the feed site and the two
    marketplaces.  Each request is answered with a value or an exception and
    may change the world. *)
Class World (W : Type) : Type := {
  env_lookup : string -> W -> result string;
  clock_utcnow : W -> string;
  feed_reply : W -> result (list watch) * W;
  ozon_list_reply : string -> string -> string -> W -> result ozon_page * W;
  ozon_stocks_reply : list ozon_stock -> string -> string -> W -> result unit * W;
  ozon_price_reply : list ozon_price -> string -> string -> W -> result unit * W;
  market_list_reply : string -> string -> string -> W -> result market_page * W;
  market_stocks_reply : list market_stock -> string -> string -> W -> result unit * W;
  market_price_reply : list market_price -> string -> string -> W -> result unit * W;
}.

Record state (W : Type) : Type := State {
  store : gmap ref (list string);
  world : W;
  log : list event;
}.
Arguments State {W} _ _ _.
Arguments store {W} _.
Arguments world {W} _.
Arguments log {W} _.

(** A computation returns a value, raises, or is still running when the fuel
    of a [while True] loop is used up ([None]). *)
Definition M (W A : Type) : Type := state W -> option (result A) * state W.

Definition ret {W A} (a : A) : M W A := fun s => (Some (Ok a), s).

Definition bind {W A B} (m : M W A) (f : A -> M W B) : M W B :=
  fun s =>
    match m s with
    | (Some (Ok a), s') => f a s'
    | (Some (Raise e), s') => (Some (Raise e), s')
    | (None, s') => (None, s')
    end.

Notation "x <- m ;; k" := (bind m (fun x => k))
  (at level 100, m at next level, right associativity, only parsing).
Notation "m ;;; k" := (bind m (fun _ => k))
  (at level 100, right associativity, only parsing).

Definition raise {W A} (e : exn) : M W A := fun s => (Some (Raise e), s).

Definition out_of_fuel {W A} : M W A := fun s => (None, s).

Definition lift {W A} (r : result A) : M W A :=
  match r with
  | Ok a => ret a
  | Raise e => raise e
  end.

(** [try: body except ...: handler] *)
Definition try_except {W A} (body : M W A) (handler : exn -> M W A) : M W A :=
  fun s =>
    match body s with
    | (Some (Raise e), s') => handler e s'
    | r => r
    end.

(** [for x in l: acc = body(acc, x)] *)
Fixpoint for_fold {W A B} (l : list A) (acc : B) (body : B -> A -> M W B) : M W B :=
  match l with
  | [] => ret acc
  | x :: l' => acc' <- body acc x ;; for_fold l' acc' body
  end.

Definition for_each {W A} (l : list A) (body : A -> M W unit) : M W unit :=
  for_fold l tt (fun _ x => body x).

(** The store: a new list, reading a list, [x in l], [l.remove(x)]. *)
Definition alloc {W} (l : list string) : M W ref :=
  fun s =>
    let r := fresh (dom (store s)) in
    (Some (Ok r), State (<[r := l]> (store s)) (world s) (log s)).

(* A reference that is not in the store cannot be built by the drivers. *)
Definition read {W} (r : ref) : M W (list string) :=
  fun s =>
    match store s !! r with
    | Some l => (Some (Ok l), s)
    | None => (Some (Raise AttributeError), s)
    end.

(** [l.remove(x)] takes out the first [x]; [None] when there is none. *)
Fixpoint remove_first (x : string) (l : list string) : option (list string) :=
  match l with
  | [] => None
  | y :: l' =>
      if decide (x = y) then Some l' else (y ::.) <$> remove_first x l'
  end.

Definition py_list_remove {W} (r : ref) (x : string) : M W unit :=
  fun s =>
    match store s !! r with
    | Some l =>
        match remove_first x l with
        | Some l' => (Some (Ok tt), State (<[r := l']> (store s)) (world s) (log s))
        | None => (Some (Raise ValueError), s)
        end
    | None => (Some (Raise AttributeError), s)
    end.

Definition emit {W} (ev : event) : M W unit :=
  fun s => (Some (Ok tt), State (store s) (world s) (log s ++ [ev])).

(** A request to a collaborator: logged, then answered by the world. *)
Definition request {W A} (ev : event) (reply : W -> result A * W) : M W A :=
  fun s =>
    let '(r, w') := reply (world s) in
    (Some r, State (store s) w' (log s ++ [ev])).

Definition print {W} (error : option exn) (text : string) : M W unit :=
  emit (EvPrint error text).

(** [env.str(name)] *)
Definition env_str {W} `{World W} (name : string) : M W string :=
  fun s => (Some (env_lookup name (world s)), s).

Definition utcnow {W} `{World W} : M W string :=
  fun s => (Some (Ok (clock_utcnow (world s))), s).

(** An [async def] builds a coroutine when it is called; its body runs only
    when the coroutine is awaited. *)
Inductive coroutine (W A : Type) : Type :=
  | Coroutine (body : M W A).
Arguments Coroutine {W A} body.

Definition await {W A} (c : coroutine W A) : M W A :=
  match c with Coroutine body => body end.

(** The handler of both drivers: the three [except] clauses of [main]. *)
Definition report {W} (error : exn) : M W unit :=
  match error with
  | ReadTimeout => print None "Превышено время ожидания..."
  | ConnectionError => print (Some error) "Ошибка соединения"
  | _ => print (Some error) "ERROR_2"
  end.

(** ** seller.py *)

Module Seller.
Section Seller.
Context {W : Type} `{World W}.

(** [get_product_list], [update_price], [update_stocks] and [download_stock]
    are the boundary of the model: the HTTP exchange, [raise_for_status] and
    the decoding of the answer are one request, answered by the world with
    the decoded value or with the exception raised on the way. *)
Definition get_product_list (last_id client_id seller_token : string)
  : M W ozon_page :=
  request (EvOzonProductList last_id client_id)
          (ozon_list_reply last_id client_id seller_token).

(** The [while True] loop of [get_offer_ids]: one page per turn, until the
    total announced by the page is the number of products read so far. *)
Fixpoint get_offer_ids_loop (fuel : nat) (last_id : string)
    (product_list : list ozon_product) (client_id seller_token : string)
  : M W (list ozon_product) :=
  match fuel with
  | O => out_of_fuel
  | S fuel' =>
      some_prod <- get_product_list last_id client_id seller_token ;;
      let product_list := product_list ++ page_items some_prod in
      let total := page_total some_prod in
      let last_id := page_last_id some_prod in
      if (total =? Z.of_nat (length product_list))%Z
      then ret product_list
      else get_offer_ids_loop fuel' last_id product_list
             client_id seller_token
  end.

Definition get_offer_ids (fuel : nat) (client_id seller_token : string)
  : M W ref :=
  product_list <- get_offer_ids_loop fuel "" [] client_id seller_token ;;
  alloc (map product_offer_id product_list).

Definition update_price (prices : list ozon_price)
    (client_id seller_token : string) : M W unit :=
  request (EvOzonUpdatePrice prices client_id)
          (ozon_price_reply prices client_id seller_token).

Definition update_stocks (stocks : list ozon_stock)
    (client_id seller_token : string) : M W unit :=
  request (EvOzonUpdateStocks stocks client_id)
          (ozon_stocks_reply stocks client_id seller_token).

Definition download_stock : M W (list watch) :=
  request EvDownloadStock feed_reply.

(** [create_stocks]: the first loop reads and shrinks the caller's list, the
    second appends a zero entry for every id still in it. *)
Definition create_stocks (watch_remnants : list watch) (offer_ids : ref)
  : M W (list ozon_stock) :=
  stocks <- for_fold watch_remnants [] (fun stocks watch =>
    ids <- read offer_ids ;;
    if bool_decide (py_str (Kod watch) ∈ ids) then
      stock <- lift (stock_of_count (Kolichestvo watch)) ;;
      let stocks := stocks ++ [OzonStock (py_str (Kod watch)) stock] in
      py_list_remove offer_ids (py_str (Kod watch)) ;;;
      ret stocks
    else ret stocks) ;;
  ids <- read offer_ids ;;
  for_fold ids stocks (fun stocks offer_id =>
    ret (stocks ++ [OzonStock offer_id 0])).

Definition create_prices (watch_remnants : list watch) (offer_ids : ref)
  : M W (list ozon_price) :=
  for_fold watch_remnants [] (fun prices watch =>
    ids <- read offer_ids ;;
    if bool_decide (py_str (Kod watch) ∈ ids) then
      converted <- lift (price_conversion (Tsena watch)) ;;
      let price :=
        {| auto_action_enabled := "UNKNOWN";
           currency_code := "RUB";
           price_offer_id := py_str (Kod watch);
           old_price := "0";
           price := converted |} in
      ret (prices ++ [price])
    else ret prices).

(** [upload_prices] and [upload_stocks] are [async def]s. *)
Definition upload_prices (fuel : nat) (watch_remnants : list watch)
    (client_id seller_token : string) : coroutine W (list ozon_price) :=
  Coroutine (
    offer_ids <- get_offer_ids fuel client_id seller_token ;;
    prices <- create_prices watch_remnants offer_ids ;;
    chunks <- lift (divide prices 1000) ;;
    for_each chunks (fun some_price =>
      update_price some_price client_id seller_token) ;;;
    ret prices).

Definition upload_stocks (fuel : nat) (watch_remnants : list watch)
    (client_id seller_token : string)
  : coroutine W (list ozon_stock * list ozon_stock) :=
  Coroutine (
    offer_ids <- get_offer_ids fuel client_id seller_token ;;
    stocks <- create_stocks watch_remnants offer_ids ;;
    chunks <- lift (divide stocks 100) ;;
    for_each chunks (fun some_stock =>
      update_stocks some_stock client_id seller_token) ;;;
    let not_empty := filter (fun s => stock s ≠ 0%Z) stocks in
    ret (not_empty, stocks)).

(** [main]: the environment is read before the [try]; [fuel] bounds the
    turns of the listing loop. *)
Definition main (fuel : nat) : M W unit :=
  seller_token <- env_str "SELLER_TOKEN" ;;
  client_id <- env_str "CLIENT_ID" ;;
  try_except
    (offer_ids <- get_offer_ids fuel client_id seller_token ;;
     watch_remnants <- download_stock ;;
     stocks <- create_stocks watch_remnants offer_ids ;;
     chunks <- lift (divide stocks 100) ;;
     for_each chunks (fun some_stock =>
       update_stocks some_stock client_id seller_token) ;;;
     prices <- create_prices watch_remnants offer_ids ;;
     chunks <- lift (divide prices 900) ;;
     for_each chunks (fun some_price =>
       update_price some_price client_id seller_token))
    report.
End Seller.
End Seller.

(** ** market.py

    [download_stock], [divide] and [price_conversion] are imported from
    [seller]. *)

Module Market.
Section Market.
Context {W : Type} `{World W}.

Definition get_product_list (page campaign_id access_token : string)
  : M W market_page :=
  request (EvMarketProductList page campaign_id)
          (market_list_reply page campaign_id access_token).

Definition update_stocks (stocks : list market_stock)
    (campaign_id access_token : string) : M W unit :=
  request (EvMarketUpdateStocks stocks campaign_id)
          (market_stocks_reply stocks campaign_id access_token).

Definition update_price (prices : list market_price)
    (campaign_id access_token : string) : M W unit :=
  request (EvMarketUpdatePrice prices campaign_id)
          (market_price_reply prices campaign_id access_token).

(** The [while True] loop of [get_offer_ids]: one page per turn, until a
    page comes without a next-page token ([if not page: break]). *)
Fixpoint get_offer_ids_loop (fuel : nat) (page : string)
    (product_list : list market_entry) (campaign_id market_token : string)
  : M W (list market_entry) :=
  match fuel with
  | O => out_of_fuel
  | S fuel' =>
      some_prod <- get_product_list page campaign_id market_token ;;
      let product_list := product_list ++ offerMappingEntries some_prod in
      match nextPageToken some_prod with
      | None => ret product_list
      | Some page =>
          if String.eqb page "" then ret product_list
          else get_offer_ids_loop fuel' page product_list
                 campaign_id market_token
      end
  end.

Definition get_offer_ids (fuel : nat) (campaign_id market_token : string)
  : M W ref :=
  product_list <- get_offer_ids_loop fuel "" [] campaign_id market_token ;;
  alloc (map shopSku product_list).

Definition create_stocks (watch_remnants : list watch) (offer_ids : ref)
    (warehouse_id : string) : M W (list market_stock) :=
  date <- utcnow ;;
  stocks <- for_fold watch_remnants [] (fun stocks watch =>
    ids <- read offer_ids ;;
    if bool_decide (py_str (Kod watch) ∈ ids) then
      stock <- lift (stock_of_count (Kolichestvo watch)) ;;
      let stocks :=
        stocks ++ [{| sku := py_str (Kod watch);
                      warehouseId := warehouse_id;
                      stock_items := [MarketItem stock "FIT" date] |}] in
      py_list_remove offer_ids (py_str (Kod watch)) ;;;
      ret stocks
    else ret stocks) ;;
  ids <- read offer_ids ;;
  for_fold ids stocks (fun stocks offer_id =>
    ret (stocks ++ [{| sku := offer_id;
                       warehouseId := warehouse_id;
                       stock_items := [MarketItem 0 "FIT" date] |}])).

Definition create_prices (watch_remnants : list watch) (offer_ids : ref)
  : M W (list market_price) :=
  for_fold watch_remnants [] (fun prices watch =>
    ids <- read offer_ids ;;
    if bool_decide (py_str (Kod watch) ∈ ids) then
      converted <- lift (price_conversion (Tsena watch)) ;;
      value <- lift (py_int (PyStr converted)) ;;
      let price :=
        {| id := py_str (Kod watch);
           price_value := MarketPriceValue value "RUR" |} in
      ret (prices ++ [price])
    else ret prices).

Definition upload_prices (fuel : nat) (watch_remnants : list watch)
    (campaign_id market_token : string) : coroutine W (list market_price) :=
  Coroutine (
    offer_ids <- get_offer_ids fuel campaign_id market_token ;;
    prices <- create_prices watch_remnants offer_ids ;;
    chunks <- lift (divide prices 500) ;;
    for_each chunks (fun some_prices =>
      update_price some_prices campaign_id market_token) ;;;
    ret prices).

Definition upload_stocks (fuel : nat) (watch_remnants : list watch)
    (campaign_id market_token warehouse_id : string)
  : coroutine W (list market_stock * list market_stock) :=
  Coroutine (
    offer_ids <- get_offer_ids fuel campaign_id market_token ;;
    stocks <- create_stocks watch_remnants offer_ids warehouse_id ;;
    chunks <- lift (divide stocks 2000) ;;
    for_each chunks (fun some_stock =>
      update_stocks some_stock campaign_id market_token) ;;;
    (* stock.get("items")[0].get("count") *)
    not_empty <- for_fold stocks [] (fun kept stock =>
      match stock_items stock !! 0%nat with
      | Some item =>
          ret (if bool_decide (count item ≠ 0%Z) then kept ++ [stock] else kept)
      | None => raise IndexError
      end) ;;
    ret (not_empty, stocks)).

(** [main]: the environment is read and the feed is downloaded before the
    [try]; [upload_prices(...)] is called and not awaited. *)
Definition main (fuel : nat) : M W unit :=
  market_token <- env_str "MARKET_TOKEN" ;;
  campaign_fbs_id <- env_str "FBS_ID" ;;
  campaign_dbs_id <- env_str "DBS_ID" ;;
  warehouse_fbs_id <- env_str "WAREHOUSE_FBS_ID" ;;
  warehouse_dbs_id <- env_str "WAREHOUSE_DBS_ID" ;;
  watch_remnants <- Seller.download_stock ;;
  try_except
    ((* FBS *)
     offer_ids <- get_offer_ids fuel campaign_fbs_id market_token ;;
     stocks <- create_stocks watch_remnants offer_ids warehouse_fbs_id ;;
     chunks <- lift (divide stocks 2000) ;;
     for_each chunks (fun some_stock =>
       update_stocks some_stock campaign_fbs_id market_token) ;;;
     (* the coroutine is built and dropped *)
     _ <- ret (upload_prices fuel watch_remnants campaign_fbs_id market_token) ;;
     (* DBS *)
     offer_ids <- get_offer_ids fuel campaign_dbs_id market_token ;;
     stocks <- create_stocks watch_remnants offer_ids warehouse_dbs_id ;;
     chunks <- lift (divide stocks 2000) ;;
     for_each chunks (fun some_stock =>
       update_stocks some_stock campaign_dbs_id market_token) ;;;
     _ <- ret (upload_prices fuel watch_remnants campaign_dbs_id market_token) ;;
     ret tt)
    report.
End Market.
End Market.

(** ** Scripted worlds

    A world that answers from a script: the environment is a table, the feed
    and the answer to every submission are fixed, and the listing requests
    are answered page by page (a connection error once the pages are used
    up). *)

Record script : Type := Script {
  env_vars : list (string * string);
  now : string;
  feed : result (list watch);
  ozon_pages : list (result ozon_page);
  market_pages : list (result market_page);
  submit_reply : result unit;
}.

Definition script_env (name : string) (w : script) : result string :=
  match list_find (fun kv => kv.1 = name) (env_vars w) with
  | Some (_, (_, v)) => Ok v
  | None => Raise EnvError
  end.

Definition script_ozon_list (w : script) : result ozon_page * script :=
  match ozon_pages w with
  | p :: ps =>
      (p, Script (env_vars w) (now w) (feed w) ps (market_pages w) (submit_reply w))
  | [] => (Raise ConnectionError, w)
  end.

Definition script_market_list (w : script) : result market_page * script :=
  match market_pages w with
  | p :: ps =>
      (p, Script (env_vars w) (now w) (feed w) (ozon_pages w) ps (submit_reply w))
  | [] => (Raise ConnectionError, w)
  end.

Global Instance script_world : World script := {|
  env_lookup := script_env;
  clock_utcnow := now;
  feed_reply := fun w => (feed w, w);
  ozon_list_reply := fun _ _ _ => script_ozon_list;
  ozon_stocks_reply := fun _ _ _ w => (submit_reply w, w);
  ozon_price_reply := fun _ _ _ w => (submit_reply w, w);
  market_list_reply := fun _ _ _ => script_market_list;
  market_stocks_reply := fun _ _ _ w => (submit_reply w, w);
  market_price_reply := fun _ _ _ w => (submit_reply w, w);
|}.

Definition initial (w : script) : state script := State ∅ w [].

(** The scenario of the specification: the marketplace knows "001" and "002",
    the feed has one row for "001". *)
Definition scenario_feed : list watch :=
  [Watch (PyStr "001") (PyStr "10") (PyStr "5'990.00 руб.")].

Definition scenario : script := {|
  env_vars := [("SELLER_TOKEN", "t"); ("CLIENT_ID", "c"); ("MARKET_TOKEN", "m");
               ("FBS_ID", "fbs"); ("DBS_ID", "dbs");
               ("WAREHOUSE_FBS_ID", "wf"); ("WAREHOUSE_DBS_ID", "wd")];
  now := "2020-10-10T10:00:00Z";
  feed := Ok scenario_feed;
  ozon_pages := [Ok (OzonPage [OzonProduct "001"; OzonProduct "002"] 2 "x")];
  market_pages :=
    [Ok (MarketPage [MarketEntry "001"; MarketEntry "002"] None);
     Ok (MarketPage [MarketEntry "001"; MarketEntry "002"] None)];
  submit_reply := Ok tt;
|}.

(** The scenario with the feed site unreachable. *)
Definition feed_down : script := {|
  env_vars := env_vars scenario;
  now := now scenario;
  feed := Raise ConnectionError;
  ozon_pages := ozon_pages scenario;
  market_pages := market_pages scenario;
  submit_reply := Ok tt;
|}.

(** The scenario with no variable set in the environment. *)
Definition unconfigured : script := {|
  env_vars := [];
  now := now scenario;
  feed := feed scenario;
  ozon_pages := ozon_pages scenario;
  market_pages := market_pages scenario;
  submit_reply := Ok tt;
|}.




(** ** Numerals, for the statements about [int]

    What [int] accepts of ASCII text, written as a grammar: blanks, an
    optional sign, then digits in which single underscores may stand between
    two digits, then blanks.  The value of such a numeral is that of its
    digits, read by the standard library's decimal reader. *)

Inductive numeral : list ascii -> Prop :=
  | numeral_digit d : is_digit d = true -> numeral [d]
  | numeral_more d l : is_digit d = true -> numeral l -> numeral (d :: l)
  | numeral_underscore d l :
      is_digit d = true -> numeral l -> numeral (d :: "_"%char :: l).

Definition int_literal_parts (s : string) (pre sign body post : list ascii) : Prop :=
  list_ascii_of_string s = pre ++ sign ++ body ++ post ∧
  Forall (fun c => is_space c = true) pre ∧
  Forall (fun c => is_space c = true) post ∧
  (sign = [] ∨ sign = ["+"%char] ∨ sign = ["-"%char]) ∧
  numeral body.


(** A text of ASCII characters only. *)
Definition is_ascii (s : string) : Prop :=
  Forall (fun c => (N_of_ascii c < 128)%N) (list_ascii_of_string s).

Definition drop_underscores (l : list ascii) : list ascii :=
  filter (fun c => c ≠ "_"%char) l.

Definition literal_value (sign body : list ascii) : option Z :=
  match NilEmpty.uint_of_string (string_of_list_ascii (drop_underscores body)) with
  | Some d => Some (if decide (sign = ["-"%char]) then - Z.of_uint d else Z.of_uint d)%Z
  | None => None
  end.

(** The value of a decimal numeral read from the left, starting from [acc]. *)
Fixpoint uint_value (acc : Z) (d : uint) : Z :=
  match d with
  | Nil => acc
  | D0 d => uint_value (10 * acc + 0) d
  | D1 d => uint_value (10 * acc + 1) d
  | D2 d => uint_value (10 * acc + 2) d
  | D3 d => uint_value (10 * acc + 3) d
  | D4 d => uint_value (10 * acc + 4) d
  | D5 d => uint_value (10 * acc + 5) d
  | D6 d => uint_value (10 * acc + 6) d
  | D7 d => uint_value (10 * acc + 7) d
  | D8 d => uint_value (10 * acc + 8) d
  | D9 d => uint_value (10 * acc + 9) d
  end.

Definition uint_chars (d : uint) : list ascii :=
  list_ascii_of_string (NilEmpty.string_of_uint d).

(** ** Chunks, for the statements about batches

    [chunked n cs]: no chunk of [cs] is longer than [n], and every chunk but
    the last has exactly [n] elements. *)
Definition chunked {A} (n : Z) (cs : list (list A)) : Prop :=
  ∀ (j : nat) (c : list A), cs !! j = Some c →
    (Z.of_nat (length c) ≤ n)%Z ∧
    (S j < length cs → Z.of_nat (length c) = n).

(** ** Reconciliation, for the statements about payloads

    The code of a feed record, and the two loops of [create_stocks] seen from
    outside: the records that find their code in the list of offer ids (each
    takes one occurrence of its code out of the list), and what is left of
    the list. *)

Definition code (w : watch) : string := py_str (Kod w).

Fixpoint matched (R : list watch) (ids : list string) : list watch :=
  match R with
  | [] => []
  | w :: R' =>
      match remove_first (code w) ids with
      | Some ids' => w :: matched R' ids'
      | None => matched R' ids
      end
  end.

Fixpoint leftover (R : list watch) (ids : list string) : list string :=
  match R with
  | [] => ids
  | w :: R' =>
      match remove_first (code w) ids with
      | Some ids' => leftover R' ids'
      | None => leftover R' ids
      end
  end.

(** The payload items of a list of records, up to the first one that raises. *)
Fixpoint collect {E} (item : watch -> result E) (ws : list watch) : result (list E) :=
  match ws with
  | [] => Ok []
  | w :: ws' =>
      match item w with
      | Ok e =>
          match collect item ws' with
          | Ok es => Ok (e :: es)
          | Raise x => Raise x
          end
      | Raise x => Raise x
      end
  end.

Definition result_map {A B} (f : A -> B) (r : result A) : result B :=
  match r with
  | Ok a => Ok (f a)
  | Raise e => Raise e
  end.

Definition ozon_stock_item (w : watch) : result ozon_stock :=
  result_map (OzonStock (code w)) (stock_of_count (Kolichestvo w)).

Definition market_stock_entry (warehouse_id date offer_id : string) (q : Z)
  : market_stock :=
  MarketStock offer_id warehouse_id [MarketItem q "FIT" date].

Definition market_stock_item (warehouse_id date : string) (w : watch)
  : result market_stock :=
  result_map (market_stock_entry warehouse_id date (code w))
             (stock_of_count (Kolichestvo w)).

Definition ozon_price_item (w : watch) : result ozon_price :=
  result_map (OzonPrice "UNKNOWN" "RUB" (code w) "0") (price_conversion (Tsena w)).

Definition market_price_item (w : watch) : result market_price :=
  match price_conversion (Tsena w) with
  | Ok converted =>
      result_map (fun v => MarketPrice (code w) (MarketPriceValue v "RUR"))
                 (py_int (PyStr converted))
  | Raise e => Raise e
  end.

(** The state with the list at [r] replaced. *)
Definition set_store {W} (r : ref) (ids : list string) (s : state W) : state W :=
  State (<[r := ids]> (store s)) (world s) (log s).

(** The two loops over the feed, for any payload item: the loop of
    [create_stocks] takes the code out of the list, the loop of
    [create_prices] only looks it up. *)
Definition stock_loop {W E} (item : watch -> result E) (offer_ids : ref)
    (R : list watch) (acc : list E) : M W (list E) :=
  for_fold R acc (fun stocks watch =>
    ids <- read offer_ids ;;
    if bool_decide (code watch ∈ ids) then
      e <- lift (item watch) ;;
      py_list_remove offer_ids (code watch) ;;;
      ret (stocks ++ [e])
    else ret stocks).

Definition price_loop {W E} (item : watch -> result E) (offer_ids : ref)
    (R : list watch) (acc : list E) : M W (list E) :=
  for_fold R acc (fun prices watch =>
    ids <- read offer_ids ;;
    if bool_decide (code watch ∈ ids) then
      e <- lift (item watch) ;;
      ret (prices ++ [e])
    else ret prices).

(** A stock payload [stocks] reconciles the offer ids [ids] with the feed [R]:
    as many entries as ids, the ids of the entries are those of [ids] (each
    as often as in [ids], so once when [ids] has no duplicates), every entry
    is built by [entry], a record whose code is among the ids has an entry
    with its quantity, and an id without a record has an entry with 0. *)
Definition reconciled {E} (id_of : E -> string) (entry : string -> Z -> E)
    (R : list watch) (ids : list string) (stocks : list E) : Prop :=
  length stocks = length ids ∧
  id_of <$> stocks ≡ₚ ids ∧
  NoDup (id_of <$> stocks) ∧
  (∀ e, e ∈ stocks → ∃ x q, e = entry x q) ∧
  (∀ w, w ∈ R → code w ∈ ids →
     ∃ q, stock_of_count (Kolichestvo w) = Ok q ∧ entry (code w) q ∈ stocks) ∧
  (∀ x, x ∈ ids → x ∉ code <$> R → entry x 0%Z ∈ stocks).

(** ** Runs, for the statements about the drivers

    The events a computation adds to the log when run from [s], and the
    batches submitted among some events, by endpoint. *)
Definition events_of {W A} (m : M W A) (s : state W) : list event :=
  drop (length (log s)) (log (m s).2).

Definition ozon_stock_batches (evs : list event) : list (list ozon_stock) :=
  omap (fun ev => match ev with EvOzonUpdateStocks b _ => Some b | _ => None end) evs.

Definition ozon_price_batches (evs : list event) : list (list ozon_price) :=
  omap (fun ev => match ev with EvOzonUpdatePrice b _ => Some b | _ => None end) evs.

Definition market_stock_batches (evs : list event) : list (list market_stock) :=
  omap (fun ev => match ev with EvMarketUpdateStocks b _ => Some b | _ => None end) evs.

Definition market_price_batches (evs : list event) : list (list market_price) :=
  omap (fun ev => match ev with EvMarketUpdatePrice b _ => Some b | _ => None end) evs.

(** [emits m Φ]: from any state, [m] only appends to the log, and what it
    appends satisfies [Φ], however the run ends. *)
Definition emits {W A} (m : M W A) (Φ : list event -> Prop) : Prop :=
  ∀ s, ∃ evs, log (m s).2 = log s ++ evs ∧ Φ evs.

(** Properties of event lists that the empty list has and that
    concatenation keeps. *)
Class Closed (Φ : list event -> Prop) : Prop := {
  closed_nil : Φ [];
  closed_app e1 e2 : Φ e1 -> Φ e2 -> Φ (e1 ++ e2);
}.

(** No batch is submitted among the events. *)
Definition unbatched (evs : list event) : Prop :=
  ozon_stock_batches evs = [] ∧ ozon_price_batches evs = [] ∧
  market_stock_batches evs = [] ∧ market_price_batches evs = [].

(** A property of event lists that only looks at the batches. *)
Class Batchwise (Φ : list event -> Prop) : Prop :=
  batchwise e e' :
    ozon_stock_batches e = ozon_stock_batches e' ->
    ozon_price_batches e = ozon_price_batches e' ->
    market_stock_batches e = market_stock_batches e' ->
    market_price_batches e = market_price_batches e' ->
    Φ e -> Φ e'.

(** [triple P m Q Φ]: from a state with [P], the computation [m] appends
    events with [Φ] to the log, however it ends, and when it returns [a] the
    state has [Q a]. *)
Definition triple {W A} (P : state W -> Prop) (m : M W A)
    (Q : A -> state W -> Prop) (Φ : list event -> Prop) : Prop :=
  ∀ s, P s →
    ∃ evs, log (m s).2 = log s ++ evs ∧ Φ evs ∧
           ∀ a, (m s).1 = Some (Ok a) → Q a (m s).2.

(** One submission of stocks to a campaign of Yandex.Market, as it shows in
    the log: the listing requests of the campaign, then its stock batches,
    which are chunks of [n]; there is no batch without a listing request
    before it. *)
Definition market_series (n : Z) (campaign : string) (evs : list event) : Prop :=
  ∃ listing batches,
    evs = listing ++ ((fun b => EvMarketUpdateStocks b campaign) <$> batches) ∧
    Forall (fun ev => ∃ page, ev = EvMarketProductList page campaign) listing ∧
    (batches ≠ [] → listing ≠ []) ∧
    chunked n batches.

(** ** Listings, for the statements about [get_offer_ids]

    [ozon_listing a t cursor count w ps w']: asked for the page at [cursor],
    then at the [last_id] of each page, the marketplace answers from the
    world [w] with the pages [ps] and ends in [w']; [count] products were
    read before, and the last page of [ps] is the first whose total is the
    number of products read so far. *)
Inductive ozon_listing {W} `{World W} (client_id seller_token : string)
  : string -> nat -> W -> list ozon_page -> W -> Prop :=
  | ozon_listing_last cursor count w p w' :
      ozon_list_reply cursor client_id seller_token w = (Ok p, w') ->
      page_total p = Z.of_nat (count + length (page_items p)) ->
      ozon_listing client_id seller_token cursor count w [p] w'
  | ozon_listing_next cursor count w p w' ps w'' :
      ozon_list_reply cursor client_id seller_token w = (Ok p, w') ->
      page_total p ≠ Z.of_nat (count + length (page_items p)) ->
      ozon_listing client_id seller_token (page_last_id p)
                   (count + length (page_items p)) w' ps w'' ->
      ozon_listing client_id seller_token cursor count w (p :: ps) w''.

(** [market_listing c t cursor w ps w']: asked for the page at [cursor], then
    at the token of each page, the marketplace answers with the pages [ps];
    the last page of [ps] is the first without a token (none, or the empty
    string). *)
Inductive market_listing {W} `{World W} (campaign_id market_token : string)
  : string -> W -> list market_page -> W -> Prop :=
  | market_listing_last cursor w p w' :
      market_list_reply cursor campaign_id market_token w = (Ok p, w') ->
      nextPageToken p = None ∨ nextPageToken p = Some "" ->
      market_listing campaign_id market_token cursor w [p] w'
  | market_listing_next cursor w p w' next ps w'' :
      market_list_reply cursor campaign_id market_token w = (Ok p, w') ->
      nextPageToken p = Some next -> next ≠ "" ->
      market_listing campaign_id market_token next w' ps w'' ->
      market_listing campaign_id market_token cursor w (p :: ps) w''.

(** The cursors of the requests that fetch the pages [ps], from [cursor] on. *)
Definition ozon_cursors (cursor : string) (ps : list ozon_page) : list string :=
  take (length ps) (cursor :: (page_last_id <$> ps)).

Definition market_cursors (cursor : string) (ps : list market_page) : list string :=
  take (length ps) (cursor :: ((fun p => default "" (nextPageToken p)) <$> ps)).

(** A marketplace that never finishes a listing: every Ozon page holds two
    products and announces a total of one, every Yandex.Market page comes
    with a token. *)
Definition endless : World unit := {|
  env_lookup := fun _ _ => Ok "";
  clock_utcnow := fun _ => "";
  feed_reply := fun w => (Ok [], w);
  ozon_list_reply := fun _ _ _ w =>
    (Ok (OzonPage [OzonProduct "a"; OzonProduct "b"] 1 "b"), w);
  ozon_stocks_reply := fun _ _ _ w => (Ok tt, w);
  ozon_price_reply := fun _ _ _ w => (Ok tt, w);
  market_list_reply := fun _ _ _ w => (Ok (MarketPage [MarketEntry "a"] (Some "more")), w);
  market_stocks_reply := fun _ _ _ w => (Ok tt, w);
  market_price_reply := fun _ _ _ w => (Ok tt, w);
|}.

(** A shop of three offers listed in two pages, by either marketplace. *)
Definition two_pages : script := {|
  env_vars := env_vars scenario;
  now := now scenario;
  feed := feed scenario;
  ozon_pages :=
    [Ok (OzonPage [OzonProduct "001"; OzonProduct "002"] 3 "002");
     Ok (OzonPage [OzonProduct "003"] 3 "003")];
  market_pages :=
    [Ok (MarketPage [MarketEntry "001"; MarketEntry "002"] (Some "p2"));
     Ok (MarketPage [MarketEntry "003"] (Some ""))];
  submit_reply := Ok tt;
|}.

(** ** Phases, for the statements about the order of the events

    [phases Ps evs]: the events come in consecutive parts, one for each
    property of [Ps], in that order, each part having its property. *)
Definition phases (Ps : list (list event -> Prop)) (evs : list event) : Prop :=
  ∃ parts, evs = concat parts ∧
           Forall2 (fun (P : list event -> Prop) part => P part) Ps parts.

(** * Properties *)

(** ** The examples of the docstrings and of the specification *)

Example divide_docstring :
  divide [1; 2; 3; 4; 5]%Z 2 = Ok [[1; 2]; [3; 4]; [5]]%Z.
Proof. reflexivity. Qed.

Example divide_zero_step (l : list Z) : divide l 0 = Raise ValueError.
Proof. reflexivity. Qed.

Example stock_of_count_examples :
  stock_of_count (PyStr "10") = Ok 10%Z ∧
  stock_of_count (PyInt 1) = Ok 0%Z ∧
  stock_of_count (PyInt 12) = Ok 12%Z ∧
  stock_of_count (PyStr " 42 ") = Ok 42%Z ∧
  stock_of_count (PyStr " 1") = Ok 1%Z ∧
  stock_of_count (PyStr "-7") = Ok (-7)%Z ∧
  stock_of_count (PyStr "1__0") = Raise ValueError ∧
  stock_of_count (PyStr ">9") = Raise ValueError ∧
  stock_of_count (PyStr "") = Raise ValueError ∧
  stock_of_count PyNone = Raise TypeError.
Proof. by vm_compute. Qed.

Example create_stocks_docstring :
  (Seller.create_stocks [Watch (PyStr "001") (PyStr "10") PyNone] 1%positive
     (State {[1%positive := ["001"]]} scenario [])).1 =
  Some (Ok [OzonStock "001" 10]).
Proof. by vm_compute. Qed.

Example create_prices_docstring :
  (Seller.create_prices [Watch (PyStr "001") PyNone (PyStr "5'990.00 руб.")]
     1%positive (State {[1%positive := ["001"]]} scenario [])).1 =
  Some (Ok [OzonPrice "UNKNOWN" "RUB" "001" "0" "5990"]).
Proof. by vm_compute. Qed.

Example end_to_end_scenario :
  let s := State {[1%positive := ["001"; "002"]]} scenario [] in
  (Seller.create_stocks scenario_feed 1%positive s).1 =
    Some (Ok [OzonStock "001" 10; OzonStock "002" 0]) ∧
  (Market.create_prices scenario_feed 1%positive s).1 =
    Some (Ok [MarketPrice "001" (MarketPriceValue 5990 "RUR")]).
Proof. by vm_compute. Qed.

(** ** The price rule *)

Lemma py_split_first (s : string) :
  py_split "." s !! 0%nat = Some (prefix_before_point s).
Proof.
  induction s as [|c s IH]; simpl; [done|].
  destruct (Ascii.eqb c "."); [done|].
  destruct (py_split "." s) as [|p ps]; simpl in *; [done|].
  congruence.
Qed.

Lemma re_sub_non_digit_keep (s : string) :
  re_sub_non_digit s =
  string_of_list_ascii (keep_digits (list_ascii_of_string s)).
Proof.
  induction s as [|c s IH]; simpl; [done|].
  destruct (is_digit c); simpl; by rewrite IH.
Qed.

Lemma keep_digits_none (l : list ascii) :
  (∀ c, c ∈ l → is_digit c = false) → keep_digits l = [].
Proof.
  induction l as [|c l IH]; intros Hl; simpl; [done|].
  rewrite Hl by left. apply IH. intros c' Hc'. apply Hl. by right.
Qed.

(** C5: on every string [price_conversion] is the reference algorithm of the
    specification (prefix before the first point, non-digits deleted); the
    two documented examples; and with no digit before the first point it
    returns the empty string, raising nothing. *)
Theorem price_conversion_is_reference :
  (∀ s : string, price_conversion (PyStr s) = Ok (spec_normalize_price s)) ∧
  price_conversion (PyStr "5'990.00 руб.") = Ok "5990" ∧
  price_conversion (PyStr "12,890.50") = Ok "12890" ∧
  (∀ s : string,
     (∀ c, c ∈ list_ascii_of_string (prefix_before_point s) → is_digit c = false) →
     price_conversion (PyStr s) = Ok "").
Proof.
  assert (Href : ∀ s, price_conversion (PyStr s) = Ok (spec_normalize_price s)).
  { intros s. unfold price_conversion, spec_normalize_price.
    by rewrite py_split_first, re_sub_non_digit_keep. }
  split; [exact Href|]. split; [reflexivity|]. split; [reflexivity|].
  intros s Hs. rewrite Href. unfold spec_normalize_price.
  by rewrite (keep_digits_none _ Hs).
Qed.

Lemma price_conversion_is_reference_witness :
  price_conversion (PyStr "руб. 12.50") = Ok "".
Proof.
  apply (proj2 (proj2 (proj2 price_conversion_is_reference))).
  intros c Hc. vm_compute in Hc.
  repeat (apply elem_of_cons in Hc as [->|Hc]; [reflexivity|]).
  by apply elem_of_nil in Hc.
Defined.

(** ** The quantity rule *)

Lemma scan_digits_uint (d : uint) (acc : Z) :
  scan_digits acc (uint_chars d) = Some (uint_value acc d).
Proof.
  revert acc. unfold uint_chars.
  induction d as [|d IH|d IH|d IH|d IH|d IH|d IH|d IH|d IH|d IH|d IH];
    intros acc; [done|simpl; rewrite IH; done..].
Qed.

Lemma uint_value_of_lu (d a : uint) (acc : Z) :
  acc = Z.of_N (Unsigned.of_lu a) →
  uint_value acc d = Z.of_N (Unsigned.of_lu (revapp d a)).
Proof.
  revert a acc.
  induction d as [|d IH|d IH|d IH|d IH|d IH|d IH|d IH|d IH|d IH|d IH];
    intros a acc ->; [done|simpl; apply IH; simpl Unsigned.of_lu; lia..].
Qed.

Lemma uint_value_of_uint (d : uint) : uint_value 0 d = Z.of_uint d.
Proof.
  unfold Z.of_uint. rewrite Unsigned.of_uint_alt.
  by apply uint_value_of_lu.
Qed.

Lemma uint_chars_digits (d : uint) : Forall (fun c => is_digit c = true) (uint_chars d).
Proof.
  unfold uint_chars.
  induction d; simpl; [constructor|constructor; [reflexivity|assumption]..].
Qed.

Lemma parse_unsigned_uint (d : uint) :
  d ≠ Nil → parse_unsigned (uint_chars d) = Some (Z.of_uint d).
Proof.
  intros Hd. rewrite <- uint_value_of_uint.
  pose proof (scan_digits_uint d 0) as Hs.
  destruct d; [done|exact Hs..].
Qed.

Lemma lstrip_id (l : list ascii) :
  (∀ c l', l = c :: l' → is_space c = false) → lstrip l = l.
Proof.
  destruct l as [|c l]; [done|]. intros Hc. simpl.
  by rewrite (Hc c l eq_refl).
Qed.

Lemma strip_no_space (l : list ascii) :
  Forall (fun c => is_space c = false) l → strip l = l.
Proof.
  intros Hl. unfold strip.
  assert (Hhead : ∀ k, Forall (fun c => is_space c = false) k → lstrip k = k).
  { intros k Hk. apply lstrip_id. intros c k' ->. by inversion Hk. }
  rewrite (Hhead l Hl), Hhead, reverse_involutive; [done|].
  by apply Forall_reverse.
Qed.

Lemma digit_not_space (c : ascii) : is_digit c = true → is_space c = false.
Proof.
  unfold is_digit, is_space. intros Hd.
  apply andb_prop in Hd as [H1 H2].
  apply N.leb_le in H1. apply N.leb_le in H2.
  apply orb_false_intro; [apply andb_false_intro2|]; [apply N.leb_gt|apply N.eqb_neq]; lia.
Qed.

Lemma digit_not_sign (c : ascii) :
  is_digit c = true → Ascii.eqb c "+" = false ∧ Ascii.eqb c "-" = false.
Proof.
  intros Hd. split; apply Ascii.eqb_neq; intros ->; discriminate Hd.
Qed.

(** NilZero prints the empty numeral as "0"; its characters in every case. *)
Lemma nilzero_chars (d : uint) :
  ∃ d', d' ≠ Nil ∧ Z.of_uint d' = Z.of_uint d ∧
        list_ascii_of_string (NilZero.string_of_uint d) = uint_chars d'.
Proof.
  destruct d as [|d|d|d|d|d|d|d|d|d|d];
    [by exists (D0 Nil)|by exists (D0 d)|by exists (D1 d)|by exists (D2 d)
    |by exists (D3 d)|by exists (D4 d)|by exists (D5 d)|by exists (D6 d)
    |by exists (D7 d)|by exists (D8 d)|by exists (D9 d)].
Qed.

Lemma parse_int_string_of_int (i : int) :
  parse_int (NilZero.string_of_int i) = Some (Z.of_int i).
Proof.
  unfold parse_int.
  destruct i as [d|d]; simpl NilZero.string_of_int.
  - destruct (nilzero_chars d) as (d' & Hd' & Hv & ->).
    simpl Z.of_int. rewrite <- Hv.
    pose proof (uint_chars_digits d') as Hdig.
    rewrite strip_no_space
      by (eapply Forall_impl; [exact Hdig|apply digit_not_space]).
    pose proof (parse_unsigned_uint d' Hd') as Hp.
    destruct (uint_chars d') as [|c l] eqn:Hc; [done|].
    inversion Hdig as [|? ? Hcd _]; subst.
    destruct (digit_not_sign c Hcd) as [-> ->]. exact Hp.
  - destruct (nilzero_chars d) as (d' & Hd' & Hv & Hs).
    simpl list_ascii_of_string. rewrite Hs.
    simpl Z.of_int. rewrite <- Hv.
    pose proof (uint_chars_digits d') as Hdig.
    rewrite strip_no_space.
    + simpl. by rewrite (parse_unsigned_uint d' Hd').
    + constructor; [reflexivity|].
      eapply Forall_impl; [exact Hdig|apply digit_not_space].
Qed.

Lemma parse_int_str_of_int (z : Z) : parse_int (str_of_int z) = Some z.
Proof. unfold str_of_int. by rewrite parse_int_string_of_int, DecimalZ.of_to. Qed.

(** *** Numerals and the parser *)

Lemma digit_not_underscore (c : ascii) : is_digit c = true → c ≠ "_"%char.
Proof. intros Hd ->. discriminate Hd. Qed.

Lemma numeral_head (l : list ascii) :
  numeral l → ∃ d l', l = d :: l' ∧ is_digit d = true.
Proof. destruct 1; eauto. Qed.

Lemma numeral_last (l : list ascii) :
  numeral l → ∃ l' d, l = l' ++ [d] ∧ is_digit d = true.
Proof.
  induction 1 as [d Hd|d l Hd _ (l' & d' & -> & Hd')|d l Hd _ (l' & d' & -> & Hd')].
  - by exists [], d.
  - by exists (d :: l'), d'.
  - by exists (d :: "_"%char :: l'), d'.
Qed.

Lemma scan_digits_step (acc : Z) (d : ascii) (l : list ascii) :
  is_digit d = true →
  scan_digits acc (d :: l) = scan_digits (10 * acc + digit_value d) l.
Proof. intros Hd. simpl. by rewrite Hd. Qed.

Lemma drop_underscores_digit (d : ascii) (l : list ascii) :
  is_digit d = true → drop_underscores (d :: l) = d :: drop_underscores l.
Proof.
  intros Hd. unfold drop_underscores. rewrite filter_cons.
  by rewrite decide_True by by apply digit_not_underscore.
Qed.

Lemma drop_underscores_underscore (l : list ascii) :
  drop_underscores ("_"%char :: l) = drop_underscores l.
Proof. unfold drop_underscores. rewrite filter_cons. by rewrite decide_False by tauto. Qed.

Lemma numeral_scan (l : list ascii) :
  numeral l →
  Forall (fun c => is_digit c = true) (drop_underscores l) ∧
  ∀ acc, scan_digits acc l = scan_digits acc (drop_underscores l).
Proof.
  induction 1 as [d Hd|d l Hd Hl [IHd IHs]|d l Hd Hl [IHd IHs]].
  - rewrite drop_underscores_digit by done. split; [by repeat constructor|done].
  - rewrite drop_underscores_digit by done. split; [by constructor|].
    intros acc. by rewrite !scan_digits_step, IHs.
  - rewrite drop_underscores_digit, drop_underscores_underscore by done.
    split; [by constructor|].
    intros acc. rewrite (scan_digits_step acc d) by done.
    rewrite (scan_digits_step acc d (drop_underscores l)) by done.
    rewrite <- IHs.
    destruct (numeral_head l Hl) as (d2 & l2 & -> & Hd2).
    simpl. by rewrite Hd2.
Qed.

Lemma digits_uint (l : list ascii) :
  Forall (fun c => is_digit c = true) l →
  ∃ d, NilEmpty.uint_of_string (string_of_list_ascii l) = Some d ∧ uint_chars d = l.
Proof.
  induction 1 as [|c l Hc _ (d & Hd & Hl)]; [by exists Nil|].
  simpl. rewrite Hd. unfold uint_chars in *.
  destruct c as [[] [] [] [] [] [] [] []]; try discriminate Hc;
    eexists; (split; [reflexivity|simpl; by rewrite Hl]).
Qed.

Lemma parse_unsigned_numeral (l : list ascii) :
  numeral l →
  ∃ d, NilEmpty.uint_of_string (string_of_list_ascii (drop_underscores l)) = Some d ∧
       parse_unsigned l = Some (Z.of_uint d).
Proof.
  intros Hl. destruct (numeral_scan l Hl) as [Hdig Hscan].
  destruct (digits_uint _ Hdig) as (d & Hd & Hchars).
  exists d. split; [done|].
  destruct (numeral_head l Hl) as (c & l' & -> & Hc).
  transitivity (scan_digits 0 (c :: l')).
  { simpl. rewrite Hc. f_equal. }
  by rewrite Hscan, <- Hchars, scan_digits_uint, uint_value_of_uint.
Qed.



Lemma lstrip_app_spaces (pre m : list ascii) :
  Forall (fun c => is_space c = true) pre →
  (∀ c m', m = c :: m' → is_space c = false) →
  lstrip (pre ++ m) = m.
Proof.
  intros Hpre Hm. induction Hpre as [|c pre Hc _ IH]; simpl.
  - by apply lstrip_id.
  - by rewrite Hc.
Qed.



Lemma strip_exact (pre post m0 m1 : list ascii) (c e : ascii) :
  Forall (fun c => is_space c = true) pre →
  Forall (fun c => is_space c = true) post →
  is_space c = false → is_space e = false →
  c :: m0 = m1 ++ [e] →
  strip (pre ++ (c :: m0) ++ post) = c :: m0.
Proof.
  intros Hpre Hpost Hc He Hm. unfold strip.
  rewrite (lstrip_app_spaces pre) by (try done; intros ? ? Heq; simpl in Heq; by simplify_eq).
  rewrite reverse_app, Hm, reverse_app. simpl.
  rewrite lstrip_app_spaces; [|by apply Forall_reverse|intros ? ? Heq; by simplify_eq].
  change (e :: reverse m1) with (reverse [e] ++ reverse m1).
  by rewrite <- reverse_app, reverse_involutive.
Qed.


(** A numeral of the grammar is read to its value. *)
Lemma literal_parse_int (s : string) (pre sign body post : list ascii) :
  int_literal_parts s pre sign body post →
  ∃ z, literal_value sign body = Some z ∧ parse_int s = Some z.
Proof.
  intros (Hs & Hpre & Hpost & Hsign & Hbody).
  destruct (parse_unsigned_numeral body Hbody) as (d & Hd & Hp).
  unfold literal_value. rewrite Hd. eexists. split; [reflexivity|].
  destruct (numeral_head body Hbody) as (c & l & -> & Hc).
  destruct (numeral_last _ Hbody) as (m1 & e & Hm & He).
  destruct (digit_not_sign c Hc) as [Hnp Hnm].
  unfold parse_int. rewrite Hs.
  destruct Hsign as [-> | [-> | ->]].
  - change (pre ++ [] ++ (c :: l) ++ post) with (pre ++ (c :: l) ++ post).
    rewrite (strip_exact pre post l m1 c e) by auto using digit_not_space.
    rewrite Hnp, Hnm, Hp. by rewrite decide_False.
  - change (pre ++ ["+"%char] ++ (c :: l) ++ post)
      with (pre ++ ("+"%char :: c :: l) ++ post).
    rewrite (strip_exact pre post (c :: l) ("+"%char :: m1) "+"%char e);
      [|auto using digit_not_space..|by rewrite Hm].
    simpl. fold (parse_unsigned (c :: l)). rewrite Hp. simpl. by repeat case_decide.
  - change (pre ++ ["-"%char] ++ (c :: l) ++ post)
      with (pre ++ ("-"%char :: c :: l) ++ post).
    rewrite (strip_exact pre post (c :: l) ("-"%char :: m1) "-"%char e);
      [|auto using digit_not_space..|by rewrite Hm].
    simpl. fold (parse_unsigned (c :: l)). rewrite Hp. simpl. by repeat case_decide.
Qed.

(** *** ASCII text

    On ASCII text the first step of [int] changes nothing. *)

Lemma transform_ascii (l : list ascii) :
  Forall (λ c, (N_of_ascii c < 128)%N) l →
  transform_decimal_and_space l = Some l.
Proof.
  induction 1 as [|c l Hc _ IH]; [done|]. simpl.
  apply N.ltb_lt in Hc. by rewrite Hc, IH.
Qed.

Lemma py_int_ascii (s : string) :
  is_ascii s →
  py_int (PyStr s) =
    match parse_int s with Some z => Ok z | None => Raise ValueError end.
Proof.
  intros Hs. simpl. rewrite (transform_ascii _ Hs).
  by rewrite string_of_list_ascii_of_string.
Qed.

Lemma digit_ascii (c : ascii) : is_digit c = true → (N_of_ascii c < 128)%N.
Proof. unfold is_digit. intros [_ H]%andb_prop. apply N.leb_le in H. lia. Qed.









(** ** Batching *)

Section Divide.
Context {A : Type}.
Variable lst : list A.
Variable n : Z.
Hypothesis n_pos : (0 < n)%Z.

Local Abbreviation L := (Z.of_nat (length lst)).

Lemma py_slice_chunk (k : nat) :
  k < length lst →
  py_slice lst (Z.of_nat k) (Z.of_nat k + n) =
  take (Z.to_nat n) (drop k lst).
Proof using n_pos.
  intros Hk. unfold py_slice, slice_bound.
  destruct (Z.ltb_spec (Z.of_nat k) 0) as [?|_]; [lia|].
  destruct (Z.ltb_spec (Z.of_nat k + n) 0) as [?|_]; [lia|].
  replace (Z.to_nat (Z.min (Z.of_nat k) (Z.of_nat (length lst)))) with k by lia.
  destruct (Z.le_gt_cases (Z.of_nat k + n) (Z.of_nat (length lst))) as [Hle|Hgt].
  - f_equal. lia.
  - rewrite !take_ge; [done|rewrite length_drop; lia..].
Qed.

(** The chunks produced from position [k] on. *)
Lemma range_up_chunks (fuel k : nat) :
  length lst - k ≤ fuel →
  let cs := map (fun i => py_slice lst i (i + n))
                (range_up fuel (Z.of_nat k) L n) in
  concat cs = drop k lst ∧
  chunked n cs ∧
  Z.of_nat (length cs) = Z.max 0 ((L - Z.of_nat k + n - 1) / n).
Proof using n_pos.
  revert k. induction fuel as [|fuel IH]; intros k Hfuel; simpl.
  - rewrite drop_ge by lia. split; [done|]. split; [by intros j c ?|].
    symmetry. apply Z.max_l.
    apply Z.lt_succ_r, Z.div_lt_upper_bound; lia.
  - destruct (Z.ltb_spec (Z.of_nat k) (Z.of_nat (length lst))) as [Hlt|Hge].
    + replace (Z.of_nat k + n)%Z with (Z.of_nat (k + Z.to_nat n)) by lia.
      destruct (IH (k + Z.to_nat n) ltac:(lia)) as (Hcat & Hch & Hlen).
      simpl. rewrite Hcat.
      replace (Z.of_nat (k + Z.to_nat n)) with (Z.of_nat k + n)%Z in * by lia.
      rewrite py_slice_chunk by lia.
      assert (Hcount :
        ((Z.of_nat (length lst) - Z.of_nat k + n - 1) / n =
         1 + (Z.of_nat (length lst) - (Z.of_nat k + n) + n - 1) / n)%Z).
      { rewrite <- (Z.div_add_l 1 n) by lia. f_equal. lia. }
      assert (Hrest :
        (0 ≤ (Z.of_nat (length lst) - (Z.of_nat k + n) + n - 1) / n)%Z).
      { apply Z.div_pos; lia. }
      split; [|split].
      * rewrite <- drop_drop. apply take_drop.
      * intros [|j] c Hc; simpl in Hc.
        -- injection Hc as <-. rewrite length_take, length_drop. split; [lia|].
           simpl. intros Hmore.
           assert (1 ≤ (Z.of_nat (length lst) - (Z.of_nat k + n) + n - 1) / n)%Z
             as Hq by lia.
           assert (n * 1 ≤ Z.of_nat (length lst) - (Z.of_nat k + n) + n - 1)%Z.
           { etrans; [apply Z.mul_le_mono_nonneg_l; [lia|exact Hq]|].
             apply Z.mul_div_le. lia. }
           lia.
        -- destruct (Hch j c Hc) as [Hle Hfull]. split; [done|].
           simpl. intros ?. apply Hfull. lia.
      * rewrite Hcount. simpl length. lia.
    + simpl. rewrite drop_ge by lia. split; [done|]. split; [by intros j c ?|].
      symmetry. apply Z.max_l.
      apply Z.lt_succ_r, Z.div_lt_upper_bound; lia.
Qed.
End Divide.

Lemma divide_positive_step {A} (lst : list A) (n : Z) :
  (0 < n)%Z →
  divide lst n =
  Ok (map (fun i => py_slice lst i (i + n))
          (range_up (length lst) 0 (Z.of_nat (length lst)) n)).
Proof.
  intros Hn. unfold divide, py_range.
  destruct (Z.eqb_spec n 0) as [?|_]; [lia|].
  destruct (Z.ltb_spec 0 n) as [_|?]; [|lia].
  by rewrite Z.sub_0_r, Nat2Z.id.
Qed.

(** C6: for a chunk size [n > 0], [divide lst n] returns ceil(L/n) chunks
    (the least number [q] with [L <= q * n]), every chunk but possibly the last
    has [n] elements and none has more, the lengths add up to [L], and the
    chunks put together in order are the list. *)
Theorem divide_chunks {A} (lst : list A) (n : Z) :
  (0 < n)%Z →
  ∃ chunks,
    divide lst n = Ok chunks ∧
    Z.of_nat (length chunks) = ((Z.of_nat (length lst) + n - 1) / n)%Z ∧
    ((Z.of_nat (length chunks) - 1) * n < Z.of_nat (length lst)
       ≤ Z.of_nat (length chunks) * n)%Z ∧
    chunked n chunks ∧
    sum_list_with length chunks = length lst ∧
    concat chunks = lst.
Proof.
  intros Hn. eexists. split; [by apply divide_positive_step|].
  pose proof (range_up_chunks lst n Hn (length lst) 0 ltac:(lia)) as Hchunks.
  change (Z.of_nat 0) with 0%Z in Hchunks. cbv zeta in Hchunks.
  rewrite drop_0, Z.sub_0_r in Hchunks. destruct Hchunks as (Hcat & Hch & Hlen).
  assert (Hq : (0 ≤ (Z.of_nat (length lst) + n - 1) / n)%Z)
    by (apply Z.div_pos; lia).
  rewrite Z.max_r in Hlen by done.
  split; [done|]. split; [|split; [done|split; [|done]]].
  - rewrite Hlen.
    pose proof (Z.mul_div_le (Z.of_nat (length lst) + n - 1) n Hn) as Hlo.
    pose proof (Z.mul_succ_div_gt (Z.of_nat (length lst) + n - 1) n Hn) as Hhi.
    set (q := ((Z.of_nat (length lst) + n - 1) `div` n)%Z) in *.
    nia.
  - assert (Hsum : ∀ cs : list (list A),
               sum_list_with length cs = length (concat cs)).
    { induction cs as [|c cs IH]; simpl; [done|]. rewrite length_app. lia. }
    by rewrite Hsum, Hcat.
Qed.

Lemma divide_chunks_witness :
  ∃ chunks, divide [1; 2; 3; 4; 5; 6; 7]%Z 3 = Ok chunks ∧
            length chunks = 3 ∧ concat chunks = [1; 2; 3; 4; 5; 6; 7]%Z.
Proof.
  destruct (divide_chunks [1; 2; 3; 4; 5; 6; 7]%Z 3 ltac:(lia))
    as (chunks & Hdiv & Hlen & _ & _ & _ & Hcat).
  exists chunks. split; [done|]. split; [|done].
  apply Nat2Z.inj. rewrite Hlen. reflexivity.
Defined.

(** ** The store and the loops of the reconciler *)

Lemma remove_first_Some (x : string) (l : list string) :
  x ∈ l → ∃ l', remove_first x l = Some l'.
Proof.
  induction l as [|y l IH]; intros Hx; [by apply elem_of_nil in Hx|].
  simpl. destruct (decide (x = y)) as [->|Hne]; [eauto|].
  apply elem_of_cons in Hx as [?|Hx]; [done|].
  destruct (IH Hx) as [l' ->]. simpl. eauto.
Qed.

Lemma remove_first_None (x : string) (l : list string) :
  x ∉ l → remove_first x l = None.
Proof.
  induction l as [|y l IH]; intros Hx; [done|].
  simpl. apply not_elem_of_cons in Hx as [Hne Hx].
  rewrite decide_False by done. by rewrite IH.
Qed.

Lemma remove_first_perm (x : string) (l l' : list string) :
  remove_first x l = Some l' → l ≡ₚ x :: l'.
Proof.
  revert l'. induction l as [|y l IH]; intros l' Hr; [done|].
  simpl in Hr. destruct (decide (x = y)) as [->|Hne]; [by simplify_eq|].
  destruct (remove_first x l) as [k|]; [|done]. simpl in Hr. simplify_eq.
  rewrite (IH k eq_refl). apply Permutation_swap.
Qed.

Lemma remove_first_elem (x : string) (l l' : list string) :
  remove_first x l = Some l' → x ∈ l.
Proof. intros Hr. rewrite (remove_first_perm _ _ _ Hr). by left. Qed.

Lemma remove_first_sublist (x : string) (l l' : list string) :
  remove_first x l = Some l' → l' `sublist_of` l.
Proof.
  revert l'. induction l as [|y l IH]; intros l' Hr; [done|].
  simpl in Hr. destruct (decide (x = y)) as [->|Hne].
  - simplify_eq. by apply sublist_cons.
  - destruct (remove_first x l) as [k|]; [|done]. simpl in Hr. simplify_eq.
    apply sublist_skip. by apply IH.
Qed.

Lemma filter_ext_in {A} (P1 P2 : A → Prop)
    `{!∀ x, Decision (P1 x), !∀ x, Decision (P2 x)} (l : list A) :
  (∀ x, x ∈ l → (P1 x ↔ P2 x)) → filter P1 l = filter P2 l.
Proof.
  induction l as [|a l IH]; intros Hl; [done|].
  rewrite !filter_cons, IH by (intros x Hx; apply Hl; by right).
  apply decide_ext, Hl. by left.
Qed.

Lemma filter_all {A} (P : A → Prop) `{!∀ x, Decision (P x)} (l : list A) :
  (∀ x, x ∈ l → P x) → filter P l = l.
Proof.
  induction l as [|a l IH]; intros Hl; [done|].
  rewrite filter_cons, decide_True by (apply Hl; by left).
  rewrite IH; [done|]. intros x Hx. apply Hl. by right.
Qed.

Lemma filter_none {A} (P : A → Prop) `{!∀ x, Decision (P x)} (l : list A) :
  (∀ x, x ∈ l → ¬ P x) → filter P l = [].
Proof.
  induction l as [|a l IH]; intros Hl; [done|].
  rewrite filter_cons, decide_False by (apply Hl; by left).
  apply IH. intros x Hx. apply Hl. by right.
Qed.

Lemma remove_first_NoDup (x : string) (l l' : list string) :
  NoDup l → remove_first x l = Some l' →
  NoDup l' ∧ l' = filter (λ y, y ≠ x) l.
Proof.
  intros Hnd Hr. split.
  { eapply sublist_NoDup; eauto using remove_first_sublist. }
  revert l' Hr. induction Hnd as [|y l Hy Hnd IH]; intros l' Hr; [done|].
  simpl in Hr. rewrite filter_cons. destruct (decide (x = y)) as [->|Hne].
  - simplify_eq. rewrite decide_False by tauto.
    symmetry. apply filter_all. by intros z Hz ->.
  - destruct (remove_first x l) as [k|]; [|done]. simpl in Hr. simplify_eq.
    rewrite decide_True by done. f_equal. by apply IH.
Qed.

(** *** What the first loop leaves and takes *)

Lemma matched_leftover_perm (R : list watch) (ids : list string) :
  (code <$> matched R ids) ++ leftover R ids ≡ₚ ids.
Proof.
  revert ids. induction R as [|w R IH]; intros ids; [done|]. simpl.
  destruct (remove_first (code w) ids) as [ids'|] eqn:Hr; [|apply IH].
  rewrite fmap_cons. simpl. rewrite IH.
  symmetry. by apply remove_first_perm.
Qed.

Lemma leftover_sublist (R : list watch) (ids : list string) :
  leftover R ids `sublist_of` ids.
Proof.
  revert ids. induction R as [|w R IH]; intros ids; [done|]. simpl.
  destruct (remove_first (code w) ids) as [ids'|] eqn:Hr; [|apply IH].
  etrans; [apply IH|]. by eapply remove_first_sublist.
Qed.

Lemma remove_first_filter_ne (x : string) (l l' : list string) :
  remove_first x l = Some l' →
  filter (λ y, y ≠ x) l' = filter (λ y, y ≠ x) l.
Proof.
  revert l'. induction l as [|y l IH]; intros l' Hr; [done|].
  simpl in Hr. rewrite (filter_cons _ y l).
  destruct (decide (x = y)) as [<-|Hne].
  - simplify_eq. by rewrite decide_False by tauto.
  - destruct (remove_first x l) as [k|]; [|done]. simpl in Hr.
    simplify_eq. rewrite filter_cons, !decide_True by done.
    f_equal. by apply IH.
Qed.

Lemma leftover_unmatched (R : list watch) (ids : list string) :
  filter (λ x, x ∉ code <$> R) (leftover R ids) =
  filter (λ x, x ∉ code <$> R) ids.
Proof.
  revert ids. induction R as [|w R IH]; intros ids; [done|]. simpl leftover.
  assert (Hout : ∀ l : list string,
    filter (λ x, x ∉ code <$> w :: R) l =
    filter (λ x, x ≠ code w) (filter (λ x, x ∉ code <$> R) l)).
  { intros l. rewrite list_filter_filter. apply list_filter_iff.
    intros x. rewrite ?fmap_cons, not_elem_of_cons. tauto. }
  assert (Hin : ∀ l : list string,
    filter (λ x, x ∉ code <$> w :: R) l =
    filter (λ x, x ∉ code <$> R) (filter (λ x, x ≠ code w) l)).
  { intros l. rewrite list_filter_filter. apply list_filter_iff.
    intros x. rewrite ?fmap_cons, not_elem_of_cons. tauto. }
  destruct (remove_first (code w) ids) as [ids'|] eqn:Hr.
  - rewrite Hout, IH, <- Hout, !Hin. f_equal.
    by apply remove_first_filter_ne.
  - by rewrite !Hout, IH.
Qed.

Lemma leftover_NoDup (R : list watch) (ids : list string) :
  NoDup ids → leftover R ids = filter (λ x, x ∉ code <$> R) ids.
Proof.
  revert ids. induction R as [|w R IH]; intros ids Hnd; simpl.
  { symmetry. apply filter_all. intros x _. apply not_elem_of_nil. }
  destruct (remove_first (code w) ids) as [ids'|] eqn:Hr.
  - destruct (remove_first_NoDup _ _ _ Hnd Hr) as [Hnd' ->].
    rewrite IH by done. rewrite list_filter_filter. apply list_filter_iff.
    intros x. rewrite ?fmap_cons, not_elem_of_cons. tauto.
  - rewrite IH by done. apply filter_ext_in. intros x Hx.
    rewrite ?fmap_cons, not_elem_of_cons.
    assert (x ≠ code w); [|tauto].
    intros ->. apply remove_first_Some in Hx as [? ?]. congruence.
Qed.

Lemma matched_distinct (R : list watch) (ids : list string) :
  NoDup (code <$> R) → matched R ids = filter (λ w, code w ∈ ids) R.
Proof.
  revert ids. induction R as [|w R IH]; intros ids Hnd; [done|].
  rewrite fmap_cons in Hnd. apply NoDup_cons in Hnd as [Hw Hnd].
  simpl. rewrite filter_cons.
  destruct (remove_first (code w) ids) as [ids'|] eqn:Hr.
  - rewrite decide_True by by eapply remove_first_elem.
    f_equal. rewrite IH by done. apply filter_ext_in. intros v Hv.
    rewrite (remove_first_perm _ _ _ Hr), elem_of_cons.
    assert (code v ≠ code w); [|tauto].
    intros Heq. apply Hw. rewrite <- Heq. by apply list_elem_of_fmap_2.
  - rewrite decide_False; [by apply IH|].
    intros Hin. apply remove_first_Some in Hin as [? ?]. congruence.
Qed.

(** *** Running the loops *)

Lemma set_store_id {W} (r : ref) (ids : list string) (s : state W) :
  store s !! r = Some ids → set_store r ids s = s.
Proof. intros Hr. destruct s. unfold set_store. simpl in *. by rewrite insert_id. Qed.

Lemma set_store_set_store {W} (r : ref) (ids ids' : list string) (s : state W) :
  set_store r ids' (set_store r ids s) = set_store r ids' s.
Proof. unfold set_store. simpl. by rewrite insert_insert_eq. Qed.

(** The laws of the monad that the proofs step with. *)
Lemma bind_assoc {W A B C} (m : M W A) (f : A → M W B) (g : B → M W C) s :
  bind (bind m f) g s = bind m (fun a => bind (f a) g) s.
Proof. unfold bind. by destruct (m s) as [[[a|e]|] s']. Qed.

Lemma bind_ret {W A B} (a : A) (f : A → M W B) s : bind (ret a) f s = f a s.
Proof. done. Qed.

Lemma bind_lift_ok {W A B} (a : A) (f : A → M W B) s :
  bind (lift (Ok a)) f s = f a s.
Proof. done. Qed.

Lemma bind_lift_raise {W A B} (e : exn) (f : A → M W B) s :
  bind (lift (Raise e)) f s = (Some (Raise e), s).
Proof. done. Qed.

Lemma bind_read {W B} (r : ref) (ids : list string) (f : list string → M W B) s :
  store s !! r = Some ids → bind (read r) f s = f ids s.
Proof. intros Hs. unfold bind, read. by rewrite Hs. Qed.

Lemma bind_remove {W B} (r : ref) (x : string) (ids ids' : list string)
    (f : unit → M W B) s :
  store s !! r = Some ids → remove_first x ids = Some ids' →
  bind (py_list_remove r x) f s = f tt (set_store r ids' s).
Proof. intros Hs Hr. unfold bind, py_list_remove. by rewrite Hs, Hr. Qed.

Lemma bind_ok {W A B} (m : M W A) (f : A → M W B) s a s' :
  m s = (Some (Ok a), s') → bind m f s = f a s'.
Proof. unfold bind. by intros ->. Qed.

Lemma bind_raise {W A B} (m : M W A) (f : A → M W B) s e s' :
  m s = (Some (Raise e), s') → bind m f s = (Some (Raise e), s').
Proof. unfold bind. by intros ->. Qed.

Lemma store_set_store {W} (r : ref) (ids : list string) (s : state W) :
  store (set_store r ids s) !! r = Some ids.
Proof. apply lookup_insert_eq. Qed.

Lemma for_fold_cons {W A B} (x : A) (l : list A) (acc : B) (body : B → A → M W B) s :
  for_fold (x :: l) acc body s =
  bind (body acc x) (fun acc' => for_fold l acc' body) s.
Proof. done. Qed.

Lemma for_fold_ext {W A B} (l : list A) (f g : B → A → M W B) :
  (∀ acc x s, f acc x s = g acc x s) →
  ∀ acc s, for_fold l acc f s = for_fold l acc g s.
Proof.
  intros Hfg. induction l as [|x l IH]; intros acc s; [done|].
  rewrite !for_fold_cons. unfold bind. rewrite Hfg.
  destruct (g acc x s) as [[[a|e]|] s']; [apply IH|done..].
Qed.

Lemma append_loop_run {W E} (zero : string → E) (ids : list string) :
  ∀ (acc : list E) (s : state W),
    for_fold ids acc (fun stocks offer_id => ret (stocks ++ [zero offer_id])) s =
    (Some (Ok (acc ++ (zero <$> ids))), s).
Proof.
  induction ids as [|x ids IH]; intros acc s.
  - simpl. by rewrite app_nil_r.
  - rewrite for_fold_cons, bind_ret, IH, fmap_cons. by rewrite <- app_assoc.
Qed.

Lemma stock_loop_run {W E} (item : watch → result E) (r : ref) (R : list watch) :
  ∀ (acc : list E) (s : state W) (ids : list string),
    store s !! r = Some ids →
    ∃ ids',
      stock_loop item r R acc s =
        (Some (result_map (acc ++.) (collect item (matched R ids))),
         set_store r ids' s) ∧
      (∀ es, collect item (matched R ids) = Ok es → ids' = leftover R ids).
Proof.
  induction R as [|w R IH]; intros acc s ids Hs.
  { exists ids. simpl. rewrite app_nil_r, set_store_id by done. done. }
  unfold stock_loop. rewrite for_fold_cons, bind_assoc, (bind_read r ids) by done.
  simpl matched. simpl leftover.
  destruct (remove_first (code w) ids) as [ids1|] eqn:Hr.
  - rewrite bool_decide_eq_true_2 by by eapply remove_first_elem.
    rewrite bind_assoc. simpl collect. destruct (item w) as [e|x] eqn:Hitem.
    + rewrite bind_lift_ok, bind_assoc, (bind_remove r _ ids ids1) by done.
      rewrite bind_ret.
      destruct (IH (acc ++ [e]) (set_store r ids1 s) ids1) as (ids' & Hrun & Hok);
        [apply store_set_store|].
      unfold stock_loop in Hrun.
      exists ids'. rewrite Hrun, set_store_set_store. split.
      * destruct (collect item (matched R ids1)); simpl; [|done].
        by rewrite <- app_assoc.
      * intros es Hes. destruct (collect item (matched R ids1)) eqn:Hc; [|done].
        by eapply Hok.
    + exists ids. rewrite bind_lift_raise, set_store_id by done. done.
  - rewrite bool_decide_eq_false_2.
    + rewrite bind_ret. apply (IH acc s ids Hs).
    + intros Hin. apply remove_first_Some in Hin as [? ?]. congruence.
Qed.

Lemma price_loop_run {W E} (item : watch → result E) (r : ref) (R : list watch) :
  ∀ (acc : list E) (s : state W) (ids : list string),
    store s !! r = Some ids →
    price_loop item r R acc s =
      (Some (result_map (acc ++.)
               (collect item (filter (λ w, code w ∈ ids) R))), s).
Proof.
  induction R as [|w R IH]; intros acc s ids Hs.
  { simpl. by rewrite app_nil_r. }
  unfold price_loop. rewrite for_fold_cons, bind_assoc, (bind_read r ids) by done.
  rewrite filter_cons. case_bool_decide as Hin.
  - rewrite decide_True by done. rewrite bind_assoc. simpl collect.
    destruct (item w) as [e|x]; [|by rewrite bind_lift_raise].
    rewrite bind_lift_ok, bind_ret.
    pose proof (IH (acc ++ [e]) s ids Hs) as Hrun. unfold price_loop in Hrun.
    rewrite Hrun.
    destruct (collect item _); simpl; [|done]. by rewrite <- app_assoc.
  - rewrite decide_False by done. rewrite bind_ret. apply (IH acc s ids Hs).
Qed.

(** *** The four reconcilers in terms of the loops *)

Lemma result_map_id {A} (r : result (list A)) : result_map ([] ++.) r = r.
Proof. by destruct r. Qed.

Lemma bind_ext_l {W A B} (m1 m2 : M W A) (f : A → M W B) s :
  m1 s = m2 s → bind m1 f s = bind m2 f s.
Proof. unfold bind. by intros ->. Qed.

Lemma reconcile_run {W E} (item : watch → result E) (zero : string → E)
    (r : ref) (R : list watch) (s : state W) (ids : list string) :
  store s !! r = Some ids →
  ∃ ids',
    bind (stock_loop item r R [])
      (fun stocks => bind (read r) (fun left =>
         for_fold left stocks (fun stocks offer_id =>
           ret (stocks ++ [zero offer_id])))) s =
      (Some (result_map (λ es, es ++ (zero <$> leftover R ids))
               (collect item (matched R ids))),
       set_store r ids' s) ∧
    (∀ es, collect item (matched R ids) = Ok es → ids' = leftover R ids).
Proof.
  intros Hs. destruct (stock_loop_run item r R [] s ids Hs) as (ids' & Hrun & Hok).
  exists ids'. split; [|done]. rewrite result_map_id in Hrun.
  destruct (collect item (matched R ids)) as [es|e].
  - rewrite (bind_ok _ _ _ _ _ Hrun).
    rewrite (bind_read r ids') by apply store_set_store.
    rewrite append_loop_run. simpl. by rewrite (Hok es eq_refl).
  - by rewrite (bind_raise _ _ _ _ _ Hrun).
Qed.

Section Reconcilers.
Context {W : Type} `{World W}.

Lemma seller_create_stocks_run (R : list watch) (r : ref) (s : state W)
    (ids : list string) :
  store s !! r = Some ids →
  ∃ ids',
    Seller.create_stocks R r s =
      (Some (result_map (λ es, es ++ ((λ x, OzonStock x 0) <$> leftover R ids))
               (collect ozon_stock_item (matched R ids))),
       set_store r ids' s) ∧
    (∀ es, collect ozon_stock_item (matched R ids) = Ok es →
           ids' = leftover R ids).
Proof.
  intros Hs.
  destruct (reconcile_run ozon_stock_item (λ x, OzonStock x 0) r R s ids Hs)
    as (ids' & Hrun & Hok).
  exists ids'. split; [|done]. rewrite <- Hrun.
  unfold Seller.create_stocks. apply bind_ext_l.
  apply for_fold_ext. intros acc w s0.
  unfold bind, read, code. destruct (store s0 !! r); [|done].
  case_bool_decide; [|done].
  unfold ozon_stock_item. by destruct (stock_of_count (Kolichestvo w)).
Qed.

Lemma market_create_stocks_run (R : list watch) (r : ref) (warehouse_id : string)
    (s : state W) (ids : list string) :
  store s !! r = Some ids →
  ∃ ids',
    Market.create_stocks R r warehouse_id s =
      (Some (result_map
               (λ es, es ++ ((λ x, market_stock_entry warehouse_id
                                     (clock_utcnow (world s)) x 0)
                             <$> leftover R ids))
               (collect (market_stock_item warehouse_id (clock_utcnow (world s)))
                        (matched R ids))),
       set_store r ids' s) ∧
    (∀ es, collect (market_stock_item warehouse_id (clock_utcnow (world s)))
                   (matched R ids) = Ok es →
           ids' = leftover R ids).
Proof.
  intros Hs.
  destruct (reconcile_run
              (market_stock_item warehouse_id (clock_utcnow (world s)))
              (λ x, market_stock_entry warehouse_id (clock_utcnow (world s)) x 0)
              r R s ids Hs) as (ids' & Hrun & Hok).
  exists ids'. split; [|done]. rewrite <- Hrun.
  unfold Market.create_stocks.
  rewrite (bind_ok utcnow _ s (clock_utcnow (world s)) s) by done.
  apply bind_ext_l. apply for_fold_ext. intros acc w s0.
  unfold bind, read, code. destruct (store s0 !! r); [|done].
  case_bool_decide; [|done].
  unfold market_stock_item. by destruct (stock_of_count (Kolichestvo w)).
Qed.

Lemma seller_create_prices_run (R : list watch) (r : ref) (s : state W)
    (ids : list string) :
  store s !! r = Some ids →
  Seller.create_prices R r s =
    (Some (collect ozon_price_item (filter (λ w, code w ∈ ids) R)), s).
Proof.
  intros Hs. rewrite <- (result_map_id (collect _ _)).
  rewrite <- (price_loop_run ozon_price_item r R [] s ids Hs).
  unfold Seller.create_prices, price_loop.
  apply for_fold_ext. intros acc w s0.
  unfold bind, read, code. destruct (store s0 !! r); [|done].
  case_bool_decide; [|done].
  unfold ozon_price_item. by destruct (price_conversion (Tsena w)).
Qed.

Lemma market_create_prices_run (R : list watch) (r : ref) (s : state W)
    (ids : list string) :
  store s !! r = Some ids →
  Market.create_prices R r s =
    (Some (collect market_price_item (filter (λ w, code w ∈ ids) R)), s).
Proof.
  intros Hs. rewrite <- (result_map_id (collect _ _)).
  rewrite <- (price_loop_run market_price_item r R [] s ids Hs).
  unfold Market.create_prices, price_loop.
  apply for_fold_ext. intros acc w s0.
  unfold bind, read, code. destruct (store s0 !! r); [|done].
  case_bool_decide; [|done].
  unfold market_price_item. destruct (price_conversion (Tsena w)) as [c|]; [|done].
  change (lift (Ok c) s0) with (Some (Ok c), s0). cbv beta iota.
  by destruct (py_int (PyStr c)).
Qed.
End Reconcilers.

(** ** Reconciliation *)

Lemma matched_elem (R : list watch) (ids : list string) (w : watch) :
  w ∈ matched R ids → w ∈ R ∧ code w ∈ ids.
Proof.
  revert ids. induction R as [|v R IH]; intros ids Hw; [by apply elem_of_nil in Hw|].
  simpl in Hw. destruct (remove_first (code v) ids) as [ids'|] eqn:Hr.
  - apply elem_of_cons in Hw as [->|Hw].
    + split; [by left|by eapply remove_first_elem].
    + destruct (IH _ Hw) as [HR Hid]. split; [by right|].
      eapply elem_of_sublist; [done|by eapply remove_first_sublist].
  - destruct (IH _ Hw). split; [by right|done].
Qed.

Lemma collect_ok {E} (item : watch → result E) (ws : list watch) :
  (∀ w, w ∈ ws → ∃ e, item w = Ok e) → ∃ es, collect item ws = Ok es.
Proof.
  induction ws as [|w ws IH]; intros Hws; [by exists []|]. simpl.
  destruct (Hws w) as [e ->]; [by left|].
  destruct IH as [es ->]; [intros v Hv; apply Hws; by right|]. eauto.
Qed.

Lemma collect_items {E} (item : watch → result E) (ws : list watch) (es : list E) :
  collect item ws = Ok es → Forall2 (λ w e, item w = Ok e) ws es.
Proof.
  revert es. induction ws as [|w ws IH]; intros es Hc; simpl in Hc.
  { simplify_eq. constructor. }
  destruct (item w) as [e|] eqn:Hw; [|done].
  destruct (collect item ws) as [es'|]; [|done]. simplify_eq.
  constructor; [done|by apply IH].
Qed.

Lemma collect_stock_items {E} (entry : string → Z → E) (ws : list watch)
    (es : list E) :
  collect (λ w, result_map (entry (code w)) (stock_of_count (Kolichestvo w))) ws
    = Ok es →
  Forall2 (λ w e, ∃ q, stock_of_count (Kolichestvo w) = Ok q ∧
                       e = entry (code w) q) ws es.
Proof.
  intros Hc. apply collect_items in Hc.
  eapply Forall2_impl; [exact Hc|]. simpl. intros w e Hw.
  destruct (stock_of_count (Kolichestvo w)) as [q|]; [|done].
  simpl in Hw. simplify_eq. eauto.
Qed.

(** The ids of a stock payload are those of the list, with their
    multiplicities, whatever the list and the feed. *)
Lemma stock_payload_ids {E} (id_of : E → string) (entry : string → Z → E)
    (R : list watch) (ids : list string) (es : list E) :
  (∀ x q, id_of (entry x q) = x) →
  collect (λ w, result_map (entry (code w)) (stock_of_count (Kolichestvo w)))
          (matched R ids) = Ok es →
  id_of <$> es ++ ((λ x, entry x 0%Z) <$> leftover R ids) ≡ₚ ids.
Proof.
  intros Hid Hes%collect_stock_items.
  rewrite fmap_app, <- list_fmap_compose.
  assert (id_of <$> es = code <$> matched R ids) as ->.
  { clear -Hes Hid. induction Hes as [|w e ws es (q & _ & ->) _ IH]; [done|].
    rewrite !fmap_cons, Hid. by f_equal. }
  assert (id_of ∘ (λ x, entry x 0%Z) <$> leftover R ids = leftover R ids) as ->.
  { rewrite <- (list_fmap_id (leftover R ids)) at 2.
    apply list_fmap_ext. intros ? x _. simpl. apply Hid. }
  apply matched_leftover_perm.
Qed.

Lemma reconciled_intro {E} (id_of : E → string) (entry : string → Z → E)
    (R : list watch) (ids : list string) (es : list E) :
  (∀ x q, id_of (entry x q) = x) →
  NoDup ids → NoDup (code <$> R) →
  collect (λ w, result_map (entry (code w)) (stock_of_count (Kolichestvo w)))
          (matched R ids) = Ok es →
  reconciled id_of entry R ids (es ++ ((λ x, entry x 0%Z) <$> leftover R ids)).
Proof.
  intros Hid Hnd HndR Hc.
  pose proof (stock_payload_ids id_of entry R ids es Hid Hc) as Hids.
  pose proof (collect_stock_items entry _ es Hc) as Hes.
  split; [|split; [done|split; [|split; [|split]]]].
  - rewrite <- (length_fmap id_of). by rewrite Hids.
  - by rewrite Hids.
  - intros e [He|He]%elem_of_app.
    + apply list_elem_of_lookup in He as [i Hi].
      destruct (Forall2_lookup_r _ _ _ _ _ Hes Hi) as (w & _ & q & _ & ->).
      eauto.
    + apply list_elem_of_fmap in He as (x & -> & _). eauto.
  - intros w Hw Hin.
    assert (w ∈ matched R ids) as Hm.
    { rewrite matched_distinct by done. by apply list_elem_of_filter. }
    apply list_elem_of_lookup in Hm as [i Hi].
    destruct (Forall2_lookup_l _ _ _ _ _ Hes Hi) as (e & He & q & Hq & ->).
    exists q. split; [done|]. apply elem_of_app. left.
    apply list_elem_of_lookup. eauto.
  - intros x Hx HxR. apply elem_of_app. right.
    apply (list_elem_of_fmap_2 (λ x, entry x 0%Z)).
    rewrite leftover_NoDup by done. by apply list_elem_of_filter.
Qed.

(** C1: for offer ids without duplicates and a feed with distinct codes,
    [create_stocks] of either module returns as soon as the quantities of the
    matching records can be read, and the payload it returns has exactly one
    entry per offer id and no other entry: a matched id carries the
    normalized quantity of its record, an unmatched id carries 0. *)
Theorem create_stocks_complete {W} `{World W} (R : list watch) (r : ref)
    (warehouse_id : string) (s : state W) (ids : list string) :
  store s !! r = Some ids → NoDup ids → NoDup (code <$> R) →
  ((∀ w, w ∈ R → code w ∈ ids → ∃ q, stock_of_count (Kolichestvo w) = Ok q) →
     (∃ stocks s', Seller.create_stocks R r s = (Some (Ok stocks), s')) ∧
     (∃ stocks s', Market.create_stocks R r warehouse_id s = (Some (Ok stocks), s'))) ∧
  (∀ stocks s', Seller.create_stocks R r s = (Some (Ok stocks), s') →
     reconciled stock_offer_id OzonStock R ids stocks) ∧
  (∀ stocks s', Market.create_stocks R r warehouse_id s = (Some (Ok stocks), s') →
     reconciled sku (market_stock_entry warehouse_id (clock_utcnow (world s)))
                R ids stocks).
Proof.
  intros Hs Hnd HndR.
  destruct (seller_create_stocks_run R r s ids Hs) as (ids1 & Hseller & _).
  destruct (market_create_stocks_run R r warehouse_id s ids Hs) as (ids2 & Hmarket & _).
  rewrite Hseller, Hmarket. split; [|split].
  - intros Hq. split.
    + destruct (collect_ok ozon_stock_item (matched R ids)) as [es ->]; [|by eauto].
      intros w [Hw Hin]%matched_elem. destruct (Hq w Hw Hin) as [q Hwq].
      unfold ozon_stock_item. rewrite Hwq. eauto.
    + destruct (collect_ok (market_stock_item warehouse_id (clock_utcnow (world s)))
                  (matched R ids)) as [es ->]; [|by eauto].
      intros w [Hw Hin]%matched_elem. destruct (Hq w Hw Hin) as [q Hwq].
      unfold market_stock_item. rewrite Hwq. eauto.
  - intros stocks s' Hrun.
    destruct (collect ozon_stock_item (matched R ids)) as [es|] eqn:Hc; [|done].
    simpl in Hrun. simplify_eq.
    apply (reconciled_intro stock_offer_id OzonStock); try done; exact Hc.
  - intros stocks s' Hrun.
    destruct (collect (market_stock_item warehouse_id (clock_utcnow (world s)))
                (matched R ids)) as [es|] eqn:Hc; [|done].
    simpl in Hrun. simplify_eq.
    apply (reconciled_intro sku (market_stock_entry _ _)); try done; exact Hc.
Qed.

Lemma create_stocks_complete_witness :
  reconciled stock_offer_id OzonStock scenario_feed ["001"; "002"]
             [OzonStock "001" 10; OzonStock "002" 0] ∧
  reconciled sku (market_stock_entry "wf" "2020-10-10T10:00:00Z")
             scenario_feed ["001"; "002"]
             [market_stock_entry "wf" "2020-10-10T10:00:00Z" "001" 10;
              market_stock_entry "wf" "2020-10-10T10:00:00Z" "002" 0].
Proof.
  pose (s := State {[1%positive := ["001"; "002"]]} scenario []).
  assert (Hs : store s !! 1%positive = Some ["001"; "002"]) by reflexivity.
  assert (Hnd : NoDup ["001"; "002"]) by compute_done.
  assert (HndR : NoDup (code <$> scenario_feed)) by compute_done.
  destruct (create_stocks_complete scenario_feed 1%positive "wf" s _ Hs Hnd HndR)
    as (_ & Hseller & Hmarket).
  split.
  - apply (Hseller _ (Seller.create_stocks scenario_feed 1%positive s).2).
    vm_compute. reflexivity.
  - apply (Hmarket _ (Market.create_stocks scenario_feed 1%positive "wf" s).2).
    vm_compute. reflexivity.
Defined.

(** ** What a run adds to the log *)

Lemma emits_events {W A} (m : M W A) (Φ : list event → Prop) (s : state W) :
  emits m Φ → Φ (events_of m s).
Proof.
  intros Hm. destruct (Hm s) as (evs & Hlog & HΦ).
  unfold events_of. by rewrite Hlog, drop_app_length.
Qed.

Lemma emits_weaken {W A} (m : M W A) (Φ Ψ : list event → Prop) :
  emits m Φ → (∀ evs, Φ evs → Ψ evs) → emits m Ψ.
Proof. intros Hm HΦ s. destruct (Hm s) as (evs & ? & ?). eauto. Qed.

Lemma emits_bind {W A B} (m : M W A) (f : A → M W B)
    (Φ1 Φ2 Φ : list event → Prop) :
  emits m Φ1 → (∀ a, emits (f a) Φ2) →
  (∀ e1, Φ1 e1 → Φ e1) → (∀ e1 e2, Φ1 e1 → Φ2 e2 → Φ (e1 ++ e2)) →
  emits (bind m f) Φ.
Proof.
  intros Hm Hf H1 H12 s. unfold bind.
  destruct (Hm s) as (e1 & Hlog1 & He1).
  destruct (m s) as [[[a|e]|] s1]; simpl in *; [|eauto..].
  destruct (Hf a s1) as (e2 & Hlog2 & He2).
  exists (e1 ++ e2). rewrite Hlog2, Hlog1, app_assoc. eauto.
Qed.

Lemma emits_try_except {W A} (body : M W A) (h : exn → M W A)
    (Φ1 Φ2 Φ : list event → Prop) :
  emits body Φ1 → (∀ e, emits (h e) Φ2) →
  (∀ e1, Φ1 e1 → Φ e1) → (∀ e1 e2, Φ1 e1 → Φ2 e2 → Φ (e1 ++ e2)) →
  emits (try_except body h) Φ.
Proof.
  intros Hm Hh H1 H12 s. unfold try_except.
  destruct (Hm s) as (e1 & Hlog1 & He1).
  destruct (body s) as [[[a|e]|] s1]; simpl in *; [eauto| |eauto].
  destruct (Hh e s1) as (e2 & Hlog2 & He2).
  exists (e1 ++ e2). rewrite Hlog2, Hlog1, app_assoc. eauto.
Qed.

Lemma emits_silent {W A} (m : M W A) (Φ : list event → Prop) :
  (∀ s, log (m s).2 = log s) → Φ [] → emits m Φ.
Proof. intros Hm HΦ s. exists []. by rewrite Hm, app_nil_r. Qed.

Lemma emits_request {W A} (ev : event) (reply : W → result A * W)
    (Φ : list event → Prop) :
  Φ [ev] → emits (request ev reply) Φ.
Proof.
  intros HΦ s. exists [ev]. unfold request.
  by destruct (reply (world s)).
Qed.

Lemma emits_print {W} (error : option exn) (text : string) (Φ : list event → Prop) :
  Φ [EvPrint error text] → emits (print (W:=W) error text) Φ.
Proof. intros HΦ s. by exists [EvPrint error text]. Qed.

Lemma emits_report {W} (e : exn) (Φ : list event → Prop) :
  (∀ error text, Φ [EvPrint error text]) → emits (report (W:=W) e) Φ.
Proof. intros HΦ. destruct e; by apply emits_print. Qed.

(** A submission loop logs a prefix of its batches, all of them unless a
    request raises. *)
Lemma emits_for_each_request {W A} (ev : A → event)
    (reply : A → W → result unit * W) (l : list A) :
  emits (for_each l (fun x => request (ev x) (reply x)))
        (λ evs, ∃ j, evs = ev <$> take j l).
Proof.
  induction l as [|x l IH]; intros s.
  { exists []. split; [by rewrite app_nil_r|by exists 0]. }
  unfold for_each. rewrite for_fold_cons. unfold bind at 1, request at 1.
  destruct (reply x (world s)) as [[[]|e] w']; simpl.
  - destruct (IH (State (store s) w' (log s ++ [ev x]))) as (evs & Hlog & j & ->).
    unfold for_each in Hlog. simpl in Hlog.
    exists (ev x :: (ev <$> take j l)). rewrite Hlog, <- app_assoc.
    split; [done|]. by exists (S j).
  - exists [ev x]. split; [done|]. by exists 1.
Qed.

Global Instance closed_silent : Closed (λ evs, evs = []).
Proof. split; [done|]. by intros ? ? -> ->. Qed.

Global Instance closed_unbatched : Closed unbatched.
Proof.
  split; [done|]. unfold unbatched, ozon_stock_batches, ozon_price_batches,
    market_stock_batches, market_price_batches.
  intros e1 e2 (H1&H2&H3&H4) (H5&H6&H7&H8).
  by rewrite !omap_app, H1, H2, H3, H4, H5, H6, H7, H8.
Qed.

Section EmitsClosed.
Context {W : Type} (Φ : list event → Prop) `{!Closed Φ}.

Lemma emits_bind_closed {A B} (m : M W A) (f : A → M W B) :
  emits m Φ → (∀ a, emits (f a) Φ) → emits (bind m f) Φ.
Proof.
  intros Hm Hf. eapply emits_bind; [exact Hm|exact Hf|done|].
  intros e1 e2. apply closed_app.
Qed.

Lemma emits_for_fold_closed {A B} (l : list A) (body : B → A → M W B) :
  (∀ acc x, emits (body acc x) Φ) → ∀ acc, emits (for_fold l acc body) Φ.
Proof.
  intros Hbody. induction l as [|x l IH]; intros acc.
  - apply emits_silent; [done|apply closed_nil].
  - apply emits_bind_closed; [apply Hbody|apply IH].
Qed.

Lemma emits_ret {A} (a : A) : emits (ret (W:=W) a) Φ.
Proof. apply emits_silent; [done|apply closed_nil]. Qed.

Lemma emits_raise {A} (e : exn) : emits (raise (W:=W) (A:=A) e) Φ.
Proof. apply emits_silent; [done|apply closed_nil]. Qed.

Lemma emits_out_of_fuel {A} : emits (out_of_fuel (W:=W) (A:=A)) Φ.
Proof. apply emits_silent; [done|apply closed_nil]. Qed.

Lemma emits_lift {A} (r : result A) : emits (lift (W:=W) r) Φ.
Proof. destruct r; [apply emits_ret|apply emits_raise]. Qed.

Lemma emits_read (r : ref) : emits (read (W:=W) r) Φ.
Proof.
  apply emits_silent; [|apply closed_nil].
  intros s. unfold read. by destruct (store s !! r).
Qed.

Lemma emits_alloc (l : list string) : emits (alloc (W:=W) l) Φ.
Proof. apply emits_silent; [done|apply closed_nil]. Qed.

Lemma emits_remove (r : ref) (x : string) : emits (py_list_remove (W:=W) r x) Φ.
Proof.
  apply emits_silent; [|apply closed_nil].
  intros s. unfold py_list_remove.
  destruct (store s !! r) as [l|]; [|done]. by destruct (remove_first x l).
Qed.

Lemma emits_env_str `{!World W} (name : string) : emits (env_str name) Φ.
Proof. apply emits_silent; [done|apply closed_nil]. Qed.

Lemma emits_utcnow `{!World W} : emits utcnow Φ.
Proof. apply emits_silent; [done|apply closed_nil]. Qed.
End EmitsClosed.

(** One step of a proof that a computation only emits events of a closed
    kind: split binds and loops, close the primitives that log nothing, and
    case on the tests of the code. *)
Ltac emits_step :=
  first
    [ apply emits_bind_closed; [apply _| |intros ?]
    | apply emits_for_fold_closed; [apply _|intros ? ?]
    | apply emits_ret; apply _
    | apply emits_raise; apply _
    | apply emits_out_of_fuel; apply _
    | apply emits_lift; apply _
    | apply emits_read; apply _
    | apply emits_alloc; apply _
    | apply emits_remove; apply _
    | apply emits_env_str; apply _
    | apply emits_utcnow; apply _
    | progress case_bool_decide
    | match goal with
      | |- emits (match ?x with _ => _ end) _ => destruct x
      | |- emits (if ?b then _ else _) _ => destruct b
      end ].

Section Silent.
Context {W : Type} `{!World W} (Φ : list event → Prop) `{!Closed Φ}.

Lemma emits_seller_create_stocks (R : list watch) (r : ref) :
  emits (Seller.create_stocks (W:=W) R r) Φ.
Proof. unfold Seller.create_stocks. repeat emits_step. Qed.

Lemma emits_seller_create_prices (R : list watch) (r : ref) :
  emits (Seller.create_prices (W:=W) R r) Φ.
Proof. unfold Seller.create_prices. repeat emits_step. Qed.

Lemma emits_market_create_stocks (R : list watch) (r : ref) (wh : string) :
  emits (Market.create_stocks (W:=W) R r wh) Φ.
Proof. unfold Market.create_stocks. repeat emits_step. Qed.

End Silent.

(** *** Batches among the events *)

Lemma unbatched_app_l (Φ : list event → Prop) `{!Batchwise Φ} e1 e2 :
  unbatched e1 → Φ e2 → Φ (e1 ++ e2).
Proof.
  intros (H1&H2&H3&H4). apply batchwise;
    unfold ozon_stock_batches, ozon_price_batches, market_stock_batches,
      market_price_batches in *; by rewrite omap_app, ?H1, ?H2, ?H3, ?H4.
Qed.

Lemma unbatched_app_r (Φ : list event → Prop) `{!Batchwise Φ} e1 e2 :
  unbatched e2 → Φ e1 → Φ (e1 ++ e2).
Proof.
  intros (H1&H2&H3&H4). apply batchwise;
    unfold ozon_stock_batches, ozon_price_batches, market_stock_batches,
      market_price_batches in *;
    by rewrite omap_app, ?H1, ?H2, ?H3, ?H4, app_nil_r.
Qed.

Section EmitsBatchwise.
Context {W : Type} (Φ : list event → Prop) `{!Batchwise Φ}.

Lemma emits_bind_quiet {A B} (m : M W A) (f : A → M W B) :
  Φ [] → emits m unbatched → (∀ a, emits (f a) Φ) → emits (bind m f) Φ.
Proof.
  intros Hnil Hm Hf. eapply emits_bind; [exact Hm|exact Hf| |].
  - intros e1 He1. rewrite <- (app_nil_r e1). by apply unbatched_app_l.
  - intros e1 e2. by apply unbatched_app_l.
Qed.

Lemma emits_try_quiet {A} (body : M W A) (h : exn → M W A) :
  emits body Φ → (∀ e, emits (h e) unbatched) → emits (try_except body h) Φ.
Proof.
  intros Hm Hh. eapply emits_try_except; [exact Hm|exact Hh|done|].
  intros e1 e2 ? ?. by apply unbatched_app_r.
Qed.

End EmitsBatchwise.

Lemma chunked_nil {A} (n : Z) : chunked n (@nil (list A)).
Proof. by intros j c ?. Qed.

Lemma chunked_take {A} (n : Z) (cs : list (list A)) (j : nat) :
  chunked n cs → chunked n (take j cs).
Proof.
  intros Hcs i c Hi. apply lookup_take_Some in Hi as [Hi Hlt].
  destruct (Hcs i c Hi) as [Hle Hfull]. split; [done|].
  rewrite length_take. intros ?. apply Hfull. lia.
Qed.

Lemma divide_chunked {A} (payload : list A) (n : Z) (chunks : list (list A)) (j : nat) :
  (0 < n)%Z → divide payload n = Ok chunks → chunked n (take j chunks).
Proof.
  intros Hn Hdiv. rewrite divide_positive_step in Hdiv by done.
  injection Hdiv as <-. apply chunked_take.
  pose proof (range_up_chunks payload n Hn (length payload) 0 ltac:(lia)) as Hchunks.
  by destruct Hchunks as (_ & Hch & _).
Qed.

Lemma omap_fmap_Some {A B} (f : A → option B) (g : B → A) (l : list B) :
  (∀ x, f (g x) = Some x) → omap f (g <$> l) = l.
Proof.
  intros Hfg. induction l as [|x l IH]; [done|].
  rewrite fmap_cons. simpl. rewrite Hfg. f_equal. exact IH.
Qed.

Lemma omap_fmap_None {A B C} (f : A → option C) (g : B → A) (l : list B) :
  (∀ x, f (g x) = None) → omap f (g <$> l) = [].
Proof.
  intros Hfg. induction l as [|x l IH]; [done|].
  rewrite fmap_cons. simpl. rewrite Hfg. exact IH.
Qed.

(** The batches among the events of one submission loop. *)
Ltac batches_of_loop :=
  unfold ozon_stock_batches, ozon_price_batches, market_stock_batches,
    market_price_batches;
  rewrite ?omap_app;
  repeat first
    [ rewrite omap_fmap_Some by done
    | rewrite omap_fmap_None by done ].

(** *** The drivers, phase by phase *)

Section Drivers.
Context {W : Type} `{!World W}.

Lemma emits_seller_get_offer_ids (fuel : nat) (client_id seller_token : string) :
  emits (Seller.get_offer_ids (W:=W) fuel client_id seller_token) unbatched.
Proof.
  unfold Seller.get_offer_ids.
  apply emits_bind_closed; [apply _| |intros; apply emits_alloc; apply _].
  generalize (@nil ozon_product). generalize "".
  induction fuel as [|fuel IH]; intros last_id product_list; simpl.
  { apply emits_out_of_fuel, _. }
  apply emits_bind_closed; [apply _| |intros page].
  - by apply emits_request.
  - destruct (_ =? _)%Z; [apply emits_ret, _|apply IH].
Qed.

Lemma emits_market_get_offer_ids (fuel : nat) (campaign_id market_token : string) :
  emits (Market.get_offer_ids (W:=W) fuel campaign_id market_token) unbatched.
Proof.
  unfold Market.get_offer_ids.
  apply emits_bind_closed; [apply _| |intros; apply emits_alloc; apply _].
  generalize (@nil market_entry). generalize "".
  induction fuel as [|fuel IH]; intros page product_list; simpl.
  { apply emits_out_of_fuel, _. }
  apply emits_bind_closed; [apply _| |intros some_prod].
  - by apply emits_request.
  - destruct (nextPageToken some_prod) as [next|]; [|apply emits_ret, _].
    destruct (String.eqb next ""); [apply emits_ret, _|apply IH].
Qed.

Lemma emits_download_stock : emits (Seller.download_stock (W:=W)) unbatched.
Proof. by apply emits_request. Qed.

Lemma emits_report_unbatched (e : exn) : emits (report (W:=W) e) unbatched.
Proof. by apply emits_report. Qed.

End Drivers.

Section Uploads.
Context {W : Type} `{!World W}.





(** One campaign of [market.main]: its stock batches are chunks of 2000 and
    it submits no price batch; [rest] is what follows in the driver. *)
Lemma emits_market_campaign {B} (fuel : nat) (R : list watch)
    (campaign_id market_token warehouse_id : string) (rest : unit → M W B)
    (Φ2 : list event → Prop) :
  (∀ u, emits (rest u) Φ2) →
  emits
    (bind (Market.get_offer_ids fuel campaign_id market_token) (fun offer_ids =>
     bind (Market.create_stocks R offer_ids warehouse_id) (fun stocks =>
     bind (lift (divide stocks 2000)) (fun chunks =>
     bind (for_each chunks (fun some_stock =>
             Market.update_stocks some_stock campaign_id market_token)) rest))))
    (λ evs, ∃ e1 e2, evs = e1 ++ e2 ∧
                     chunked 2000 (market_stock_batches e1) ∧
                     market_price_batches e1 = [] ∧
                     (e2 = [] ∨ Φ2 e2)).
Proof.
  intros Hrest.
  set (Φ := λ evs, ∃ e1 e2, evs = e1 ++ e2 ∧
                     chunked 2000 (market_stock_batches e1) ∧
                     market_price_batches e1 = [] ∧
                     (e2 = [] ∨ Φ2 e2)).
  assert (Hpre : ∀ e1 e2, unbatched e1 → Φ e2 → Φ (e1 ++ e2)).
  { intros e1 e2 (_ & _ & Hs & Hp) (a & b & -> & Hsa & Hpa & Hb).
    exists (e1 ++ a), b. rewrite app_assoc. split; [done|].
    unfold market_price_batches, market_stock_batches in *.
    by rewrite !omap_app, Hs, Hp. }
  assert (Hnil : Φ []).
  { exists [], []. split; [done|]. split; [apply chunked_nil|]. split; [done|by left]. }
  assert (Hquiet : ∀ A C (m : M W A) (f : A → M W C),
             emits m unbatched → (∀ a, emits (f a) Φ) → emits (bind m f) Φ).
  { intros A C m f Hm Hf. eapply emits_bind; [exact Hm|exact Hf| |exact Hpre].
    intros e1 He1. rewrite <- (app_nil_r e1). by apply Hpre. }
  apply Hquiet; [apply emits_market_get_offer_ids|]. intros offer_ids.
  apply Hquiet; [apply emits_market_create_stocks, _|]. intros stocks.
  destruct (divide stocks 2000) as [chunks|e] eqn:Hdiv.
  - intros s. rewrite bind_lift_ok. revert s.
    eapply emits_bind; [apply emits_for_each_request|exact Hrest| |].
    + intros e1 [j ->].
      exists ((λ c, EvMarketUpdateStocks c campaign_id) <$> take j chunks), [].
      rewrite app_nil_r. split; [done|]. split; [|split; [|by left]].
      * batches_of_loop. by apply (divide_chunked stocks).
      * by batches_of_loop.
    + intros e1 e2 [j ->] He2.
      exists ((λ c, EvMarketUpdateStocks c campaign_id) <$> take j chunks), e2.
      split; [done|]. split; [|split; [|by right]].
      * batches_of_loop. by apply (divide_chunked stocks).
      * by batches_of_loop.
  - intros s. exists []. by rewrite app_nil_r.
Qed.

Lemma emits_market_main (fuel : nat) :
  emits (Market.main (W:=W) fuel)
    (λ evs, (∃ fbs dbs, market_stock_batches evs = fbs ++ dbs ∧
                        chunked 2000 fbs ∧ chunked 2000 dbs) ∧
            market_price_batches evs = []).
Proof.
  set (Ψ := λ evs, chunked 2000 (market_stock_batches evs) ∧
                   market_price_batches evs = []).
  set (Φ := λ evs, (∃ fbs dbs, market_stock_batches evs = fbs ++ dbs ∧
                        chunked 2000 fbs ∧ chunked 2000 dbs) ∧
            market_price_batches evs = []).
  assert (Batchwise Ψ) as HΨ.
  { intros e e' _ _ H3 H4. unfold Ψ. by rewrite H3, H4. }
  assert (Batchwise Φ) as HΦ.
  { intros e e' _ _ H3 H4. unfold Φ. by rewrite H3, H4. }
  assert (HΨnil : Ψ []) by (split; [apply chunked_nil|done]).
  assert (HΦnil : Φ []).
  { split; [|done]. exists [], []. split; [done|]. split; apply chunked_nil. }
  unfold Market.main.
  do 5 (apply emits_bind_quiet; [done|done|apply emits_env_str, _|intros ?]).
  apply emits_bind_quiet; [done|done|apply emits_download_stock|].
  intros watch_remnants.
  apply emits_try_quiet; [done| |apply emits_report_unbatched].
  eapply emits_weaken.
  { apply emits_market_campaign with (Φ2 := Ψ). intros _.
    apply emits_bind_quiet; [done|done|apply emits_ret, _|]. intros _.
    eapply emits_weaken.
    { apply emits_market_campaign with (Φ2 := λ evs, evs = []). intros _.
      repeat emits_step. }
    intros evs (e1 & e2 & -> & Hs & Hp & He2).
    assert (e2 = []) as -> by tauto. by rewrite app_nil_r. }
  intros evs (e1 & e2 & -> & Hs & Hp & [->|[Hs2 Hp2]]); unfold Φ.
  - rewrite app_nil_r. split; [|done].
    exists (market_stock_batches e1), []. rewrite app_nil_r.
    split; [done|]. split; [done|apply chunked_nil].
  - unfold market_stock_batches, market_price_batches in *.
    rewrite !omap_app, Hp, Hp2. split; [|done]. eauto.
Qed.
End Uploads.

Global Instance closed_Forall (P : event → Prop) : Closed (Forall P).
Proof. split; [constructor|]. intros e1 e2 H1 H2. by apply Forall_app. Qed.

(** *** The two campaigns of [market.main]

    Each campaign is served by a submission of its own: the listing requests
    of the campaign, then its stock batches. *)

Section Campaigns.
Context {W : Type} `{!World W}.

Local Abbreviation listed c :=
  (Forall (λ ev, ∃ page, ev = EvMarketProductList page c)).





End Campaigns.

(** A batch shorter than the chunk size, followed by another batch without
    a listing request in between, is no part of two series. *)
Lemma market_series_apart (n : Z) (fbs dbs campaign : string)
    (b1 b2 : list market_stock) (first second : list event) :
  (Z.of_nat (length b1) < n)%Z →
  [EvMarketProductList "" campaign; EvMarketUpdateStocks b1 campaign;
   EvMarketUpdateStocks b2 campaign] = first ++ second →
  market_series n fbs first → market_series n dbs second → False.
Proof.
  intros Hlt Heq (l1 & bs1 & -> & Hl1 & Hne1 & Hch1)
                 (l2 & bs2 & -> & Hl2 & Hne2 & Hch2).
  assert (Hquiet : ∀ c l, Forall (λ ev, ∃ page, ev = EvMarketProductList page c) l →
                          market_stock_batches l = []).
  { intros c l Hl. induction Hl as [|ev l [page ->] _ IH]; [done|exact IH]. }
  assert (Hbatches : [b1; b2] = bs1 ++ bs2).
  { apply (f_equal market_stock_batches) in Heq. revert Heq.
    unfold market_stock_batches. rewrite !omap_app.
    rewrite !omap_fmap_Some by done.
    fold (market_stock_batches l1) (market_stock_batches l2).
    by rewrite (Hquiet _ _ Hl1), (Hquiet _ _ Hl2). }
  destruct bs1 as [|x [|y bs1]]; simplify_eq/=.
  - destruct (Hch2 0 _ eq_refl) as [_ Hfull]. specialize (Hfull ltac:(simpl; lia)). lia.
  - destruct l2 as [|ev l2]; [by destruct Hne2|].
    destruct l1 as [|ev1 l1]; [by destruct Hne1|].
    apply (f_equal length) in Heq. rewrite !length_app in Heq. simpl in Heq. lia.
  - destruct (Hch1 0 _ eq_refl) as [_ Hfull]. specialize (Hfull ltac:(simpl; lia)). lia.
Qed.

(** ** Batch sizes *)



(** ** The price payload of [seller.main] *)

Section Triples.
Context {W : Type} (Φ : list event → Prop) `{!Closed Φ}.

Lemma triple_intro {A} (P : state W → Prop) (m : M W A) (Q : A → state W → Prop) :
  emits m Φ → (∀ s a, P s → (m s).1 = Some (Ok a) → Q a (m s).2) →
  triple P m Q Φ.
Proof.
  intros Hm HQ s HP. destruct (Hm s) as (evs & Hlog & Hevs).
  exists evs. eauto.
Qed.

Lemma triple_bind {A B} (P : state W → Prop) (m : M W A) (f : A → M W B)
    (Q : A → state W → Prop) (Q' : B → state W → Prop) :
  triple P m Q Φ → (∀ a, triple (Q a) (f a) Q' Φ) →
  triple P (bind m f) Q' Φ.
Proof.
  intros Hm Hf s HP. unfold bind.
  destruct (Hm s HP) as (e1 & Hlog1 & He1 & HQ).
  destruct (m s) as [[[a|e]|] s1]; simpl in *.
  - destruct (Hf a s1 (HQ a eq_refl)) as (e2 & Hlog2 & He2 & HQ').
    exists (e1 ++ e2). rewrite Hlog2, Hlog1, app_assoc.
    split; [done|]. split; [by apply closed_app|done].
  - exists e1. by repeat split.
  - exists e1. by repeat split.
Qed.

Lemma triple_try_except {A} (P : state W → Prop) (body : M W A)
    (h : exn → M W A) (Q : A → state W → Prop) :
  triple P body Q Φ → (∀ e, emits (h e) Φ) →
  triple P (try_except body h) (λ _ _, True) Φ.
Proof.
  intros Hm Hh s HP. unfold try_except.
  destruct (Hm s HP) as (e1 & Hlog1 & He1 & _).
  destruct (body s) as [[[a|e]|] s1]; simpl in *; [by exists e1| |by exists e1].
  destruct (Hh e s1) as (e2 & Hlog2 & He2).
  exists (e1 ++ e2). rewrite Hlog2, Hlog1, app_assoc.
  split; [done|]. split; [by apply closed_app|done].
Qed.

Lemma triple_events {A} (P : state W → Prop) (m : M W A)
    (Q : A → state W → Prop) (s : state W) :
  triple P m Q Φ → P s → Φ (events_of m s).
Proof.
  intros Hm HP. destruct (Hm s HP) as (evs & Hlog & Hevs & _).
  unfold events_of. by rewrite Hlog, drop_app_length.
Qed.
End Triples.

Lemma for_each_request_store {W A} (ev : A → event)
    (reply : A → W → result unit * W) (l : list A) (s : state W) :
  store (for_each l (fun x => request (ev x) (reply x)) s).2 = store s.
Proof.
  revert s. induction l as [|x l IH]; intros s; [done|].
  unfold for_each. rewrite for_fold_cons. unfold bind at 1, request at 1.
  destruct (reply x (world s)) as [[[]|e] w']; simpl; [|done].
  apply (IH (State (store s) w' (log s ++ [ev x]))).
Qed.

Global Instance closed_no_ozon_price :
  Closed (λ evs, ozon_price_batches evs = []).
Proof.
  split; [done|]. unfold ozon_price_batches.
  intros e1 e2 H1 H2. by rewrite omap_app, H1, H2.
Qed.

Section SellerMain.
Context {W : Type} `{!World W}.

Lemma seller_get_offer_ids_alloc (fuel : nat) (client_id seller_token : string)
    (s s1 : state W) (r : ref) :
  Seller.get_offer_ids fuel client_id seller_token s = (Some (Ok r), s1) →
  is_Some (store s1 !! r).
Proof.
  unfold Seller.get_offer_ids, bind.
  destruct (Seller.get_offer_ids_loop _ _ _ _ _ s) as [[[l|e]|] s0]; [|done..].
  unfold alloc. intros [= <- <-]. simpl. rewrite lookup_insert_eq. eauto.
Qed.

(** After [create_stocks] on offer ids without duplicates, [create_prices]
    finds no code of the feed in the list. *)
Lemma seller_prices_after_stocks (R : list watch) (r : ref) (s s1 : state W)
    (ids : list string) (stocks : list ozon_stock) :
  store s !! r = Some ids → NoDup ids →
  Seller.create_stocks R r s = (Some (Ok stocks), s1) →
  store s1 !! r = Some (filter (λ x, x ∉ code <$> R) ids) ∧
  Seller.create_prices R r s1 = (Some (Ok []), s1).
Proof.
  intros Hs Hnd Hrun.
  destruct (seller_create_stocks_run R r s ids Hs) as (ids' & Hrun' & Hok).
  rewrite Hrun in Hrun'.
  destruct (collect ozon_stock_item (matched R ids)) as [es|] eqn:Hc; [|done].
  simpl in Hrun'. injection Hrun' as _ ->.
  rewrite (Hok es eq_refl), leftover_NoDup by done.
  split; [apply store_set_store|].
  rewrite (seller_create_prices_run R r _ _ (store_set_store _ _ _)).
  rewrite filter_none; [done|].
  intros w Hw [Hnot _]%list_elem_of_filter. apply Hnot.
  by apply list_elem_of_fmap_2.
Qed.
End SellerMain.

Section SellerMainPrices.
Context {W : Type} `{!World W}.

Lemma seller_main_no_price_batch (fuel : nat) (s : state W) :
  (∀ client_id seller_token r s1 ids,
     Seller.get_offer_ids fuel client_id seller_token s = (Some (Ok r), s1) →
     store s1 !! r = Some ids → NoDup ids) →
  ozon_price_batches (events_of (Seller.main fuel) s) = [].
Proof.
  intros Hnd. set (Φ := λ evs, ozon_price_batches evs = []).
  assert (Hquiet : ∀ evs, unbatched evs → Φ evs) by (by intros evs (?&?&?&?)).
  apply (triple_events Φ (λ s', s' = s) _ (λ _ _, True)); [|done].
  unfold Seller.main.
  apply triple_bind with (Q := λ _ s', s' = s); [apply _| |intros seller_token].
  { apply triple_intro; [apply emits_env_str, _|]. by intros s0 a -> _. }
  apply triple_bind with (Q := λ _ s', s' = s); [apply _| |intros client_id].
  { apply triple_intro; [apply emits_env_str, _|]. by intros s0 a -> _. }
  apply triple_try_except with (Q := λ _ _, True); [apply _| |].
  2:{ intros e. by apply emits_report. }
  apply triple_bind
    with (Q := λ r s1, ∃ ids, store s1 !! r = Some ids ∧ NoDup ids);
    [apply _| |intros r].
  { apply triple_intro.
    - eapply emits_weaken; [apply emits_seller_get_offer_ids|exact Hquiet].
    - intros s0 r -> Hr.
      destruct (Seller.get_offer_ids fuel client_id seller_token s)
        as [o s1] eqn:Hgo. simpl in *. subst o.
      destruct (seller_get_offer_ids_alloc _ _ _ _ _ _ Hgo) as [ids Hids].
      exists ids. split; [done|]. by eapply Hnd. }
  apply triple_bind
    with (Q := λ _ s1, ∃ ids, store s1 !! r = Some ids ∧ NoDup ids);
    [apply _| |intros R].
  { apply triple_intro.
    - eapply emits_weaken; [apply emits_download_stock|exact Hquiet].
    - intros s0 R Hs0 _. unfold Seller.download_stock, request.
      by destruct (feed_reply (world s0)). }
  apply triple_bind
    with (Q := λ _ s1, ∃ ids, store s1 !! r =
                              Some (filter (λ x, x ∉ code <$> R) ids));
    [apply _| |intros stocks].
  { apply triple_intro; [apply emits_seller_create_stocks, _|].
    intros s0 stocks (ids & Hs0 & Hnd0) Hrun.
    destruct (Seller.create_stocks R r s0) as [o s1] eqn:Hcs. simpl in *. subst o.
    exists ids. by eapply seller_prices_after_stocks. }
  apply triple_bind
    with (Q := λ _ s1, ∃ ids, store s1 !! r =
                              Some (filter (λ x, x ∉ code <$> R) ids));
    [apply _| |intros chunks].
  { apply triple_intro; [apply emits_lift, _|].
    intros s0 a Hs0 _. by destruct (divide stocks 100). }
  apply triple_bind
    with (Q := λ _ s1, ∃ ids, store s1 !! r =
                              Some (filter (λ x, x ∉ code <$> R) ids));
    [apply _| |intros _].
  { apply triple_intro.
    - eapply emits_weaken; [apply emits_for_each_request|].
      intros evs [j ->]. unfold Φ. by batches_of_loop.
    - intros s0 a Hs0 _. unfold Seller.update_stocks.
      by rewrite for_each_request_store. }
  apply triple_bind with (Q := λ prices _, prices = []);
    [apply _| |intros prices].
  { apply triple_intro; [apply emits_seller_create_prices, _|].
    intros s0 prices (ids & Hs0). rewrite (seller_create_prices_run R r s0 _ Hs0).
    rewrite filter_none; [by intros [= <-]|].
    intros w Hw [Hnot _]%list_elem_of_filter. apply Hnot.
    by apply list_elem_of_fmap_2. }
  intros s0 ->. exists []. by rewrite app_nil_r.
Qed.
End SellerMainPrices.

(** C3: when the list of offer ids has no duplicates, [create_prices] called
    on it after [create_stocks] (same feed, same list) returns the empty
    payload; and a run of [seller.main] in which the listing names no offer
    twice submits no price batch at all. *)
Theorem seller_prices_after_stocks_empty {W} `{!World W} :
  (∀ (R : list watch) (r : ref) (s s1 : state W) (ids : list string)
     (stocks : list ozon_stock),
     store s !! r = Some ids → NoDup ids →
     Seller.create_stocks R r s = (Some (Ok stocks), s1) →
     Seller.create_prices R r s1 = (Some (Ok []), s1)) ∧
  (∀ (fuel : nat) (s : state W),
     (∀ client_id seller_token r s1 ids,
        Seller.get_offer_ids fuel client_id seller_token s = (Some (Ok r), s1) →
        store s1 !! r = Some ids → NoDup ids) →
     ozon_price_batches (events_of (Seller.main fuel) s) = []).
Proof.
  split.
  - intros R r s s1 ids stocks Hs Hnd Hrun.
    by destruct (seller_prices_after_stocks R r s s1 ids stocks Hs Hnd Hrun).
  - apply seller_main_no_price_batch.
Qed.

Lemma seller_prices_after_stocks_empty_witness :
  (let s := State {[1%positive := ["001"; "002"]]} scenario [] in
   let s1 := (Seller.create_stocks scenario_feed 1%positive s).2 in
   Seller.create_prices scenario_feed 1%positive s1 = (Some (Ok []), s1)) ∧
  ozon_price_batches (events_of (Seller.main 5) (initial scenario)) = [].
Proof.
  destruct (seller_prices_after_stocks_empty (W:=script)) as [Hfun Hmain].
  split.
  - intros s s1.
    apply (Hfun scenario_feed 1%positive s s1 ["001"; "002"]
             [OzonStock "001" 10; OzonStock "002" 0]).
    + reflexivity.
    + compute_done.
    + vm_compute. reflexivity.
  - apply Hmain. intros client_id seller_token r s1 ids Hgo Hs.
    vm_compute in Hgo. injection Hgo as <- <-.
    vm_compute in Hs. injection Hs as <-. compute_done.
Defined.

(** ** What [create_stocks] does to the caller's list *)

(** C9, at a list that names an offer twice: one row of the feed takes one
    of the two occurrences out, so the code of a matched record is still in
    the caller's list afterwards; the list with the matched ids removed would
    be empty. *)
Lemma create_stocks_duplicate_counterexample :
  let s := State {[1%positive := ["001"; "001"]]} scenario [] in
  (Seller.create_stocks scenario_feed 1%positive s).1 =
    Some (Ok [OzonStock "001" 10; OzonStock "001" 0]) ∧
  store (Seller.create_stocks scenario_feed 1%positive s).2 !! 1%positive =
    Some ["001"] ∧
  filter (λ x, x ∉ code <$> scenario_feed) ["001"; "001"] = [].
Proof. vm_compute. by repeat split. Qed.

(** C9 (amended): when [create_stocks] of either module returns, the caller's
    list holds what the first loop leaves: every feed record whose code is
    still in the list has taken the first occurrence of that code out.  The
    list is a sublist of the original one in which every id without a feed
    record remains, in the original order, and for a list without duplicates
    it is the original list without the ids matched by the feed.  Nothing
    else changes: the other lists of the store, the world and the log are
    as before. *)
Theorem create_stocks_mutates_offer_ids {W} `{!World W} (R : list watch) (r : ref)
    (warehouse_id : string) (s : state W) (ids : list string) :
  store s !! r = Some ids →
  (∀ stocks s', Seller.create_stocks R r s = (Some (Ok stocks), s') →
     store s' = <[r := leftover R ids]> (store s) ∧
     world s' = world s ∧ log s' = log s) ∧
  (∀ stocks s', Market.create_stocks R r warehouse_id s = (Some (Ok stocks), s') →
     store s' = <[r := leftover R ids]> (store s) ∧
     world s' = world s ∧ log s' = log s) ∧
  leftover R ids `sublist_of` ids ∧
  filter (λ x, x ∉ code <$> R) (leftover R ids) = filter (λ x, x ∉ code <$> R) ids ∧
  (NoDup ids → leftover R ids = filter (λ x, x ∉ code <$> R) ids).
Proof.
  intros Hs. split; [|split; [|split; [|split]]].
  - intros stocks s' Hrun.
    destruct (seller_create_stocks_run R r s ids Hs) as (ids' & Hrun' & Hok).
    rewrite Hrun in Hrun'.
    destruct (collect ozon_stock_item (matched R ids)) as [es|]; [|done].
    injection Hrun' as _ ->. by rewrite (Hok es eq_refl).
  - intros stocks s' Hrun.
    destruct (market_create_stocks_run R r warehouse_id s ids Hs)
      as (ids' & Hrun' & Hok).
    rewrite Hrun in Hrun'.
    destruct (collect _ (matched R ids)) as [es|]; [|done].
    injection Hrun' as _ ->. by rewrite (Hok es eq_refl).
  - apply leftover_sublist.
  - apply leftover_unmatched.
  - apply leftover_NoDup.
Qed.

Lemma create_stocks_mutates_offer_ids_witness :
  let s := State {[1%positive := ["001"; "002"]]} scenario [] in
  store (Seller.create_stocks scenario_feed 1%positive s).2
    = <[1%positive := leftover scenario_feed ["001"; "002"]]> (store s) ∧
  leftover scenario_feed ["001"; "002"] = ["002"].
Proof.
  intros s.
  destruct (create_stocks_mutates_offer_ids scenario_feed 1%positive "wf" s
              ["001"; "002"] eq_refl) as (Hseller & _ & _ & _ & Hnd).
  split.
  - apply (Hseller [OzonStock "001" 10; OzonStock "002" 0]).
    vm_compute. reflexivity.
  - rewrite Hnd by compute_done. vm_compute. reflexivity.
Defined.

(** ** The price payload *)

(** C10: the price payload returned by [create_prices] of either module has
    one entry for each feed record whose code is in the list of offer ids,
    in the order of the feed, and no other entry, so none for an offer id
    without a record; a feed record whose code is not in the list has no
    entry in the price payload, and none in the stock payload either.
    [create_prices] returns as soon as the prices of the matching records
    can be converted, and leaves the state as it was. *)
Theorem create_prices_matched {W} `{!World W} (R : list watch) (r : ref)
    (warehouse_id : string) (s : state W) (ids : list string) :
  store s !! r = Some ids →
  ((∀ w, w ∈ R → code w ∈ ids → ∃ c, price_conversion (Tsena w) = Ok c) →
     ∃ prices, Seller.create_prices R r s = (Some (Ok prices), s)) ∧
  ((∀ w, w ∈ R → code w ∈ ids →
      ∃ c v, price_conversion (Tsena w) = Ok c ∧ py_int (PyStr c) = Ok v) →
     ∃ prices, Market.create_prices R r s = (Some (Ok prices), s)) ∧
  (∀ prices s', Seller.create_prices R r s = (Some (Ok prices), s') →
     s' = s ∧
     price_offer_id <$> prices = code <$> filter (λ w, code w ∈ ids) R ∧
     Forall2 (λ w p, ∃ c, price_conversion (Tsena w) = Ok c ∧
                          p = OzonPrice "UNKNOWN" "RUB" (code w) "0" c)
             (filter (λ w, code w ∈ ids) R) prices) ∧
  (∀ prices s', Market.create_prices R r s = (Some (Ok prices), s') →
     s' = s ∧
     id <$> prices = code <$> filter (λ w, code w ∈ ids) R ∧
     Forall2 (λ w p, ∃ c v, price_conversion (Tsena w) = Ok c ∧
                            py_int (PyStr c) = Ok v ∧
                            p = MarketPrice (code w) (MarketPriceValue v "RUR"))
             (filter (λ w, code w ∈ ids) R) prices) ∧
  (∀ stocks s', Seller.create_stocks R r s = (Some (Ok stocks), s') →
     ∀ w, w ∈ R → code w ∉ ids → code w ∉ stock_offer_id <$> stocks) ∧
  (∀ stocks s', Market.create_stocks R r warehouse_id s = (Some (Ok stocks), s') →
     ∀ w, w ∈ R → code w ∉ ids → code w ∉ sku <$> stocks).
Proof.
  intros Hs.
  rewrite (seller_create_prices_run R r s ids Hs).
  rewrite (market_create_prices_run R r s ids Hs).
  split; [|split; [|split; [|split; [|split]]]].
  - intros Hconv.
    destruct (collect_ok ozon_price_item (filter (λ w, code w ∈ ids) R))
      as [prices ->]; [|by eauto].
    intros w [Hin Hw]%list_elem_of_filter. destruct (Hconv w Hw Hin) as [c Hc].
    unfold ozon_price_item. rewrite Hc. eauto.
  - intros Hconv.
    destruct (collect_ok market_price_item (filter (λ w, code w ∈ ids) R))
      as [prices ->]; [|by eauto].
    intros w [Hin Hw]%list_elem_of_filter.
    destruct (Hconv w Hw Hin) as (c & v & Hc & Hv).
    unfold market_price_item. rewrite Hc, Hv. eauto.
  - intros prices s' [= Hc <-]. apply collect_items in Hc. split; [done|].
    assert (Hall : Forall2 (λ w p, ∃ c, price_conversion (Tsena w) = Ok c ∧
                      p = OzonPrice "UNKNOWN" "RUB" (code w) "0" c)
                    (filter (λ w, code w ∈ ids) R) prices).
    { eapply Forall2_impl; [exact Hc|]. simpl. intros w p Hw.
      unfold ozon_price_item in Hw.
      destruct (price_conversion (Tsena w)) as [c|]; [|done].
      simpl in Hw. simplify_eq. eauto. }
    split; [|done]. clear Hc.
    induction Hall as [|w p ws ps (c & _ & ->) _ IH]; [done|].
    rewrite !fmap_cons. simpl. by f_equal.
  - intros prices s' [= Hc <-]. apply collect_items in Hc. split; [done|].
    assert (Hall : Forall2 (λ w p, ∃ c v, price_conversion (Tsena w) = Ok c ∧
                      py_int (PyStr c) = Ok v ∧
                      p = MarketPrice (code w) (MarketPriceValue v "RUR"))
                    (filter (λ w, code w ∈ ids) R) prices).
    { eapply Forall2_impl; [exact Hc|]. simpl. intros w p Hw.
      unfold market_price_item in Hw.
      destruct (price_conversion (Tsena w)) as [c|]; [|done].
      destruct (py_int (PyStr c)) as [v|] eqn:Hv; [|done].
      simpl in Hw. simplify_eq. eauto. }
    split; [|done]. clear Hc.
    induction Hall as [|w p ws ps (c & v & _ & _ & ->) _ IH]; [done|].
    rewrite !fmap_cons. simpl. by f_equal.
  - intros stocks s' Hrun w Hw Hnot.
    destruct (seller_create_stocks_run R r s ids Hs) as (ids' & Hrun' & _).
    rewrite Hrun in Hrun'.
    destruct (collect ozon_stock_item (matched R ids)) as [es|] eqn:Hc; [|done].
    injection Hrun' as -> _.
    by rewrite (stock_payload_ids stock_offer_id OzonStock R ids es).
  - intros stocks s' Hrun w Hw Hnot.
    destruct (market_create_stocks_run R r warehouse_id s ids Hs)
      as (ids' & Hrun' & _).
    rewrite Hrun in Hrun'.
    destruct (collect (market_stock_item warehouse_id (clock_utcnow (world s)))
                (matched R ids)) as [es|] eqn:Hc; [|done].
    injection Hrun' as -> _.
    by rewrite (stock_payload_ids sku (market_stock_entry _ _) R ids es).
Qed.

Lemma create_prices_matched_witness :
  let s := State {[1%positive := ["001"; "002"]]} scenario [] in
  (∃ prices, Seller.create_prices scenario_feed 1%positive s = (Some (Ok prices), s)) ∧
  id <$> [MarketPrice "001" (MarketPriceValue 5990 "RUR")] =
    code <$> filter (λ w, code w ∈ ["001"; "002"]) scenario_feed.
Proof.
  intros s.
  destruct (create_prices_matched scenario_feed 1%positive "wf" s
              ["001"; "002"] eq_refl) as (Hseller & _ & _ & Hmarket & _).
  split.
  - apply Hseller. intros w Hw _.
    apply list_elem_of_singleton in Hw as ->. by eexists.
  - apply (Hmarket _ s). vm_compute. reflexivity.
Defined.

(** ** The drivers *)

(** C2, evaluated: [market.main] never submits a price batch, in any world:
    [upload_prices] is an [async def] whose coroutine is built and dropped.
    In the scenario of the specification its run lists the offers of each
    campaign and submits the stocks, and that is all, although awaiting the
    coroutine would submit the price of "001".  [seller.main] in the same
    scenario submits the stocks and no price either: [create_prices] is
    given the list that [create_stocks] has just emptied of the matched ids,
    whereas on the ids as listed it yields the price of "001". *)
Theorem main_price_submission_missing :
  (∀ W (HW : World W) (fuel : nat) (s : state W),
     market_price_batches (events_of (Market.main fuel) s) = []) ∧
  events_of (Market.main 5) (initial scenario) =
    [EvDownloadStock;
     EvMarketProductList "" "fbs";
     EvMarketUpdateStocks
       [market_stock_entry "wf" "2020-10-10T10:00:00Z" "001" 10;
        market_stock_entry "wf" "2020-10-10T10:00:00Z" "002" 0] "fbs";
     EvMarketProductList "" "dbs";
     EvMarketUpdateStocks
       [market_stock_entry "wd" "2020-10-10T10:00:00Z" "001" 10;
        market_stock_entry "wd" "2020-10-10T10:00:00Z" "002" 0] "dbs"] ∧
  market_price_batches
    (events_of (await (Market.upload_prices 5 scenario_feed "fbs" "m"))
               (initial scenario)) =
    [[MarketPrice "001" (MarketPriceValue 5990 "RUR")]] ∧
  events_of (Seller.main 5) (initial scenario) =
    [EvOzonProductList "" "c";
     EvDownloadStock;
     EvOzonUpdateStocks [OzonStock "001" 10; OzonStock "002" 0] "c"] ∧
  (Seller.create_prices scenario_feed 1%positive
     (State {[1%positive := ["001"; "002"]]} scenario [])).1 =
    Some (Ok [OzonPrice "UNKNOWN" "RUB" "001" "0" "5990"]).
Proof.
  split; [|by vm_compute].
  intros W HW fuel s.
  apply (emits_events _ _ s (emits_market_main fuel)).
Qed.

Lemma try_report_returns {W} (body : M W unit) (s : state W) (e : exn) :
  (try_except body report s).1 ≠ Some (Raise e).
Proof.
  unfold try_except. destruct (body s) as [[[[]|e']|] s']; [done| |done].
  by destruct e'.
Qed.

(** C8, evaluated: with the feed site unreachable, the ConnectionError of
    [download_stock] leaves [market.main] uncaught and nothing is printed,
    because the download stands before the [try]; [seller.main], where the
    download stands inside the [try], prints the error and returns.  In
    general no exception leaves [seller.main] but that of a missing
    environment variable, and none leaves [market.main] but that and the
    exception of the feed download. *)
Theorem market_main_feed_error_escapes :
  Market.main 5 (initial feed_down) =
    (Some (Raise ConnectionError), State ∅ feed_down [EvDownloadStock]) ∧
  (Seller.main 5 (initial feed_down)).1 = Some (Ok tt) ∧
  events_of (Seller.main 5) (initial feed_down) =
    [EvOzonProductList "" "c"; EvDownloadStock;
     EvPrint (Some ConnectionError) "Ошибка соединения"] ∧
  (∀ W (HW : World W) (fuel : nat) (s : state W) (e : exn),
     (Seller.main fuel s).1 = Some (Raise e) →
     ∃ name, env_lookup name (world s) = Raise e) ∧
  (∀ W (HW : World W) (fuel : nat) (s : state W) (e : exn),
     (Market.main fuel s).1 = Some (Raise e) →
     (∃ name, env_lookup name (world s) = Raise e) ∨
     (feed_reply (world s)).1 = Raise e).
Proof.
  split; [by vm_compute|]. split; [by vm_compute|]. split; [by vm_compute|].
  split.
  - intros W HW fuel s e. unfold Seller.main, bind at 1 2, env_str.
    destruct (env_lookup "SELLER_TOKEN" (world s)) as [tok|e1] eqn:H1;
      [|intros [= <-]; eauto].
    destruct (env_lookup "CLIENT_ID" (world s)) as [cid|e2] eqn:H2;
      [|intros [= <-]; eauto].
    intros Hr. by apply try_report_returns in Hr.
  - intros W HW fuel s e. unfold Market.main, env_str.
    unfold bind at 1. destruct (env_lookup "MARKET_TOKEN" (world s)) eqn:H1;
      [|intros [= <-]; eauto].
    unfold bind at 1. destruct (env_lookup "FBS_ID" (world s)) eqn:H2;
      [|intros [= <-]; eauto].
    unfold bind at 1. destruct (env_lookup "DBS_ID" (world s)) eqn:H3;
      [|intros [= <-]; eauto].
    unfold bind at 1. destruct (env_lookup "WAREHOUSE_FBS_ID" (world s)) eqn:H4;
      [|intros [= <-]; eauto].
    unfold bind at 1. destruct (env_lookup "WAREHOUSE_DBS_ID" (world s)) eqn:H5;
      [|intros [= <-]; eauto].
    unfold bind at 1, Seller.download_stock, request.
    destruct (feed_reply (world s)) as [[R|e'] w'] eqn:Hfeed.
    + intros Hr. by apply try_report_returns in Hr.
    + intros [= <-]. by right.
Qed.

Lemma market_main_feed_error_escapes_witness :
  (∃ name, env_lookup name (world (initial unconfigured)) = Raise EnvError) ∧
  ((∃ name, env_lookup name (world (initial feed_down)) = Raise ConnectionError) ∨
   (feed_reply (world (initial feed_down))).1 = Raise ConnectionError).
Proof.
  destruct market_main_feed_error_escapes as (_ & _ & _ & Hseller & Hmarket).
  split.
  - apply (Hseller script _ 5 (initial unconfigured)). reflexivity.
  - apply (Hmarket script _ 5 (initial feed_down)). reflexivity.
Defined.


(** * Further properties of the code *)

(** ** [divide] outside its intended use *)

(** X1: [divide] raises ValueError for the chunk size 0 whatever the list, and
    for a negative chunk size it yields no chunk at all, so the elements are
    dropped without an error; an empty list gives no chunk, and a list no
    longer than the chunk size gives the list itself as the only chunk. *)
Theorem divide_edge_cases {A} (lst : list A) :
  divide lst 0 = Raise ValueError ∧
  (∀ n, (n < 0)%Z → divide lst n = Ok []) ∧
  (∀ n, (0 < n)%Z → divide (@nil A) n = Ok []) ∧
  (∀ n, lst ≠ [] → (Z.of_nat (length lst) ≤ n)%Z → divide lst n = Ok [lst]).
Proof.
  split; [reflexivity|]. split; [|split].
  - intros n Hn. unfold divide, py_range.
    destruct (Z.eqb_spec n 0) as [?|_]; [lia|].
    destruct (Z.ltb_spec 0 n) as [?|_]; [lia|].
    by replace (Z.to_nat (0 - Z.of_nat (length lst))) with 0 by lia.
  - intros n Hn. by rewrite divide_positive_step.
  - intros n Hne Hlen.
    destruct lst as [|x lst]; [done|]. cbn [length] in Hlen.
    assert (Hn : (0 < n)%Z) by lia.
    rewrite divide_positive_step by done. f_equal.
    cbn [length range_up].
    destruct (Z.ltb_spec 0 (Z.of_nat (S (length lst)))) as [_|?]; [|lia].
    cbn [map].
    pose proof (py_slice_chunk (x :: lst) n Hn 0 ltac:(simpl; lia)) as Hslice.
    change (Z.of_nat 0) with 0%Z in Hslice. rewrite Hslice.
    rewrite drop_0, take_ge by (simpl; lia). f_equal.
    destruct (length lst) as [|k]; [done|]. cbn [range_up].
    by destruct (Z.ltb_spec (0 + n) (Z.of_nat (S (S k)))) as [?|_]; [lia|].
Qed.

Lemma divide_edge_cases_witness :
  divide ["a"; "b"; "c"] (-2) = Ok [] ∧
  divide ["a"; "b"; "c"] 5 = Ok [["a"; "b"; "c"]].
Proof.
  destruct (divide_edge_cases ["a"; "b"; "c"]) as (_ & Hneg & _ & Hone).
  split; [apply Hneg; lia|apply Hone; [done|simpl; lia]].
Defined.

(** ** Quantities that are numbers *)

(** X2: when the quantity cell holds an integer, the quantity rule never
    raises: the integer 1 becomes 0 and every other integer is kept. *)
Theorem stock_of_count_integer (z : Z) :
  stock_of_count (PyInt z) = Ok (if decide (z = 1%Z) then 0%Z else z).
Proof.
  unfold stock_of_count. simpl py_str.
  pose proof (parse_int_str_of_int z) as Hp.
  destruct (String.eqb_spec (str_of_int z) ">10") as [Heq|_].
  { rewrite Heq in Hp. discriminate Hp. }
  destruct (String.eqb_spec (str_of_int z) "1") as [Heq|Hne].
  - rewrite Heq in Hp. vm_compute in Hp. injection Hp as <-. done.
  - case_decide as Hz; [|done]. subst z. by destruct Hne.
Qed.

(** ** The output of [price_conversion] *)

Lemma prefix_before_point_app (s t : string) :
  (∀ c, c ∈ list_ascii_of_string s → c ≠ "."%char) →
  prefix_before_point (s +:+ String "." t) = s.
Proof.
  induction s as [|c s IH]; intros Hs; [done|]. simpl.
  destruct (Ascii.eqb_spec c ".") as [->|_]; [by destruct (Hs "."%char); [left|]|].
  rewrite IH; [done|]. intros c' Hc'. apply Hs. by right.
Qed.

Lemma prefix_before_point_id (s : string) :
  (∀ c, c ∈ list_ascii_of_string s → c ≠ "."%char) → prefix_before_point s = s.
Proof.
  induction s as [|c s IH]; intros Hs; [done|]. simpl.
  destruct (Ascii.eqb_spec c ".") as [->|_]; [by destruct (Hs "."%char); [left|]|].
  rewrite IH; [done|]. intros c' Hc'. apply Hs. by right.
Qed.

Lemma re_sub_non_digit_digits (s : string) :
  Forall (λ c, is_digit c = true) (list_ascii_of_string (re_sub_non_digit s)).
Proof.
  induction s as [|c s IH]; simpl; [constructor|].
  destruct (is_digit c) eqn:Hc; [by constructor|done].
Qed.

Lemma re_sub_non_digit_id (s : string) :
  Forall (λ c, is_digit c = true) (list_ascii_of_string s) → re_sub_non_digit s = s.
Proof.
  induction s as [|c s IH]; intros Hs; [done|]. simpl in *.
  inversion Hs as [|? ? Hc Hs']; subst. by rewrite Hc, IH.
Qed.

(** X3: the result of [price_conversion] on a string holds digits only and is
    a fixed point of [price_conversion]; whatever follows the first point of
    the input has no influence on the result; and a price that is not a string
    raises AttributeError. *)
Theorem price_conversion_output :
  (∀ s out, price_conversion (PyStr s) = Ok out →
     Forall (λ c, is_digit c = true) (list_ascii_of_string out) ∧
     price_conversion (PyStr out) = Ok out) ∧
  (∀ s t, (∀ c, c ∈ list_ascii_of_string s → c ≠ "."%char) →
     price_conversion (PyStr (s +:+ String "." t)) = price_conversion (PyStr s)) ∧
  price_conversion PyNone = Raise AttributeError ∧
  (∀ z, price_conversion (PyInt z) = Raise AttributeError).
Proof.
  split; [|split; [|done]].
  - intros s out. unfold price_conversion. rewrite !py_split_first.
    intros [= <-]. pose proof (re_sub_non_digit_digits (prefix_before_point s)) as Hd.
    split; [done|].
    rewrite prefix_before_point_id, re_sub_non_digit_id; [done|done|].
    intros c Hc ->. eapply Forall_forall in Hd; [|exact Hc]. discriminate Hd.
  - intros s t Hs. unfold price_conversion. rewrite !py_split_first.
    by rewrite prefix_before_point_app, prefix_before_point_id.
Qed.

Lemma price_conversion_output_witness :
  price_conversion (PyStr "5990") = Ok "5990" ∧
  price_conversion (PyStr ("1 234" +:+ String "." "56,78.9")) =
    price_conversion (PyStr "1 234").
Proof.
  destruct price_conversion_output as (Hout & Hcut & _).
  split.
  - apply (Hout "5'990.00 руб." "5990"). reflexivity.
  - apply Hcut. intros c Hc. vm_compute in Hc.
    repeat (apply elem_of_cons in Hc as [->|Hc]; [done|]).
    by apply elem_of_nil in Hc.
Defined.

(** ** Prices without a digit *)

Lemma price_conversion_string (q : string) :
  price_conversion (PyStr q) = Ok (spec_normalize_price q).
Proof.
  unfold price_conversion, spec_normalize_price.
  by rewrite py_split_first, re_sub_non_digit_keep.
Qed.

Lemma digits_numeral (l : list ascii) :
  l ≠ [] → Forall (λ c, is_digit c = true) l → numeral l.
Proof.
  intros Hne Hl. induction Hl as [|c l Hc Hl IH]; [done|].
  destruct l as [|d l]; [by constructor|].
  apply numeral_more; [done|]. by apply IH.
Qed.

Lemma py_int_digits (d : string) :
  d ≠ "" → Forall (λ c, is_digit c = true) (list_ascii_of_string d) →
  ∃ v, py_int (PyStr d) = Ok v.
Proof.
  intros Hne Hd.
  destruct (literal_parse_int d [] [] (list_ascii_of_string d) [])
    as (v & _ & Hv).
  - split; [by rewrite app_nil_r|]. split; [constructor|]. split; [constructor|].
    split; [by left|]. apply digits_numeral; [|done].
    destruct d; [done|discriminate].
  - exists v. rewrite py_int_ascii; [by rewrite Hv|].
    eapply Forall_impl; [exact Hd|apply digit_ascii].
Qed.

Lemma collect_raise {E} (item : watch → result E) (ws : list watch) (w : watch)
    (e : exn) :
  w ∈ ws → item w = Raise e → (∀ v e', v ∈ ws → item v = Raise e' → e' = e) →
  collect item ws = Raise e.
Proof.
  induction ws as [|v ws IH]; intros Hw Hitem Hall; [by apply elem_of_nil in Hw|].
  simpl. destruct (item v) as [x|e'] eqn:Hv.
  - apply elem_of_cons in Hw as [->|Hw]; [congruence|].
    rewrite IH; [done|done|done|]. intros u e'' Hu. apply Hall. by right.
  - f_equal. eapply Hall; [by left|done].
Qed.

Lemma market_price_item_string (v : watch) (q : string) :
  Tsena v = PyStr q →
  (spec_normalize_price q = "" ∧ market_price_item v = Raise ValueError) ∨
  (spec_normalize_price q ≠ "" ∧ ∃ p, market_price_item v = Ok p).
Proof.
  intros Hq. unfold market_price_item. rewrite Hq, price_conversion_string.
  destruct (decide (spec_normalize_price q = "")) as [->|Hne]; [by left|right].
  split; [done|].
  destruct (py_int_digits (spec_normalize_price q) Hne) as [n ->]; [|by eexists].
  unfold spec_normalize_price. rewrite <- re_sub_non_digit_keep.
  apply re_sub_non_digit_digits.
Qed.

(** X4: where every matched price is a string, [market.create_prices] returns
    exactly when each of them has a digit before its first point; a matched
    price without one makes it raise ValueError (the [int] of an empty
    string), whereas [seller.create_prices] returns on the same input, with
    the empty string as the price of that record. *)
Theorem create_prices_without_digits {W} `{!World W} (R : list watch) (r : ref)
    (s : state W) (ids : list string) :
  store s !! r = Some ids →
  (∀ v, v ∈ R → code v ∈ ids → ∃ q, Tsena v = PyStr q) →
  ((∀ v q, v ∈ R → code v ∈ ids → Tsena v = PyStr q →
      spec_normalize_price q ≠ "") →
   ∃ prices, Market.create_prices R r s = (Some (Ok prices), s)) ∧
  (∀ w p, w ∈ R → code w ∈ ids → Tsena w = PyStr p →
     spec_normalize_price p = "" →
     Market.create_prices R r s = (Some (Raise ValueError), s) ∧
     ∃ prices, Seller.create_prices R r s = (Some (Ok prices), s) ∧
               OzonPrice "UNKNOWN" "RUB" (code w) "0" "" ∈ prices).
Proof.
  intros Hs Hstr.
  rewrite (seller_create_prices_run R r s ids Hs).
  rewrite (market_create_prices_run R r s ids Hs).
  split.
  - intros Hdig.
    destruct (collect_ok market_price_item (filter (λ w, code w ∈ ids) R))
      as [prices ->]; [|by eauto].
    intros v [Hin Hv]%list_elem_of_filter. destruct (Hstr v Hv Hin) as [q Hq].
    destruct (market_price_item_string v q Hq) as [[Hno _]|[_ ?]]; [|done].
    by destruct (Hdig v q Hv Hin Hq).
  - intros w p Hw Hin Hp Hno. split.
    + f_equal. f_equal. apply (collect_raise _ _ w).
      * by apply list_elem_of_filter.
      * by destruct (market_price_item_string w p Hp) as [[_ ?]|[? _]].
      * intros v e' [Hvin Hv]%list_elem_of_filter He'.
        destruct (Hstr v Hv Hvin) as [q Hq].
        destruct (market_price_item_string v q Hq) as [[_ Hr]|[_ [x Hx]]]; congruence.
    + destruct (collect_ok ozon_price_item (filter (λ w, code w ∈ ids) R))
        as [prices Hprices].
      { intros v [Hvin Hv]%list_elem_of_filter. destruct (Hstr v Hv Hvin) as [q Hq].
        unfold ozon_price_item. rewrite Hq, price_conversion_string. by eexists. }
      rewrite Hprices. exists prices. split; [done|].
      apply collect_items in Hprices.
      assert (w ∈ filter (λ w, code w ∈ ids) R) as [i Hi]%list_elem_of_lookup
        by by apply list_elem_of_filter.
      destruct (Forall2_lookup_l _ _ _ _ _ Hprices Hi) as (x & Hx & Hitem).
      unfold ozon_price_item in Hitem.
      rewrite Hp, price_conversion_string, Hno in Hitem. simpl in Hitem.
      injection Hitem as <-. apply list_elem_of_lookup. eauto.
Qed.

Lemma create_prices_without_digits_witness :
  let R := [Watch (PyStr "001") (PyStr "3") (PyStr "руб. 12.50")] in
  let s := State {[1%positive := ["001"]]} scenario [] in
  Market.create_prices R 1%positive s = (Some (Raise ValueError), s) ∧
  ∃ prices, Seller.create_prices R 1%positive s = (Some (Ok prices), s) ∧
            OzonPrice "UNKNOWN" "RUB" "001" "0" "" ∈ prices.
Proof.
  intros R s.
  destruct (create_prices_without_digits R 1%positive s ["001"] eq_refl)
    as [_ Hfail].
  - intros v Hv _. apply list_elem_of_singleton in Hv as ->. by eexists.
  - apply (Hfail (Watch (PyStr "001") (PyStr "3") (PyStr "руб. 12.50"))
                 "руб. 12.50"); [by left|by left|done|reflexivity].
Defined.

(** ** [create_stocks] when a quantity cannot be read *)

Lemma for_fold_app {W A B} (l1 l2 : list A) (body : B → A → M W B) :
  ∀ acc s, for_fold (l1 ++ l2) acc body s =
           bind (for_fold l1 acc body) (fun acc' => for_fold l2 acc' body) s.
Proof.
  induction l1 as [|x l1 IH]; intros acc s; [done|].
  simpl. unfold bind.
  destruct (body acc x s) as [[[a|e]|] s']; [|done..].
  by rewrite IH.
Qed.

Lemma stock_loop_raise {W E} (item : watch → result E) (r : ref)
    (R1 R2 : list watch) (w : watch) (acc : list E) (s : state W)
    (ids : list string) (es : list E) (e : exn) :
  store s !! r = Some ids →
  collect item (matched R1 ids) = Ok es →
  code w ∈ leftover R1 ids →
  item w = Raise e →
  stock_loop item r (R1 ++ w :: R2) acc s =
    (Some (Raise e), set_store r (leftover R1 ids) s).
Proof.
  intros Hs Hes Hw Hitem. unfold stock_loop. rewrite for_fold_app.
  destruct (stock_loop_run item r R1 acc s ids Hs) as (ids' & Hrun & Hok).
  rewrite Hes in Hrun. rewrite (Hok es Hes) in Hrun. unfold stock_loop in Hrun.
  rewrite (bind_ok _ _ _ _ _ Hrun).
  rewrite for_fold_cons, bind_assoc.
  rewrite (bind_read r (leftover R1 ids)) by apply store_set_store.
  rewrite bool_decide_eq_true_2 by done.
  by rewrite bind_assoc, Hitem, bind_lift_raise.
Qed.

Lemma seller_create_stocks_loops {W} `{!World W} (R : list watch) (r : ref)
    (s : state W) :
  Seller.create_stocks R r s =
  bind (stock_loop ozon_stock_item r R [])
    (fun stocks => bind (read r) (fun left =>
       for_fold left stocks (fun stocks offer_id =>
         ret (stocks ++ [OzonStock offer_id 0])))) s.
Proof.
  unfold Seller.create_stocks. apply bind_ext_l.
  apply for_fold_ext. intros acc w s0.
  unfold bind, read, code. destruct (store s0 !! r); [|done].
  case_bool_decide; [|done].
  unfold ozon_stock_item. by destruct (stock_of_count (Kolichestvo w)).
Qed.

Lemma market_create_stocks_loops {W} `{!World W} (R : list watch) (r : ref)
    (warehouse_id : string) (s : state W) :
  Market.create_stocks R r warehouse_id s =
  bind (stock_loop (market_stock_item warehouse_id (clock_utcnow (world s))) r R [])
    (fun stocks => bind (read r) (fun left =>
       for_fold left stocks (fun stocks offer_id =>
         ret (stocks ++ [market_stock_entry warehouse_id (clock_utcnow (world s))
                           offer_id 0])))) s.
Proof.
  unfold Market.create_stocks.
  rewrite (bind_ok utcnow _ s (clock_utcnow (world s)) s) by done.
  apply bind_ext_l. apply for_fold_ext. intros acc w s0.
  unfold bind, read, code. destruct (store s0 !! r); [|done].
  case_bool_decide; [|done].
  unfold market_stock_item. by destruct (stock_of_count (Kolichestvo w)).
Qed.

Lemma stock_of_count_raises (q : pyval) (e : exn) :
  stock_of_count q = Raise e → e = ValueError ∨ e = TypeError.
Proof.
  unfold stock_of_count.
  destruct (String.eqb _ _); [done|]. destruct (String.eqb _ _); [done|].
  destruct q as [|t|z]; simpl; [intros [= <-]; by right| |done].
  destruct (transform_decimal_and_space _); [|intros [= <-]; by left].
  destruct (parse_int _); [done|]. intros [= <-]. by left.
Qed.

(** X5: [create_stocks] is not all-or-nothing.  When the quantity of a feed
    record whose code is in the list cannot be read, it raises the error of
    [int] (ValueError or TypeError) and leaves the caller's list as the
    records before that one have left it: their codes are already removed,
    the code of the failing record is still there.  Both modules. *)
Theorem create_stocks_fails_midway {W} `{!World W} (R1 R2 : list watch) (w : watch)
    (r : ref) (warehouse_id : string) (s : state W) (ids : list string) (e : exn) :
  store s !! r = Some ids →
  (∀ v, v ∈ matched R1 ids → ∃ q, stock_of_count (Kolichestvo v) = Ok q) →
  code w ∈ leftover R1 ids →
  stock_of_count (Kolichestvo w) = Raise e →
  Seller.create_stocks (R1 ++ w :: R2) r s =
    (Some (Raise e), State (<[r := leftover R1 ids]> (store s)) (world s) (log s)) ∧
  Market.create_stocks (R1 ++ w :: R2) r warehouse_id s =
    (Some (Raise e), State (<[r := leftover R1 ids]> (store s)) (world s) (log s)) ∧
  (e = ValueError ∨ e = TypeError).
Proof.
  intros Hs HR1 Hw He. split; [|split; [|by eapply stock_of_count_raises]].
  - rewrite seller_create_stocks_loops.
    destruct (collect_ok ozon_stock_item (matched R1 ids)) as [es Hes].
    { intros v Hv. destruct (HR1 v Hv) as [q Hq].
      unfold ozon_stock_item. rewrite Hq. by eexists. }
    erewrite bind_raise; [done|].
    eapply stock_loop_raise; [done|exact Hes|done|].
    unfold ozon_stock_item. by rewrite He.
  - rewrite market_create_stocks_loops.
    destruct (collect_ok (market_stock_item warehouse_id (clock_utcnow (world s)))
                (matched R1 ids)) as [es Hes].
    { intros v Hv. destruct (HR1 v Hv) as [q Hq].
      unfold market_stock_item. rewrite Hq. by eexists. }
    erewrite bind_raise; [done|].
    eapply stock_loop_raise; [done|exact Hes|done|].
    unfold market_stock_item. by rewrite He.
Qed.

Lemma create_stocks_fails_midway_witness :
  let s := State {[1%positive := ["001"; "002"; "003"]]} scenario [] in
  Seller.create_stocks
    ([Watch (PyStr "001") (PyStr "10") PyNone] ++
     Watch (PyStr "002") (PyStr "many") PyNone ::
     [Watch (PyStr "003") (PyStr "4") PyNone]) 1%positive s =
  (Some (Raise ValueError),
   State (<[1%positive := ["002"; "003"]]> (store s)) (world s) (log s)).
Proof.
  intros s.
  destruct (create_stocks_fails_midway
              [Watch (PyStr "001") (PyStr "10") PyNone]
              [Watch (PyStr "003") (PyStr "4") PyNone]
              (Watch (PyStr "002") (PyStr "many") PyNone)
              1%positive "wf" s ["001"; "002"; "003"] ValueError eq_refl)
    as (Hseller & _ & _); [| | |exact Hseller].
  - intros v Hv. vm_compute in Hv.
    apply list_elem_of_singleton in Hv as ->. by eexists.
  - vm_compute. by left.
  - reflexivity.
Defined.

(** ** The order of the stock payload *)

Lemma collect_stock_ids {E} (id_of : E → string) (entry : string → Z → E)
    (ws : list watch) (es : list E) :
  (∀ x q, id_of (entry x q) = x) →
  collect (λ w, result_map (entry (code w)) (stock_of_count (Kolichestvo w))) ws
    = Ok es →
  id_of <$> es = code <$> ws.
Proof.
  intros Hid Hes%collect_stock_items.
  induction Hes as [|w e ws es (q & _ & ->) _ IH]; [done|].
  rewrite !fmap_cons, Hid. by f_equal.
Qed.

(** X6: the stock payload lists first the matched offers, in the order of the
    feed, and then the unmatched offers, in the order of the listing (for
    offer ids without duplicates and a feed with distinct codes; both
    modules). *)
Theorem create_stocks_payload_order {W} `{!World W} (R : list watch) (r : ref)
    (warehouse_id : string) (s : state W) (ids : list string) :
  store s !! r = Some ids → NoDup ids → NoDup (code <$> R) →
  (∀ stocks s', Seller.create_stocks R r s = (Some (Ok stocks), s') →
     stock_offer_id <$> stocks =
       (code <$> filter (λ w, code w ∈ ids) R) ++ filter (λ x, x ∉ code <$> R) ids) ∧
  (∀ stocks s', Market.create_stocks R r warehouse_id s = (Some (Ok stocks), s') →
     sku <$> stocks =
       (code <$> filter (λ w, code w ∈ ids) R) ++ filter (λ x, x ∉ code <$> R) ids).
Proof.
  intros Hs Hnd HndR. split.
  - intros stocks s' Hrun.
    destruct (seller_create_stocks_run R r s ids Hs) as (ids' & Hrun' & _).
    rewrite Hrun in Hrun'.
    destruct (collect ozon_stock_item (matched R ids)) as [es|] eqn:Hc; [|done].
    injection Hrun' as -> _.
    rewrite fmap_app, <- list_fmap_compose.
    rewrite (collect_stock_ids stock_offer_id OzonStock _ es) by done.
    rewrite matched_distinct, leftover_NoDup by done. f_equal.
    by rewrite list_fmap_id.
  - intros stocks s' Hrun.
    destruct (market_create_stocks_run R r warehouse_id s ids Hs)
      as (ids' & Hrun' & _).
    rewrite Hrun in Hrun'.
    destruct (collect (market_stock_item warehouse_id (clock_utcnow (world s)))
                (matched R ids)) as [es|] eqn:Hc; [|done].
    injection Hrun' as -> _.
    rewrite fmap_app, <- list_fmap_compose.
    rewrite (collect_stock_ids sku (market_stock_entry _ _) _ es) by done.
    rewrite matched_distinct, leftover_NoDup by done. f_equal.
    by rewrite list_fmap_id.
Qed.

Lemma create_stocks_payload_order_witness :
  let R := [Watch (PyStr "003") (PyStr "7") PyNone;
            Watch (PyStr "001") (PyStr "10") PyNone] in
  stock_offer_id <$> [OzonStock "003" 7; OzonStock "001" 10; OzonStock "002" 0] =
    (code <$> filter (λ w, code w ∈ ["001"; "002"; "003"]) R) ++
    filter (λ x, x ∉ code <$> R) ["001"; "002"; "003"].
Proof.
  intros R.
  pose (s := State {[1%positive := ["001"; "002"; "003"]]} scenario []).
  destruct (create_stocks_payload_order R 1%positive "wf" s
              ["001"; "002"; "003"] eq_refl) as [Hseller _];
    [compute_done|compute_done|].
  apply (Hseller _ (Seller.create_stocks R 1%positive s).2).
  vm_compute. reflexivity.
Defined.

(** ** The list that [get_offer_ids] returns *)

Section ListingStore.
Context {W : Type} `{!World W}.

Lemma seller_listing_loop_store (fuel : nat) (client_id seller_token : string) :
  ∀ last_id product_list (s : state W),
    store (Seller.get_offer_ids_loop fuel last_id product_list
             client_id seller_token s).2 = store s.
Proof.
  induction fuel as [|fuel IH]; intros last_id product_list s; [done|].
  simpl. unfold bind at 1, Seller.get_product_list, request.
  destruct (ozon_list_reply last_id client_id seller_token (world s))
    as [[page|e] w']; [|done].
  destruct (_ =? _)%Z; [done|]. by rewrite IH.
Qed.

Lemma market_listing_loop_store (fuel : nat) (campaign_id market_token : string) :
  ∀ page product_list (s : state W),
    store (Market.get_offer_ids_loop fuel page product_list
             campaign_id market_token s).2 = store s.
Proof.
  induction fuel as [|fuel IH]; intros page product_list s; [done|].
  simpl. unfold bind at 1, Market.get_product_list, request.
  destruct (market_list_reply page campaign_id market_token (world s))
    as [[some_prod|e] w']; [|done].
  destruct (nextPageToken some_prod) as [next|]; [|done].
  destruct (String.eqb next ""); [done|]. by rewrite IH.
Qed.

Lemma alloc_after_loop {A} (loop : M W (list A)) (f : A → string) (s : state W) :
  store (loop s).2 = store s →
  (∀ r s', bind loop (fun l => alloc (map f l)) s = (Some (Ok r), s') →
     (r ∉ dom (store s)) ∧ ∃ ids, store s' = <[r := ids]> (store s)) ∧
  (∀ o s', bind loop (fun l => alloc (map f l)) s = (o, s') →
     (∀ r, o ≠ Some (Ok r)) → store s' = store s).
Proof.
  intros Hstore. unfold bind, alloc.
  destruct (loop s) as [[[l|e]|] s1]; simpl in Hstore.
  - split.
    + intros r s' [= <- <-]. simpl. rewrite Hstore. split; [apply is_fresh|eauto].
    + intros o s' [= <- <-] Hno. by destruct (Hno (fresh (dom (store s1)))).
  - split; [done|]. by intros o s' [= <- <-] _.
  - split; [done|]. by intros o s' [= <- <-] _.
Qed.
End ListingStore.

(** X7: [get_offer_ids] of either module returns a list of its own: the
    reference it returns was not in use before the call, and no list that
    existed before is changed; when it does not return (a request raised, or
    the listing is still going on), it leaves no list behind. *)
Theorem get_offer_ids_fresh_list {W} `{!World W} (fuel : nat)
    (account token : string) (s : state W) :
  (∀ r s', Seller.get_offer_ids fuel account token s = (Some (Ok r), s') →
     (r ∉ dom (store s)) ∧ ∃ ids, store s' = <[r := ids]> (store s)) ∧
  (∀ o s', Seller.get_offer_ids fuel account token s = (o, s') →
     (∀ r, o ≠ Some (Ok r)) → store s' = store s) ∧
  (∀ r s', Market.get_offer_ids fuel account token s = (Some (Ok r), s') →
     (r ∉ dom (store s)) ∧ ∃ ids, store s' = <[r := ids]> (store s)) ∧
  (∀ o s', Market.get_offer_ids fuel account token s = (o, s') →
     (∀ r, o ≠ Some (Ok r)) → store s' = store s).
Proof.
  destruct (alloc_after_loop
              (Seller.get_offer_ids_loop fuel "" [] account token)
              product_offer_id s (seller_listing_loop_store _ _ _ _ _ _)) as [H1 H2].
  destruct (alloc_after_loop
              (Market.get_offer_ids_loop fuel "" [] account token)
              shopSku s (market_listing_loop_store _ _ _ _ _ _)) as [H3 H4].
  done.
Qed.

Lemma get_offer_ids_fresh_list_witness :
  let s := State {[1%positive := ["kept"]]} scenario [] in
  ((2%positive ∉ dom (store s)) ∧
   ∃ ids, store (Seller.get_offer_ids 5 "c" "t" s).2 = <[2%positive := ids]> (store s)) ∧
  store (Market.get_offer_ids 5 "fbs" "m" (initial feed_down)).2 =
    <[1%positive := ["001"; "002"]]> (store (initial feed_down)).
Proof.
  intros s. split.
  - destruct (get_offer_ids_fresh_list 5 "c" "t" s) as (Hok & _).
    apply Hok. vm_compute. reflexivity.
  - destruct (get_offer_ids_fresh_list 5 "fbs" "m" (initial feed_down))
      as (_ & _ & Hok & _).
    destruct (Hok 1%positive (Market.get_offer_ids 5 "fbs" "m" (initial feed_down)).2)
      as [_ [ids Hids]]; [vm_compute; reflexivity|].
    rewrite Hids. f_equal.
    assert (store (Market.get_offer_ids 5 "fbs" "m" (initial feed_down)).2
              !! 1%positive = Some ["001"; "002"]) as Hl by (vm_compute; reflexivity).
    rewrite Hids, lookup_insert_eq in Hl. by injection Hl.
Defined.

(** ** Pagination *)

Section Pagination.
Context {W : Type} `{!World W}.

Lemma seller_listing_loop_run (client_id seller_token : string)
    (cursor : string) (count : nat) (w : W) (ps : list ozon_page) (w' : W) :
  ozon_listing client_id seller_token cursor count w ps w' →
  ∀ fuel product_list (s : state W),
    length ps ≤ fuel → length product_list = count → world s = w →
    Seller.get_offer_ids_loop fuel cursor product_list client_id seller_token s =
      (Some (Ok (product_list ++ concat (page_items <$> ps))),
       State (store s) w'
         (log s ++ ((λ c, EvOzonProductList c client_id) <$> ozon_cursors cursor ps))).
Proof.
  induction 1 as [cursor count w p w' Hreply Htotal
                 |cursor count w p w' ps w'' Hreply Htotal _ IH];
    intros fuel product_list s Hfuel Hcount Hw;
    (destruct fuel as [|fuel]; [simpl in Hfuel; lia|]);
    simpl Seller.get_offer_ids_loop;
    unfold bind at 1, Seller.get_product_list, request; rewrite Hw, Hreply;
    rewrite length_app, Hcount.
  - rewrite (proj2 (Z.eqb_eq _ _) Htotal). simpl. by rewrite app_nil_r.
  - rewrite (proj2 (Z.eqb_neq _ _) Htotal).
    rewrite (IH fuel); [|simpl in Hfuel; lia|by rewrite length_app, Hcount|done].
    simpl. unfold ozon_cursors. simpl. by rewrite <- !app_assoc.
Qed.

Lemma market_listing_loop_run (campaign_id market_token : string)
    (cursor : string) (w : W) (ps : list market_page) (w' : W) :
  market_listing campaign_id market_token cursor w ps w' →
  ∀ fuel product_list (s : state W),
    length ps ≤ fuel → world s = w →
    Market.get_offer_ids_loop fuel cursor product_list campaign_id market_token s =
      (Some (Ok (product_list ++ concat (offerMappingEntries <$> ps))),
       State (store s) w'
         (log s ++ ((λ c, EvMarketProductList c campaign_id)
                      <$> market_cursors cursor ps))).
Proof.
  induction 1 as [cursor w p w' Hreply Hlast
                 |cursor w p w' next ps w'' Hreply Hnext Hne _ IH];
    intros fuel product_list s Hfuel Hw;
    (destruct fuel as [|fuel]; [simpl in Hfuel; lia|]);
    simpl Market.get_offer_ids_loop;
    unfold bind at 1, Market.get_product_list, request; rewrite Hw, Hreply.
  - destruct Hlast as [-> | ->]; simpl; by rewrite app_nil_r.
  - rewrite Hnext, (proj2 (String.eqb_neq _ _) Hne).
    rewrite (IH fuel); [|simpl in Hfuel; lia|done].
    simpl. unfold market_cursors. simpl. rewrite Hnext. simpl.
    by rewrite <- !app_assoc.
Qed.
End Pagination.

(** X8: when the Ozon listing consists of the pages [ps] (the page at the
    empty cursor, then the page at the [last_id] of each page, up to the
    first page whose total is the number of products read), [get_offer_ids]
    makes one request per page, with these cursors, and returns a new list
    with the offer ids of all the pages, in order. *)
Theorem seller_get_offer_ids_pages {W} `{!World W} (fuel : nat)
    (client_id seller_token : string) (s : state W) (ps : list ozon_page) (w' : W) :
  ozon_listing client_id seller_token "" 0 (world s) ps w' →
  length ps ≤ fuel →
  Seller.get_offer_ids fuel client_id seller_token s =
    (Some (Ok (fresh (dom (store s)))),
     State (<[fresh (dom (store s)) :=
                product_offer_id <$> concat (page_items <$> ps)]> (store s))
           w'
           (log s ++ ((λ c, EvOzonProductList c client_id) <$> ozon_cursors "" ps))).
Proof.
  intros Hps Hfuel. unfold Seller.get_offer_ids.
  by rewrite (bind_ok _ _ _ _ _
    (seller_listing_loop_run _ _ _ _ _ _ _ Hps fuel [] s Hfuel eq_refl eq_refl)).
Qed.

Lemma seller_get_offer_ids_pages_witness :
  Seller.get_offer_ids 2 "c" "t" (initial two_pages) =
    (Some (Ok 1%positive),
     State {[1%positive := ["001"; "002"; "003"]]}
           (Script (env_vars two_pages) (now two_pages) (feed two_pages) []
                   (market_pages two_pages) (Ok tt))
           [EvOzonProductList "" "c"; EvOzonProductList "002" "c"]).
Proof.
  pose proof (seller_get_offer_ids_pages 2 "c" "t" (initial two_pages)
    [OzonPage [OzonProduct "001"; OzonProduct "002"] 3 "002";
     OzonPage [OzonProduct "003"] 3 "003"]
    (Script (env_vars two_pages) (now two_pages) (feed two_pages) []
            (market_pages two_pages) (Ok tt))) as Hrun.
  rewrite Hrun; [by vm_compute| |simpl; lia].
  eapply ozon_listing_next; [reflexivity|done|].
  eapply ozon_listing_last; [reflexivity|done].
Defined.

(** X9: when the Yandex.Market listing consists of the pages [ps] (the page at
    the empty token, then the page at the token of each page, up to the first
    page that has no token or the empty one), [get_offer_ids] makes one
    request per page, with these tokens, and returns a new list with the
    [shopSku] of all the pages, in order. *)
Theorem market_get_offer_ids_pages {W} `{!World W} (fuel : nat)
    (campaign_id market_token : string) (s : state W) (ps : list market_page)
    (w' : W) :
  market_listing campaign_id market_token "" (world s) ps w' →
  length ps ≤ fuel →
  Market.get_offer_ids fuel campaign_id market_token s =
    (Some (Ok (fresh (dom (store s)))),
     State (<[fresh (dom (store s)) :=
                shopSku <$> concat (offerMappingEntries <$> ps)]> (store s))
           w'
           (log s ++ ((λ c, EvMarketProductList c campaign_id)
                        <$> market_cursors "" ps))).
Proof.
  intros Hps Hfuel. unfold Market.get_offer_ids.
  by rewrite (bind_ok _ _ _ _ _
    (market_listing_loop_run _ _ _ _ _ _ Hps fuel [] s Hfuel eq_refl)).
Qed.

Lemma market_get_offer_ids_pages_witness :
  Market.get_offer_ids 2 "fbs" "m" (initial two_pages) =
    (Some (Ok 1%positive),
     State {[1%positive := ["001"; "002"; "003"]]}
           (Script (env_vars two_pages) (now two_pages) (feed two_pages)
                   (ozon_pages two_pages) [] (Ok tt))
           [EvMarketProductList "" "fbs"; EvMarketProductList "p2" "fbs"]).
Proof.
  pose proof (market_get_offer_ids_pages 2 "fbs" "m" (initial two_pages)
    [MarketPage [MarketEntry "001"; MarketEntry "002"] (Some "p2");
     MarketPage [MarketEntry "003"] (Some "")]
    (Script (env_vars two_pages) (now two_pages) (feed two_pages)
            (ozon_pages two_pages) [] (Ok tt))) as Hrun.
  rewrite Hrun; [by vm_compute| |simpl; lia].
  eapply market_listing_next; [reflexivity|reflexivity|done|].
  eapply market_listing_last; [reflexivity|by right].
Defined.

(** ** Listings that never end *)

Section Endless.
Context {W : Type} `{!World W}.

Lemma seller_listing_loop_endless (client_id seller_token : string) (T : Z) :
  (∀ cursor w, ∃ p w',
     ozon_list_reply cursor client_id seller_token w = (Ok p, w') ∧
     (page_total p ≤ T)%Z) →
  ∀ fuel cursor product_list (s : state W),
    (T < Z.of_nat (length product_list))%Z →
    ∃ s', Seller.get_offer_ids_loop fuel cursor product_list
            client_id seller_token s = (None, s') ∧
          store s' = store s ∧
          length (log s') = length (log s) + fuel.
Proof.
  intros Hreply. induction fuel as [|fuel IH]; intros cursor product_list s Hlen.
  { exists s. simpl. unfold out_of_fuel. split; [done|]. split; [done|lia]. }
  destruct (Hreply cursor (world s)) as (p & w' & Hp & Htotal).
  simpl Seller.get_offer_ids_loop.
  unfold bind at 1, Seller.get_product_list, request. rewrite Hp.
  assert (Hneq : page_total p ≠ Z.of_nat (length (product_list ++ page_items p))).
  { rewrite length_app. lia. }
  rewrite (proj2 (Z.eqb_neq _ _) Hneq).
  destruct (IH (page_last_id p) (product_list ++ page_items p)
              (State (store s) w' (log s ++ [EvOzonProductList cursor client_id])))
    as (s' & Hrun & Hstore & Hlog); [rewrite length_app; lia|].
  exists s'. split; [done|]. split; [done|].
  rewrite Hlog. simpl. rewrite length_app. simpl. lia.
Qed.

Lemma market_listing_loop_endless (campaign_id market_token : string) :
  (∀ cursor w, ∃ p w' next,
     market_list_reply cursor campaign_id market_token w = (Ok p, w') ∧
     nextPageToken p = Some next ∧ next ≠ "") →
  ∀ fuel cursor product_list (s : state W),
    ∃ s', Market.get_offer_ids_loop fuel cursor product_list
            campaign_id market_token s = (None, s') ∧
          store s' = store s ∧
          length (log s') = length (log s) + fuel.
Proof.
  intros Hreply. induction fuel as [|fuel IH]; intros cursor product_list s.
  { exists s. simpl. unfold out_of_fuel. split; [done|]. split; [done|lia]. }
  destruct (Hreply cursor (world s)) as (p & w' & next & Hp & Hnext & Hne).
  simpl Market.get_offer_ids_loop.
  unfold bind at 1, Market.get_product_list, request. rewrite Hp.
  rewrite Hnext, (proj2 (String.eqb_neq _ _) Hne).
  destruct (IH next (product_list ++ offerMappingEntries p)
              (State (store s) w' (log s ++ [EvMarketProductList cursor campaign_id])))
    as (s' & Hrun & Hstore & Hlog).
  exists s'. split; [done|]. split; [done|].
  rewrite Hlog. simpl. rewrite length_app. simpl. lia.
Qed.
End Endless.

(** X10: the listing loop of [seller.get_offer_ids] stops only on a page
    whose total is exactly the number of products read.  When no page ever
    announces more than [T] products and the first page holds more than [T],
    the function never returns and raises nothing: with any bound [fuel] on
    the turns of the loop it is still running after [fuel] requests, and no
    list has been created. *)
Theorem seller_get_offer_ids_never_returns {W} `{!World W}
    (client_id seller_token : string) (T : Z) (s : state W) :
  (∀ cursor w, ∃ p w',
     ozon_list_reply cursor client_id seller_token w = (Ok p, w') ∧
     (page_total p ≤ T)%Z) →
  (∀ p w', ozon_list_reply "" client_id seller_token (world s) = (Ok p, w') →
           (T < Z.of_nat (length (page_items p)))%Z) →
  ∀ fuel, ∃ s',
    Seller.get_offer_ids fuel client_id seller_token s = (None, s') ∧
    store s' = store s ∧
    length (log s') = length (log s) + fuel.
Proof.
  intros Hreply Hfirst fuel. unfold Seller.get_offer_ids.
  destruct fuel as [|fuel].
  { exists s. unfold bind. simpl. unfold out_of_fuel.
    split; [done|]. split; [done|lia]. }
  destruct (Hreply "" (world s)) as (p & w' & Hp & Htotal).
  specialize (Hfirst p w' Hp).
  unfold bind at 1. simpl Seller.get_offer_ids_loop.
  unfold bind at 1, Seller.get_product_list, request. rewrite Hp.
  change ([] ++ page_items p) with (page_items p).
  assert (Hneq : page_total p ≠ Z.of_nat (length (page_items p))) by lia.
  rewrite (proj2 (Z.eqb_neq _ _) Hneq).
  destruct (seller_listing_loop_endless client_id seller_token T Hreply fuel
              (page_last_id p) (page_items p)
              (State (store s) w' (log s ++ [EvOzonProductList "" client_id])))
    as (s' & Hrun & Hstore & Hlog); [lia|].
  rewrite Hrun. exists s'. split; [done|]. split; [done|].
  rewrite Hlog. simpl. rewrite length_app. simpl. lia.
Qed.

Lemma seller_get_offer_ids_never_returns_witness :
  ∃ s', @Seller.get_offer_ids unit endless 7 "c" "t" (State ∅ tt []) = (None, s') ∧
        store s' = ∅ ∧ length (log s') = 7.
Proof.
  apply (@seller_get_offer_ids_never_returns unit endless "c" "t" 1 (State ∅ tt [])).
  - intros cursor w. eexists _, _. split; [reflexivity|]. simpl. lia.
  - intros p w' [= <- _]. simpl. lia.
Defined.

(** X11: the listing loop of [market.get_offer_ids] stops only on a page
    without a next-page token.  When every page comes with a non-empty
    token, the function never returns and raises nothing: with any bound
    [fuel] on the turns of the loop it is still running after [fuel]
    requests, and no list has been created. *)
Theorem market_get_offer_ids_never_returns {W} `{!World W}
    (campaign_id market_token : string) (s : state W) :
  (∀ cursor w, ∃ p w' next,
     market_list_reply cursor campaign_id market_token w = (Ok p, w') ∧
     nextPageToken p = Some next ∧ next ≠ "") →
  ∀ fuel, ∃ s',
    Market.get_offer_ids fuel campaign_id market_token s = (None, s') ∧
    store s' = store s ∧
    length (log s') = length (log s) + fuel.
Proof.
  intros Hreply fuel. unfold Market.get_offer_ids.
  destruct (market_listing_loop_endless campaign_id market_token Hreply fuel
              "" [] s) as (s' & Hrun & Hstore & Hlog).
  unfold bind. rewrite Hrun. by exists s'.
Qed.

Lemma market_get_offer_ids_never_returns_witness :
  ∃ s', @Market.get_offer_ids unit endless 7 "fbs" "m" (State ∅ tt []) = (None, s') ∧
        store s' = ∅ ∧ length (log s') = 7.
Proof.
  apply (@market_get_offer_ids_never_returns unit endless "fbs" "m" (State ∅ tt [])).
  intros cursor w. eexists _, _, _. split; [reflexivity|]. by split.
Defined.

(** ** The awaited uploads *)

Lemma bind_inv_ok {W A B} (m : M W A) (f : A → M W B) (s : state W) b s' :
  bind m f s = (Some (Ok b), s') →
  ∃ a s1, m s = (Some (Ok a), s1) ∧ f a s1 = (Some (Ok b), s').
Proof. unfold bind. destruct (m s) as [[[a|e]|] s1]; [eauto|done|done]. Qed.

Lemma lift_inv_ok {W A} (r : result A) (s : state W) a s' :
  lift r s = (Some (Ok a), s') → r = Ok a ∧ s' = s.
Proof. destruct r; simpl; unfold ret, raise; intros; by simplify_eq. Qed.

Lemma for_each_request_ok {W A} (ev : A → event)
    (reply : A → W → result unit * W) (l : list A) (s : state W) u s' :
  for_each l (fun x => request (ev x) (reply x)) s = (Some (Ok u), s') →
  log s' = log s ++ (ev <$> l) ∧ store s' = store s.
Proof.
  revert s. induction l as [|x l IH]; intros s.
  { unfold for_each. simpl. unfold ret. intros [= _ <-]. by rewrite app_nil_r. }
  unfold for_each in *. rewrite for_fold_cons.
  intros ([] & s1 & Hx & Hl)%bind_inv_ok.
  apply IH in Hl as [Hlog Hstore]. unfold request in Hx.
  destruct (reply x (world s)) as [r w']. simplify_eq. simpl in *.
  by rewrite Hlog, <- app_assoc.
Qed.

Lemma divide_concat {A} (lst : list A) (n : Z) (chunks : list (list A)) :
  (0 < n)%Z → divide lst n = Ok chunks → concat chunks = lst.
Proof.
  intros Hn Hdiv. rewrite divide_positive_step in Hdiv by done.
  injection Hdiv as <-.
  pose proof (range_up_chunks lst n Hn (length lst) 0 ltac:(lia)) as Hchunks.
  change (Z.of_nat 0) with 0%Z in Hchunks. cbv zeta in Hchunks.
  rewrite drop_0 in Hchunks. by destruct Hchunks as (Hcat & _).
Qed.

(** [chunks <- divide payload n; for chunk in chunks: send(chunk)], when no
    request raises: the chunks of the payload are logged, all and in order. *)
Lemma submit_ok {W A B} (payload : list A) (n : Z) (ev : list A → event)
    (reply : list A → W → result unit * W) (rest : M W B) (s : state W) b s' :
  (0 < n)%Z →
  bind (lift (divide payload n)) (fun chunks =>
    bind (for_each chunks (fun c => request (ev c) (reply c)))
         (fun _ => rest)) s = (Some (Ok b), s') →
  ∃ chunks s1,
    concat chunks = payload ∧
    log s1 = log s ++ (ev <$> chunks) ∧ store s1 = store s ∧
    rest s1 = (Some (Ok b), s').
Proof.
  intros Hn (chunks & s0 & [Hdiv ->]%lift_inv_ok & Hrun)%bind_inv_ok.
  apply bind_inv_ok in Hrun as (u & s1 & [Hlog Hstore]%for_each_request_ok & Hrest).
  exists chunks, s1. split; [by eapply divide_concat|done].
Qed.

Lemma events_of_run {W A} (m : M W A) (s : state W) o s' evs :
  m s = (o, s') → log s' = log s ++ evs → events_of m s = evs.
Proof.
  intros Hrun Hlog. unfold events_of. rewrite Hrun. simpl.
  by rewrite Hlog, drop_app_length.
Qed.

(** The last loop of [market.upload_stocks], which keeps the entries whose
    first item has a count other than 0. *)
Lemma market_not_empty_run {W} (stocks kept : list market_stock) (s : state W)
    not_empty s' :
  for_fold stocks kept (fun kept stock =>
    match stock_items stock !! 0%nat with
    | Some item =>
        ret (if bool_decide (count item ≠ 0%Z) then kept ++ [stock] else kept)
    | None => raise IndexError
    end) s = (Some (Ok not_empty), s') →
  not_empty =
    kept ++ filter (λ m, head (count <$> stock_items m) ≠ Some 0%Z) stocks ∧
  s' = s.
Proof.
  revert kept s. induction stocks as [|m stocks IH]; intros kept s.
  { simpl. unfold ret. intros [= <- <-]. by rewrite app_nil_r. }
  rewrite for_fold_cons. intros (kept' & s1 & Hm & Hrun)%bind_inv_ok.
  destruct (stock_items m) as [|item items] eqn:Hitems; simpl in Hm; [done|].
  unfold ret in Hm. injection Hm as <- <-.
  apply IH in Hrun as [Hkept Hs]. split; [|done].
  rewrite Hkept, filter_cons, Hitems. simpl.
  case_bool_decide as Hc.
  - rewrite decide_True by congruence. by rewrite <- app_assoc.
  - rewrite decide_False; [done|]. intros Hne. apply Hne. f_equal.
    destruct (decide (count item = 0%Z)); [done|by destruct Hc].
Qed.

(** X12: when an awaited [upload_stocks] returns, the batches it has
    submitted, put together in the order of submission, are the payload it
    returns, it has submitted no price, and the first component of its
    result holds the entries of the payload with a stock other than 0
    (Ozon), with a first item whose count is other than 0 (Yandex.Market),
    in the order of the payload. *)
Theorem upload_stocks_submits_payload {W} `{!World W} (fuel : nat)
    (R : list watch) (account token warehouse : string) (s : state W) :
  (∀ not_empty stocks s',
     await (Seller.upload_stocks fuel R account token) s =
       (Some (Ok (not_empty, stocks)), s') →
     let evs := events_of (await (Seller.upload_stocks fuel R account token)) s in
     concat (ozon_stock_batches evs) = stocks ∧
     ozon_price_batches evs = [] ∧
     not_empty = filter (λ e, stock e ≠ 0%Z) stocks) ∧
  (∀ not_empty stocks s',
     await (Market.upload_stocks fuel R account token warehouse) s =
       (Some (Ok (not_empty, stocks)), s') →
     let evs :=
       events_of (await (Market.upload_stocks fuel R account token warehouse)) s in
     concat (market_stock_batches evs) = stocks ∧
     market_price_batches evs = [] ∧
     not_empty =
       filter (λ m, head (count <$> stock_items m) ≠ Some 0%Z) stocks).
Proof.
  split; intros not_empty stocks s' Hrun evs; subst evs;
    pose proof Hrun as Hsteps;
    cbv beta iota delta [await Seller.upload_stocks Market.upload_stocks
                         Seller.update_stocks Market.update_stocks] in Hsteps.
  - apply bind_inv_ok in Hsteps as (r & s1 & Hlist & Hsteps).
    apply bind_inv_ok in Hsteps as (stocks' & s2 & Hcreate & Hsteps).
    apply submit_ok in Hsteps as (chunks & s3 & Hcat & Hlog3 & _ & Hret); [|lia].
    unfold ret in Hret. injection Hret as <- <- <-.
    destruct (emits_seller_get_offer_ids fuel account token s)
      as (e1 & Hlog1 & (He1 & He1' & _)).
    destruct (emits_seller_create_stocks (λ evs, evs = []) R r s1)
      as (e2 & Hlog2 & ->).
    rewrite Hlist in Hlog1. rewrite Hcreate in Hlog2. simpl in Hlog1, Hlog2.
    rewrite (events_of_run _ _ _ _
               (e1 ++ ((λ c, EvOzonUpdateStocks c account) <$> chunks)) Hrun)
      by (by rewrite Hlog3, Hlog2, Hlog1, app_nil_r, app_assoc).
    unfold ozon_stock_batches, ozon_price_batches in *.
    rewrite !omap_app, He1, He1'.
    rewrite omap_fmap_Some, omap_fmap_None by done. done.
  - apply bind_inv_ok in Hsteps as (r & s1 & Hlist & Hsteps).
    apply bind_inv_ok in Hsteps as (stocks' & s2 & Hcreate & Hsteps).
    apply submit_ok in Hsteps as (chunks & s3 & Hcat & Hlog3 & _ & Hret); [|lia].
    apply bind_inv_ok in Hret as (kept & s4 & [Hkept ->]%market_not_empty_run & Hret).
    unfold ret in Hret. injection Hret as <- <- <-.
    destruct (emits_market_get_offer_ids fuel account token s)
      as (e1 & Hlog1 & (_ & _ & He1 & He1')).
    destruct (emits_market_create_stocks (λ evs, evs = []) R r warehouse s1)
      as (e2 & Hlog2 & ->).
    rewrite Hlist in Hlog1. rewrite Hcreate in Hlog2. simpl in Hlog1, Hlog2.
    rewrite (events_of_run _ _ _ _
               (e1 ++ ((λ c, EvMarketUpdateStocks c account) <$> chunks)) Hrun)
      by (by rewrite Hlog3, Hlog2, Hlog1, app_nil_r, app_assoc).
    unfold market_stock_batches, market_price_batches in *.
    rewrite !omap_app, He1, He1'.
    rewrite omap_fmap_Some, omap_fmap_None by done. done.
Qed.

Lemma upload_stocks_submits_payload_witness :
  concat (ozon_stock_batches
            (events_of (await (Seller.upload_stocks 5 scenario_feed "c" "t"))
                       (initial scenario))) =
    [OzonStock "001" 10; OzonStock "002" 0] ∧
  concat (market_stock_batches
            (events_of (await (Market.upload_stocks 5 scenario_feed "fbs" "m" "wf"))
                       (initial scenario))) =
    [market_stock_entry "wf" "2020-10-10T10:00:00Z" "001" 10;
     market_stock_entry "wf" "2020-10-10T10:00:00Z" "002" 0].
Proof.
  split.
  - destruct (upload_stocks_submits_payload 5 scenario_feed "c" "t" "wf"
                (initial scenario)) as [Hseller _].
    refine (proj1 (Hseller [OzonStock "001" 10] _
      (await (Seller.upload_stocks 5 scenario_feed "c" "t") (initial scenario)).2 _)).
    by vm_compute.
  - destruct (upload_stocks_submits_payload 5 scenario_feed "fbs" "m" "wf"
                (initial scenario)) as [_ Hmarket].
    refine (proj1 (Hmarket [market_stock_entry "wf" "2020-10-10T10:00:00Z" "001" 10] _
      (await (Market.upload_stocks 5 scenario_feed "fbs" "m" "wf")
             (initial scenario)).2 _)).
    by vm_compute.
Defined.

Lemma collect_ids {E} (id_of : E → string) (item : watch → result E)
    (ws : list watch) (es : list E) :
  (∀ w e, item w = Ok e → id_of e = code w) →
  collect item ws = Ok es → id_of <$> es = code <$> ws.
Proof.
  intros Hid Hes%collect_items.
  induction Hes as [|w e ws es Hw _ IH]; [done|].
  rewrite !fmap_cons, (Hid w e Hw). by f_equal.
Qed.

Lemma ozon_price_item_id (w : watch) (p : ozon_price) :
  ozon_price_item w = Ok p → price_offer_id p = code w.
Proof.
  unfold ozon_price_item. destruct (price_conversion (Tsena w)); [|done].
  simpl. by intros [= <-].
Qed.

Lemma market_price_item_id (w : watch) (p : market_price) :
  market_price_item w = Ok p → id p = code w.
Proof.
  unfold market_price_item. destruct (price_conversion (Tsena w)) as [c|]; [|done].
  destruct (py_int (PyStr c)); [|done]. simpl. by intros [= <-].
Qed.

(** X13: an awaited [upload_prices] works on a listing of its own.  When the
    listing consists of the pages [ps] and the upload returns, the payload has
    one price for each feed record whose code is on one of the pages, in the
    order of the feed; the price batches submitted, put together in the order
    of submission, are that payload; and no stock is submitted. *)
Theorem upload_prices_fresh_listing {W} `{!World W} (fuel : nat)
    (R : list watch) (account token : string) (s : state W) :
  (∀ ps w' prices s',
     ozon_listing account token "" 0 (world s) ps w' → length ps ≤ fuel →
     await (Seller.upload_prices fuel R account token) s = (Some (Ok prices), s') →
     let ids := product_offer_id <$> concat (page_items <$> ps) in
     let evs := events_of (await (Seller.upload_prices fuel R account token)) s in
     price_offer_id <$> prices = code <$> filter (λ w, code w ∈ ids) R ∧
     concat (ozon_price_batches evs) = prices ∧
     ozon_stock_batches evs = []) ∧
  (∀ ps w' prices s',
     market_listing account token "" (world s) ps w' → length ps ≤ fuel →
     await (Market.upload_prices fuel R account token) s = (Some (Ok prices), s') →
     let ids := shopSku <$> concat (offerMappingEntries <$> ps) in
     let evs := events_of (await (Market.upload_prices fuel R account token)) s in
     id <$> prices = code <$> filter (λ w, code w ∈ ids) R ∧
     concat (market_price_batches evs) = prices ∧
     market_stock_batches evs = []).
Proof.
  split; intros ps w' prices s' Hps Hfuel Hrun ids evs; subst evs;
    pose proof Hrun as Hsteps;
    cbv beta iota delta [await Seller.upload_prices Market.upload_prices
                         Seller.update_price Market.update_price
                         Seller.get_offer_ids Market.get_offer_ids] in Hsteps;
    rewrite bind_assoc in Hsteps.
  - rewrite (bind_ok _ _ _ _ _
      (seller_listing_loop_run _ _ _ _ _ _ _ Hps fuel [] s Hfuel eq_refl eq_refl))
      in Hsteps.
    apply bind_inv_ok in Hsteps as (r & s1 & Halloc & Hsteps).
    unfold alloc in Halloc. injection Halloc as <- <-.
    apply bind_inv_ok in Hsteps as (prices' & s2 & Hcreate & Hsteps).
    rewrite (seller_create_prices_run R _ _ ids) in Hcreate
      by (simpl; apply lookup_insert_eq).
    injection Hcreate as Hcollect <-.
    apply submit_ok in Hsteps as (chunks & s3 & Hcat & Hlog3 & _ & Hret); [|lia].
    unfold ret in Hret. injection Hret as <- <-. simpl in Hlog3.
    split; [exact (collect_ids _ _ _ _ ozon_price_item_id Hcollect)|].
    rewrite (events_of_run _ _ _ _
               (((λ c, EvOzonProductList c account) <$> ozon_cursors "" ps) ++
                ((λ c, EvOzonUpdatePrice c account) <$> chunks)) Hrun)
      by (by rewrite Hlog3, <- app_assoc).
    split; batches_of_loop; done.
  - rewrite (bind_ok _ _ _ _ _
      (market_listing_loop_run _ _ _ _ _ _ Hps fuel [] s Hfuel eq_refl))
      in Hsteps.
    apply bind_inv_ok in Hsteps as (r & s1 & Halloc & Hsteps).
    unfold alloc in Halloc. injection Halloc as <- <-.
    apply bind_inv_ok in Hsteps as (prices' & s2 & Hcreate & Hsteps).
    rewrite (market_create_prices_run R _ _ ids) in Hcreate
      by (simpl; apply lookup_insert_eq).
    injection Hcreate as Hcollect <-.
    apply submit_ok in Hsteps as (chunks & s3 & Hcat & Hlog3 & _ & Hret); [|lia].
    unfold ret in Hret. injection Hret as <- <-. simpl in Hlog3.
    split; [exact (collect_ids _ _ _ _ market_price_item_id Hcollect)|].
    rewrite (events_of_run _ _ _ _
               (((λ c, EvMarketProductList c account) <$> market_cursors "" ps) ++
                ((λ c, EvMarketUpdatePrice c account) <$> chunks)) Hrun)
      by (by rewrite Hlog3, <- app_assoc).
    split; batches_of_loop; done.
Qed.

Lemma upload_prices_fresh_listing_witness :
  let R := [Watch (PyStr "003") (PyStr "4") (PyStr "1'200.00 руб.");
            Watch (PyStr "009") (PyStr "1") (PyStr "70.00 руб.");
            Watch (PyStr "001") (PyStr "10") (PyStr "5'990.00 руб.")] in
  concat (ozon_price_batches
            (events_of (await (Seller.upload_prices 2 R "c" "t"))
                       (initial two_pages))) =
    [OzonPrice "UNKNOWN" "RUB" "003" "0" "1200";
     OzonPrice "UNKNOWN" "RUB" "001" "0" "5990"] ∧
  concat (market_price_batches
            (events_of (await (Market.upload_prices 2 R "fbs" "m"))
                       (initial two_pages))) =
    [MarketPrice "003" (MarketPriceValue 1200 "RUR");
     MarketPrice "001" (MarketPriceValue 5990 "RUR")].
Proof.
  intros R. split.
  - destruct (upload_prices_fresh_listing 2 R "c" "t" (initial two_pages))
      as [Hseller _].
    refine (proj1 (proj2 (Hseller
      [OzonPage [OzonProduct "001"; OzonProduct "002"] 3 "002";
       OzonPage [OzonProduct "003"] 3 "003"]
      (Script (env_vars two_pages) (now two_pages) (feed two_pages) []
              (market_pages two_pages) (Ok tt))
      [OzonPrice "UNKNOWN" "RUB" "003" "0" "1200";
       OzonPrice "UNKNOWN" "RUB" "001" "0" "5990"]
      (await (Seller.upload_prices 2 R "c" "t") (initial two_pages)).2 _ _ _))).
    + eapply ozon_listing_next; [reflexivity|done|].
      eapply ozon_listing_last; [reflexivity|done].
    + simpl. lia.
    + by vm_compute.
  - destruct (upload_prices_fresh_listing 2 R "fbs" "m" (initial two_pages))
      as [_ Hmarket].
    refine (proj1 (proj2 (Hmarket
      [MarketPage [MarketEntry "001"; MarketEntry "002"] (Some "p2");
       MarketPage [MarketEntry "003"] (Some "")]
      (Script (env_vars two_pages) (now two_pages) (feed two_pages)
              (ozon_pages two_pages) [] (Ok tt))
      [MarketPrice "003" (MarketPriceValue 1200 "RUR");
       MarketPrice "001" (MarketPriceValue 5990 "RUR")]
      (await (Market.upload_prices 2 R "fbs" "m") (initial two_pages)).2 _ _ _))).
    + eapply market_listing_next; [reflexivity|reflexivity|done|].
      eapply market_listing_last; [reflexivity|by right].
    + simpl. lia.
    + by vm_compute.
Defined.

(** ** The order of the requests of a run *)

Lemma phases_empty (Ps : list (list event → Prop)) :
  Forall (λ P, P []) Ps → phases Ps [].
Proof.
  intros HPs. exists (const [] <$> Ps). split.
  - clear HPs. by induction Ps.
  - induction HPs; simpl; by constructor.
Qed.

Lemma phases_here (P : list event → Prop) Ps e1 e2 :
  P e1 → phases Ps e2 → phases (P :: Ps) (e1 ++ e2).
Proof. intros H1 (parts & -> & Hparts). exists (e1 :: parts). by split; [|constructor]. Qed.

Lemma phases_only (P : list event → Prop) Ps e :
  P e → Forall (λ P, P []) Ps → phases (P :: Ps) e.
Proof.
  intros He HPs. rewrite <- (app_nil_r e).
  by apply phases_here; [|apply phases_empty].
Qed.

Lemma phases_later (P : list event → Prop) Ps e :
  P [] → phases Ps e → phases (P :: Ps) e.
Proof. intros Hnil He. by apply (phases_here P Ps [] e). Qed.

Lemma phases_more (P : list event → Prop) `{!Closed P} Ps e1 e2 :
  P e1 → phases (P :: Ps) e2 → phases (P :: Ps) (e1 ++ e2).
Proof.
  intros H1 (parts & -> & Hparts).
  apply Forall2_cons_inv_l in Hparts as (part & parts' & Hpart & Hparts & ->).
  exists ((e1 ++ part) :: parts'). simpl. rewrite app_assoc.
  split; [done|]. constructor; [by apply closed_app|done].
Qed.

Lemma phases_last (P : list event → Prop) Ps e1 e2 :
  phases Ps e1 → P e2 → phases (Ps ++ [P]) (e1 ++ e2).
Proof.
  intros (parts & -> & Hparts) H2. exists (parts ++ [e2]). split.
  - rewrite concat_app. simpl. by rewrite app_nil_r.
  - apply Forall2_app; [done|]. by repeat constructor.
Qed.

Section EmitsPhases.
Context {W : Type}.

Lemma emits_bind_here {A B} (m : M W A) (f : A → M W B)
    (P : list event → Prop) Ps :
  Forall (λ P, P []) Ps →
  emits m P → (∀ a, emits (f a) (phases Ps)) →
  emits (bind m f) (phases (P :: Ps)).
Proof.
  intros HPs Hm Hf. eapply emits_bind; [exact Hm|exact Hf| |].
  - intros e1 He1. by apply phases_only.
  - intros e1 e2. apply phases_here.
Qed.

Lemma emits_bind_more {A B} (m : M W A) (f : A → M W B)
    (P : list event → Prop) `{!Closed P} Ps :
  Forall (λ P, P []) Ps →
  emits m P → (∀ a, emits (f a) (phases (P :: Ps))) →
  emits (bind m f) (phases (P :: Ps)).
Proof.
  intros HPs Hm Hf. eapply emits_bind; [exact Hm|exact Hf| |].
  - intros e1 He1. by apply phases_only.
  - intros e1 e2. by apply phases_more.
Qed.

Lemma emits_bind_silent {A B} (m : M W A) (f : A → M W B)
    (Φ : list event → Prop) :
  Φ [] → emits m (λ evs, evs = []) → (∀ a, emits (f a) Φ) → emits (bind m f) Φ.
Proof.
  intros Hnil Hm Hf. eapply emits_bind; [exact Hm|exact Hf| |].
  - by intros e1 ->.
  - by intros e1 e2 ->.
Qed.

Lemma emits_for_each_closed {A} (Φ : list event → Prop) `{!Closed Φ}
    (ev : A → event) (reply : A → W → result unit * W) (l : list A) :
  (∀ x, Φ [ev x]) → emits (for_each l (fun x => request (ev x) (reply x))) Φ.
Proof.
  intros Hev. unfold for_each.
  apply emits_for_fold_closed; [done|]. intros _ x. by apply emits_request.
Qed.
End EmitsPhases.

Section Listings.
Context {W : Type} `{!World W} (Φ : list event → Prop) `{!Closed Φ}.

Lemma emits_seller_listing (fuel : nat) (client_id seller_token : string) :
  (∀ cursor, Φ [EvOzonProductList cursor client_id]) →
  emits (Seller.get_offer_ids (W:=W) fuel client_id seller_token) Φ.
Proof.
  intros Hev. unfold Seller.get_offer_ids.
  apply emits_bind_closed; [done| |intros; by apply emits_alloc].
  generalize (@nil ozon_product). generalize "".
  induction fuel as [|fuel IH]; intros last_id product_list; simpl.
  { by apply emits_out_of_fuel. }
  apply emits_bind_closed; [done| |intros page].
  - by apply emits_request.
  - destruct (_ =? _)%Z; [by apply emits_ret|apply IH].
Qed.

Lemma emits_market_listing (fuel : nat) (campaign_id market_token : string) :
  (∀ page, Φ [EvMarketProductList page campaign_id]) →
  emits (Market.get_offer_ids (W:=W) fuel campaign_id market_token) Φ.
Proof.
  intros Hev. unfold Market.get_offer_ids.
  apply emits_bind_closed; [done| |intros; by apply emits_alloc].
  generalize (@nil market_entry). generalize "".
  induction fuel as [|fuel IH]; intros page product_list; simpl.
  { by apply emits_out_of_fuel. }
  apply emits_bind_closed; [done| |intros some_prod].
  - by apply emits_request.
  - destruct (nextPageToken some_prod) as [next|]; [|by apply emits_ret].
    destruct (String.eqb next ""); [by apply emits_ret|apply IH].
Qed.
End Listings.

Section RunOrder.
Context {W : Type} `{!World W}.

Local Abbreviation fed := (λ evs : list event, evs = [] ∨ evs = [EvDownloadStock]).
Local Abbreviation reported :=
  (λ evs : list event, evs = [] ∨ ∃ error text, evs = [EvPrint error text]).
Local Abbreviation ozon_listed c :=
  (Forall (λ ev, ∃ cursor, ev = EvOzonProductList cursor c)).
Local Abbreviation ozon_stocked c :=
  (Forall (λ ev, ∃ batch, ev = EvOzonUpdateStocks batch c)).
Local Abbreviation ozon_priced c :=
  (Forall (λ ev, ∃ batch, ev = EvOzonUpdatePrice batch c)).
Local Abbreviation market_listed c :=
  (Forall (λ ev, ∃ page, ev = EvMarketProductList page c)).
Local Abbreviation market_stocked c :=
  (Forall (λ ev, ∃ batch, ev = EvMarketUpdateStocks batch c)).

Lemma emits_seller_main_phases (fuel : nat) :
  emits (Seller.main (W:=W) fuel)
    (λ evs, ∃ c, phases [ozon_listed c; fed; ozon_stocked c; ozon_priced c;
                         reported] evs).
Proof.
  unfold Seller.main.
  apply emits_bind_silent;
    [exists ""; apply phases_empty; repeat constructor; by left
    |apply emits_env_str, _|intros seller_token].
  apply emits_bind_silent;
    [exists ""; apply phases_empty; repeat constructor; by left
    |apply emits_env_str, _|intros client_id].
  eapply emits_weaken; [|intros evs Hevs; exists client_id; exact Hevs].
  apply (emits_try_except _ _
           (phases [ozon_listed client_id; fed; ozon_stocked client_id;
                    ozon_priced client_id])
           (λ evs, ∃ error text, evs = [EvPrint error text])).
  - apply emits_bind_here;
      [repeat constructor; by left
      |apply emits_seller_listing; [apply _|intros; repeat constructor; eauto]
      |intros offer_ids].
    apply emits_bind_here;
      [repeat constructor|apply emits_request; by right|intros watch_remnants].
    apply emits_bind_more;
      [apply _|repeat constructor|apply emits_seller_create_stocks, _|intros stocks].
    apply emits_bind_more;
      [apply _|repeat constructor|apply emits_lift, _|intros chunks].
    apply emits_bind_here;
      [repeat constructor
      |apply emits_for_each_closed; [apply _|intros; repeat constructor; eauto]
      |intros _].
    eapply emits_weaken; [|intros evs Hevs; apply phases_only; [exact Hevs|constructor]].
    apply emits_bind_closed; [apply _|apply emits_seller_create_prices, _|intros prices].
    apply emits_bind_closed; [apply _|apply emits_lift, _|intros chunks'].
    apply emits_for_each_closed; [apply _|intros; repeat constructor; eauto].
  - intros e. apply emits_report. eauto.
  - intros e1 He1. rewrite <- (app_nil_r e1).
    match type of He1 with
    | phases ?Ps _ => apply (phases_last reported Ps e1 []); [done|by left]
    end.
  - intros e1 e2 He1 He2.
    match type of He1 with
    | phases ?Ps _ => apply (phases_last reported Ps e1 e2); [done|by right]
    end.
Qed.

Lemma emits_market_main_phases (fuel : nat) :
  emits (Market.main (W:=W) fuel)
    (λ evs, ∃ fbs dbs,
       phases [fed; market_listed fbs; market_stocked fbs;
               market_listed dbs; market_stocked dbs; reported] evs).
Proof.
  unfold Market.main.
  do 5 (apply emits_bind_silent;
    [exists "", ""; apply phases_empty; repeat constructor; by left
    |apply emits_env_str, _|intros ?]).
  rename a into market_token, a0 into fbs, a1 into dbs, a2 into wfbs, a3 into wdbs.
  eapply emits_weaken; [|intros evs Hevs; exists fbs, dbs; exact Hevs].
  apply emits_bind_here;
    [repeat constructor; by left|apply emits_request; by right|intros watch_remnants].
  apply (emits_try_except _ _
           (phases [market_listed fbs; market_stocked fbs;
                    market_listed dbs; market_stocked dbs])
           (λ evs, ∃ error text, evs = [EvPrint error text])).
  - apply emits_bind_here;
      [repeat constructor
      |apply emits_market_listing; [apply _|intros; repeat constructor; eauto]
      |intros offer_ids].
    apply emits_bind_more;
      [apply _|repeat constructor|apply emits_market_create_stocks, _|intros stocks].
    apply emits_bind_more;
      [apply _|repeat constructor|apply emits_lift, _|intros chunks].
    apply emits_bind_here;
      [repeat constructor
      |apply emits_for_each_closed; [apply _|intros; repeat constructor; eauto]
      |intros _].
    apply emits_bind_more;
      [apply _|repeat constructor|apply emits_ret, _|intros _].
    apply emits_bind_here;
      [repeat constructor
      |apply emits_market_listing; [apply _|intros; repeat constructor; eauto]
      |intros offer_ids'].
    eapply emits_weaken; [|intros evs Hevs; apply phases_only; [exact Hevs|constructor]].
    apply emits_bind_closed;
      [apply _|apply emits_market_create_stocks, _|intros stocks'].
    apply emits_bind_closed; [apply _|apply emits_lift, _|intros chunks'].
    apply emits_bind_closed;
      [apply _
      |apply emits_for_each_closed; [apply _|intros; repeat constructor; eauto]
      |intros _].
    apply emits_bind_closed; [apply _|apply emits_ret, _|intros _].
    apply emits_ret, _.
  - intros e. apply emits_report. eauto.
  - intros e1 He1. rewrite <- (app_nil_r e1).
    match type of He1 with
    | phases ?Ps _ => apply (phases_last reported Ps e1 []); [done|by left]
    end.
  - intros e1 e2 He1 He2.
    match type of He1 with
    | phases ?Ps _ => apply (phases_last reported Ps e1 e2); [done|by right]
    end.
Qed.
End RunOrder.

(** X14: the events of a run of [seller.main] come in this order, whatever the
    marketplace and the feed site answer: the listing requests, then at most
    one download of the feed, then the stock batches, then the price batches,
    then at most one printed line.  So nothing is requested after an error
    is reported, the feed is never read before the listing is complete, no
    price is submitted before the last stock batch, and every request goes to
    one and the same client id. *)
Theorem seller_main_event_order {W} `{!World W} (fuel : nat) (s : state W) :
  ∃ client listing feed stocks prices report,
    events_of (Seller.main fuel) s =
      listing ++ feed ++ stocks ++ prices ++ report ∧
    Forall (λ ev, ∃ cursor, ev = EvOzonProductList cursor client) listing ∧
    (feed = [] ∨ feed = [EvDownloadStock]) ∧
    Forall (λ ev, ∃ batch, ev = EvOzonUpdateStocks batch client) stocks ∧
    Forall (λ ev, ∃ batch, ev = EvOzonUpdatePrice batch client) prices ∧
    (report = [] ∨ ∃ error text, report = [EvPrint error text]).
Proof.
  destruct (emits_events _ _ s (emits_seller_main_phases fuel))
    as (client & parts & Hevs & Hparts).
  apply Forall2_cons_inv_l in Hparts as (listing & ? & Hl & Hparts & ->).
  apply Forall2_cons_inv_l in Hparts as (feed & ? & Hf & Hparts & ->).
  apply Forall2_cons_inv_l in Hparts as (stocks & ? & Hs & Hparts & ->).
  apply Forall2_cons_inv_l in Hparts as (prices & ? & Hp & Hparts & ->).
  apply Forall2_cons_inv_l in Hparts as (report & ? & Hr & Hparts & ->).
  apply Forall2_nil_inv_l in Hparts as ->.
  exists client, listing, feed, stocks, prices, report.
  split; [|done]. rewrite Hevs. simpl. by rewrite app_nil_r.
Qed.

(** X15: the events of a run of [market.main] come in this order, whatever the
    marketplace and the feed site answer: at most one download of the feed,
    then the listing requests and the stock batches of one campaign, then the
    listing requests and the stock batches of a second campaign, then at most
    one printed line.  So the feed is read once for both campaigns and
    before any request to the marketplace, the second campaign is not
    touched before the last stock batch of the first, nothing is requested
    after an error is reported, and no price is submitted. *)
Theorem market_main_event_order {W} `{!World W} (fuel : nat) (s : state W) :
  ∃ fbs dbs feed listing1 stocks1 listing2 stocks2 report,
    events_of (Market.main fuel) s =
      feed ++ listing1 ++ stocks1 ++ listing2 ++ stocks2 ++ report ∧
    (feed = [] ∨ feed = [EvDownloadStock]) ∧
    Forall (λ ev, ∃ page, ev = EvMarketProductList page fbs) listing1 ∧
    Forall (λ ev, ∃ batch, ev = EvMarketUpdateStocks batch fbs) stocks1 ∧
    Forall (λ ev, ∃ page, ev = EvMarketProductList page dbs) listing2 ∧
    Forall (λ ev, ∃ batch, ev = EvMarketUpdateStocks batch dbs) stocks2 ∧
    (report = [] ∨ ∃ error text, report = [EvPrint error text]).
Proof.
  destruct (emits_events _ _ s (emits_market_main_phases fuel))
    as (fbs & dbs & parts & Hevs & Hparts).
  apply Forall2_cons_inv_l in Hparts as (feed & ? & Hf & Hparts & ->).
  apply Forall2_cons_inv_l in Hparts as (listing1 & ? & Hl1 & Hparts & ->).
  apply Forall2_cons_inv_l in Hparts as (stocks1 & ? & Hs1 & Hparts & ->).
  apply Forall2_cons_inv_l in Hparts as (listing2 & ? & Hl2 & Hparts & ->).
  apply Forall2_cons_inv_l in Hparts as (stocks2 & ? & Hs2 & Hparts & ->).
  apply Forall2_cons_inv_l in Hparts as (report & ? & Hr & Hparts & ->).
  apply Forall2_nil_inv_l in Hparts as ->.
  exists fbs, dbs, feed, listing1, stocks1, listing2, stocks2, report.
  split; [|done]. rewrite Hevs. simpl. by rewrite app_nil_r.
Qed.

(** ** A missing setting *)

(** X16: when one of the environment variables a driver reads is missing,
    the driver ends with an exception before anything happens: nothing is
    requested from a marketplace, nothing is printed, no list is created,
    and [market.main] does not download the feed either. *)
Theorem main_missing_variable {W} `{!World W} (fuel : nat) (s : state W)
    (name : string) (e : exn) :
  env_lookup name (world s) = Raise e →
  (name ∈ ["SELLER_TOKEN"; "CLIENT_ID"] →
     ∃ e', Seller.main fuel s = (Some (Raise e'), s)) ∧
  (name ∈ ["MARKET_TOKEN"; "FBS_ID"; "DBS_ID";
           "WAREHOUSE_FBS_ID"; "WAREHOUSE_DBS_ID"] →
     ∃ e', Market.main fuel s = (Some (Raise e'), s)).
Proof.
  intros Hname. split; intros Hin.
  - unfold Seller.main, bind at 1 2, env_str.
    destruct (env_lookup "SELLER_TOKEN" (world s)) eqn:H1; [|eauto].
    destruct (env_lookup "CLIENT_ID" (world s)) eqn:H2; [|eauto].
    exfalso.
    repeat (apply elem_of_cons in Hin as [-> | Hin]; [congruence|]).
    by apply elem_of_nil in Hin.
  - unfold Market.main, env_str.
    unfold bind at 1.
    destruct (env_lookup "MARKET_TOKEN" (world s)) eqn:H1; [|eauto].
    unfold bind at 1.
    destruct (env_lookup "FBS_ID" (world s)) eqn:H2; [|eauto].
    unfold bind at 1.
    destruct (env_lookup "DBS_ID" (world s)) eqn:H3; [|eauto].
    unfold bind at 1.
    destruct (env_lookup "WAREHOUSE_FBS_ID" (world s)) eqn:H4; [|eauto].
    unfold bind at 1.
    destruct (env_lookup "WAREHOUSE_DBS_ID" (world s)) eqn:H5; [|eauto].
    exfalso.
    repeat (apply elem_of_cons in Hin as [-> | Hin]; [congruence|]).
    by apply elem_of_nil in Hin.
Qed.

Lemma main_missing_variable_witness :
  (∃ e', Seller.main 5 (initial unconfigured) =
           (Some (Raise e'), initial unconfigured)) ∧
  (∃ e', Market.main 5 (initial unconfigured) =
           (Some (Raise e'), initial unconfigured)).
Proof.
  split.
  - apply (main_missing_variable 5 (initial unconfigured) "CLIENT_ID" EnvError);
      [reflexivity|compute_done].
  - apply (main_missing_variable 5 (initial unconfigured) "DBS_ID" EnvError);
      [reflexivity|compute_done].
Defined.
